(** * dynablock: the mock auth service, the token codec, the session holder,
      the forms and the page

    A shallow embedding of
      - [src/modules/auth-module/routes/routes.jsx]  ([authAPI], the [Login]
        and [Register] forms, [Dashboard], [Routes], and [render404], whose
        source that file carries at its end),
      - [src/main.js]                                ([sessionManager]),
      - [src/modules/auth-module/session-manager/session.jsx]
                                                     ([SessionProvider]),
    together with the two platform codecs the token travels through
    ([btoa]/[atob] and [JSON.stringify]/[JSON.parse]) and the regular
    expression of the forms.

    Conventions.
      - A JavaScript string is the list of its UTF-16 code units.
      - Numbers are integers: identifiers and millisecond instants.  They
        stand for the doubles that hold them exactly (time values stay
        below 2^53, and any integer below 10^21 is printed in plain
        digits); negative zero is identified with zero.  A JSON numeral
        written with a fraction or an exponent is kept as its text
        ([VFrac]) and arithmetic on it is not modelled.
      - [Date.now()] is an explicit argument of every operation that reads
        the clock; the simulated network delay of the auth service only
        decides which instant that is.
      - An evaluation ends in [Ret v], in [Throw e] (a JavaScript exception)
        or in [Unmodelled]: the source then relies on a coercion this
        development leaves out (ToNumber of a string or of an array,
        arithmetic on a fractional numeral, ToString of an array or of
        such a numeral).  Where such a coercion raises a TypeError
        instead, on an object or an array that cannot be converted to a
        primitive, the evaluation ends in [Throw].
      - The [useState] cells of a component are the fields of a record and
        a handler maps the cells, and the store it reads, to what they are
        once it has run; a callback given to [setTimeout] is kept until it
        fires. *)

From Stdlib Require Import ZArith NArith List String Ascii Bool Lia.
From Stdlib Require Import DecimalN DecimalPos DecimalFacts.
From Stdlib Require Import QArith Qround.
Import ListNotations.

Local Open Scope Z_scope.
Set Warnings "-register-all".

(* ================================================================== *)
(** ** JavaScript data *)
(* ================================================================== *)

Module JS.

Definition jsstring := list N.

(** A literal of the source, as code units. *)
Definition js (s : string) : jsstring :=
  map N_of_ascii (list_ascii_of_string s).

Definition jsstring_eqb (a b : jsstring) : bool :=
  if list_eq_dec N.eq_dec a b then true else false.

Inductive value : Type :=
| VUndefined
| VNull
| VBool (b : bool)
| VNum (z : Z)
| VFrac (lit : jsstring)
| VStr (s : jsstring)
| VArr (items : list value)
| VObj (fields : list (jsstring * value)).

Definition object := list (jsstring * value).

Inductive error : Type :=
| TypeError
| SyntaxError
| InvalidCharacterError.

Inductive outcome (A : Type) : Type :=
| Ret (a : A)
| Throw (e : error)
| Unmodelled.

Arguments Ret {A} a.
Arguments Throw {A} e.
Arguments Unmodelled {A}.

Definition bind {A B} (m : outcome A) (k : A -> outcome B) : outcome B :=
  match m with
  | Ret a => k a
  | Throw e => Throw e
  | Unmodelled => Unmodelled
  end.

(** [try { m } catch { h }] *)
Definition try_catch {A} (m : outcome A) (h : error -> outcome A) : outcome A :=
  match m with
  | Throw e => h e
  | _ => m
  end.

(** The result of arithmetic: a finite integer or NaN. *)
Inductive number : Type :=
| Int (z : Z)
| NaN.

(** Own property lookup of an object literal or of a parsed payload. *)
Fixpoint lookup (k : jsstring) (o : object) : option value :=
  match o with
  | [] => None
  | (k', v) :: o' => if jsstring_eqb k k' then Some v else lookup k o'
  end.

(** [o[k] = v] on an ordinary object: an existing property keeps its place. *)
Fixpoint set_field (k : jsstring) (v : value) (o : object) : object :=
  match o with
  | [] => [(k, v)]
  | (k', v') :: o' =>
      if jsstring_eqb k k' then (k, v) :: o' else (k', v') :: set_field k v o'
  end.

(** [{ ...a, ...b }] *)
Definition spread (a b : object) : object :=
  fold_left (fun acc kv => set_field (fst kv) (snd kv) acc) b a.

(** [v.k] for a property name [k] that no built-in prototype defines
    (the source reads [exp] and [userId]): reading a property of [null]
    or [undefined] raises, a primitive or an array has no such property. *)
Definition get_field (v : value) (k : jsstring) : outcome value :=
  match v with
  | VUndefined | VNull => Throw TypeError
  | VObj o => Ret (match lookup k o with Some x => x | None => VUndefined end)
  | _ => Ret VUndefined
  end.

Definition bool_num (b : bool) : Z := if b then 1 else 0.

(** Whether an object has an own property of that name. *)
Definition has_own (k : jsstring) (o : object) : bool :=
  match lookup k o with Some _ => true | None => false end.

(** Whether converting [v] to a primitive raises a TypeError.  A parsed
    object inherits [valueOf], which returns the object itself, and
    [toString], which returns a string; an own property [toString]
    hides the latter and, being data, cannot be called, and nothing is
    left that yields a primitive.  An array is converted by joining its
    elements, each converted in turn. *)
Fixpoint conversion_raises (v : value) : bool :=
  match v with
  | VObj o => has_own (js "toString") o
  | VArr items => existsb conversion_raises items
  | _ => false
  end.

(** ToNumber.  An object becomes a string that is no numeral, hence
    NaN, unless its conversion raises; what number a string, an array or
    a numeral with a fraction or an exponent becomes is not modelled. *)
Definition to_number (v : value) : outcome number :=
  match v with
  | VUndefined => Ret NaN
  | VNull => Ret (Int 0)
  | VBool b => Ret (Int (bool_num b))
  | VNum z => Ret (Int z)
  | VObj _ => if conversion_raises v then Throw TypeError else Ret NaN
  | VArr _ => if conversion_raises v then Throw TypeError else Unmodelled
  | VFrac _ | VStr _ => Unmodelled
  end.

(** [v < n] with [n] a number: a comparison with NaN is false. *)
Definition js_lt (v : value) (n : Z) : outcome bool :=
  bind (to_number v) (fun x =>
    Ret (match x with Int z => z <? n | NaN => false end)).

(** [v > n] *)
Definition js_gt (v : value) (n : Z) : outcome bool :=
  bind (to_number v) (fun x =>
    Ret (match x with Int z => n <? z | NaN => false end)).

(** [v - n] *)
Definition js_sub (v : value) (n : Z) : outcome number :=
  bind (to_number v) (fun x =>
    Ret (match x with Int z => Int (z - n) | NaN => NaN end)).

(** [n === v] with [n] a number: no coercion. *)
Definition strict_eq_num (n : Z) (v : value) : outcome bool :=
  match v with
  | VNum z => Ret (n =? z)
  | VFrac _ => Unmodelled
  | _ => Ret false
  end.

(** [Math.floor(x / 1000 / 60)]: the two divisions are exact, the floor
    is taken once. *)
Definition floor_div_1000_60 (x : number) : number :=
  match x with
  | Int z => Int (Qfloor (inject_Z z / inject_Z 1000 / inject_Z 60)%Q)
  | NaN => NaN
  end.

(** ToBoolean, as [!v], [v || d] and [v ? a : b] apply it.  Whether a
    numeral with a fraction or an exponent denotes zero is not modelled. *)
Definition truthy (v : value) : outcome bool :=
  match v with
  | VUndefined | VNull => Ret false
  | VBool b => Ret b
  | VNum z => Ret (negb (z =? 0))
  | VFrac _ => Unmodelled
  | VStr s => Ret (match s with [] => false | _ :: _ => true end)
  | VArr _ | VObj _ => Ret true
  end.

(** [s.startsWith(p)] *)
Fixpoint starts_with (p s : jsstring) : bool :=
  match p, s with
  | [], _ => true
  | _ :: _, [] => false
  | a :: p', b :: s' => N.eqb a b && starts_with p' s'
  end.

(** [s.includes(p)] on strings: [p] occurs at some position of [s]. *)
Fixpoint string_includes (s p : jsstring) : bool :=
  starts_with p s
  || match s with
     | [] => false
     | _ :: s' => string_includes s' p
     end.

(** [items.includes(p)] on an array, for a string [p]: SameValueZero
    equates a string only with a string of the same code units. *)
Definition array_includes (items : list value) (p : jsstring) : bool :=
  existsb (fun v => match v with VStr s => jsstring_eqb s p | _ => false end)
          items.


End JS.

Import JS.

Notation "x <- m ;; k" := (bind m (fun x => k))
  (at level 61, m at next level, right associativity).

(* ================================================================== *)
(** ** [btoa] and [atob] *)
(* ================================================================== *)

Module Base64.
Local Open Scope N_scope.

(** The sixty-four characters: [A-Z], [a-z], [0-9], [+], [/]. *)
Definition b64_char (v : N) : N :=
  if v <? 26 then v + 65
  else if v <? 52 then v + 71
  else if v <? 62 then v - 4
  else if v =? 62 then 43
  else 47.

Definition b64_value (c : N) : option N :=
  if (65 <=? c) && (c <=? 90) then Some (c - 65)
  else if (97 <=? c) && (c <=? 122) then Some (c - 71)
  else if (48 <=? c) && (c <=? 57) then Some (c + 4)
  else if c =? 43 then Some 62
  else if c =? 47 then Some 63
  else None.

Definition pad : N := 61.

Fixpoint encode (s : list N) : list N :=
  match s with
  | [] => []
  | [a] => [b64_char (a / 4); b64_char ((a mod 4) * 16); pad; pad]
  | [a; b] =>
      [b64_char (a / 4); b64_char ((a mod 4) * 16 + b / 16);
       b64_char ((b mod 16) * 4); pad]
  | a :: b :: c :: rest =>
      b64_char (a / 4) :: b64_char ((a mod 4) * 16 + b / 16)
      :: b64_char ((b mod 16) * 4 + c / 64) :: b64_char (c mod 64)
      :: encode rest
  end.

(** [btoa(s)]: raises when a code unit does not fit in one byte. *)
Definition btoa (s : jsstring) : outcome jsstring :=
  if forallb (fun c => c <=? 255) s then Ret (encode s)
  else Throw InvalidCharacterError.

Definition is_ascii_ws (c : N) : bool :=
  (c =? 9) || (c =? 10) || (c =? 12) || (c =? 13) || (c =? 32).

(** When the length is a multiple of four, one or two trailing [=] go. *)
Definition strip_padding (d : list N) : list N :=
  if Nat.eqb (Nat.modulo (List.length d) 4) 0 then
    match rev d with
    | c1 :: c2 :: r =>
        if c1 =? pad then if c2 =? pad then rev r else rev (c2 :: r) else d
    | _ => d
    end
  else d.

Fixpoint values (d : list N) : option (list N) :=
  match d with
  | [] => Some []
  | c :: d' =>
      match b64_value c, values d' with
      | Some v, Some vs => Some (v :: vs)
      | _, _ => None
      end
  end.

(** Four sextets give three bytes; a final group of three gives two and
    of two gives one, the left-over bits being dropped. *)
Fixpoint decode (vs : list N) : list N :=
  match vs with
  | a :: b :: c :: d :: rest =>
      (a * 4 + b / 16) :: ((b mod 16) * 16 + c / 4)
      :: ((c mod 4) * 64 + d) :: decode rest
  | [a; b; c] => [a * 4 + b / 16; (b mod 16) * 16 + c / 4]
  | [a; b] => [a * 4 + b / 16]
  | _ => []
  end.

(** [atob(t)]: the forgiving base64 decoder of the platform. *)
Definition atob (t : jsstring) : outcome jsstring :=
  let d := strip_padding (filter (fun c => negb (is_ascii_ws c)) t) in
  if Nat.eqb (Nat.modulo (List.length d) 4) 1 then Throw InvalidCharacterError
  else match values d with
       | Some vs => Ret (decode vs)
       | None => Throw InvalidCharacterError
       end.

(** The sextets of [s], before they are written as characters. *)
Fixpoint sextets (s : list N) : list N :=
  match s with
  | [] => []
  | [a] => [a / 4; (a mod 4) * 16]
  | [a; b] => [a / 4; (a mod 4) * 16 + b / 16; (b mod 16) * 4]
  | a :: b :: c :: rest =>
      a / 4 :: (a mod 4) * 16 + b / 16 :: (b mod 16) * 4 + c / 64 :: c mod 64
      :: sextets rest
  end.

Fixpoint padding (s : list N) : list N :=
  match s with
  | [] => []
  | [_] => [pad; pad]
  | [_; _] => [pad]
  | _ :: _ :: _ :: rest => padding rest
  end.
End Base64.

(* ================================================================== *)
(** ** [JSON.stringify] and [JSON.parse] *)
(* ================================================================== *)

Module Json.
Local Open Scope N_scope.

(** *** Numerals *)

Fixpoint uint_chars (u : Decimal.uint) : list N :=
  match u with
  | Decimal.Nil => []
  | Decimal.D0 u => 48 :: uint_chars u
  | Decimal.D1 u => 49 :: uint_chars u
  | Decimal.D2 u => 50 :: uint_chars u
  | Decimal.D3 u => 51 :: uint_chars u
  | Decimal.D4 u => 52 :: uint_chars u
  | Decimal.D5 u => 53 :: uint_chars u
  | Decimal.D6 u => 54 :: uint_chars u
  | Decimal.D7 u => 55 :: uint_chars u
  | Decimal.D8 u => 56 :: uint_chars u
  | Decimal.D9 u => 57 :: uint_chars u
  end.

Definition digit_uint (c : N) (u : Decimal.uint) : Decimal.uint :=
  match c - 48 with
  | 0 => Decimal.D0 u | 1 => Decimal.D1 u | 2 => Decimal.D2 u
  | 3 => Decimal.D3 u | 4 => Decimal.D4 u | 5 => Decimal.D5 u
  | 6 => Decimal.D6 u | 7 => Decimal.D7 u | 8 => Decimal.D8 u
  | _ => Decimal.D9 u
  end.

Fixpoint chars_uint (l : list N) : Decimal.uint :=
  match l with
  | [] => Decimal.Nil
  | c :: r => digit_uint c (chars_uint r)
  end.

(** Number::toString on an integer. *)
Definition number_text (z : Z) : jsstring :=
  match z with
  | Zneg p => 45 :: uint_chars (N.to_uint (Npos p))
  | _ => uint_chars (N.to_uint (Z.to_N z))
  end.

(** *** Strings *)

Definition hex_digit (v : N) : N := if v <? 10 then v + 48 else v + 87.

Definition hex_value (c : N) : option N :=
  if (48 <=? c) && (c <=? 57) then Some (c - 48)
  else if (97 <=? c) && (c <=? 102) then Some (c - 87)
  else if (65 <=? c) && (c <=? 70) then Some (c - 55)
  else None.

(** [\uXXXX], in lower case. *)
Definition unicode_escape (c : N) : list N :=
  [92; 117; hex_digit (c / 4096); hex_digit ((c / 256) mod 16);
   hex_digit ((c / 16) mod 16); hex_digit (c mod 16)].

Definition is_high_surrogate (c : N) : bool := (55296 <=? c) && (c <=? 56319).
Definition is_low_surrogate (c : N) : bool := (56320 <=? c) && (c <=? 57343).

Definition escape_unit (c : N) : list N :=
  if c =? 8 then [92; 98]
  else if c =? 9 then [92; 116]
  else if c =? 10 then [92; 110]
  else if c =? 12 then [92; 102]
  else if c =? 13 then [92; 114]
  else if c =? 34 then [92; 34]
  else if c =? 92 then [92; 92]
  else if c <? 32 then unicode_escape c
  else [c].

(** QuoteJSONString without the surrounding quotes: a surrogate that is
    not half of a pair is escaped. *)
Fixpoint quote_body (s : list N) : list N :=
  match s with
  | [] => []
  | c :: r =>
      if is_high_surrogate c then
        match r with
        | d :: r' =>
            if is_low_surrogate d then c :: d :: quote_body r'
            else unicode_escape c ++ quote_body r
        | [] => unicode_escape c
        end
      else if is_low_surrogate c then unicode_escape c ++ quote_body r
      else escape_unit c ++ quote_body r
  end.

Definition quote (s : jsstring) : jsstring := 34 :: quote_body s ++ [34].

(** *** Serialising an object literal whose properties are primitives *)

Definition stringify_prim (v : value) : outcome (option jsstring) :=
  match v with
  | VUndefined => Ret None
  | VNull => Ret (Some (js "null"))
  | VBool true => Ret (Some (js "true"))
  | VBool false => Ret (Some (js "false"))
  | VNum z => Ret (Some (number_text z))
  | VStr s => Ret (Some (quote s))
  | VFrac _ | VArr _ | VObj _ => Unmodelled
  end.

(** The members in order, those whose value is [undefined] left out. *)
Fixpoint stringify_members (o : object) : outcome (list jsstring) :=
  match o with
  | [] => Ret []
  | (k, v) :: o' =>
      t <- stringify_prim v ;;
      ms <- stringify_members o' ;;
      Ret (match t with
           | Some txt => (quote k ++ 58 :: txt) :: ms
           | None => ms
           end)
  end.

Fixpoint join_comma (l : list jsstring) : jsstring :=
  match l with
  | [] => []
  | [x] => x
  | x :: r => x ++ 44 :: join_comma r
  end.

Definition JSON_stringify_object (o : object) : outcome jsstring :=
  ms <- stringify_members o ;;
  Ret (123 :: join_comma ms ++ [125]).

(** *** The lexer: one code unit at a time *)

Inductive token : Type :=
| TLBrace | TRBrace | TLBracket | TRBracket | TColon | TComma
| TString (s : jsstring)
| TNumber (v : value)
| TTrue | TFalse | TNull.

Inductive lstate : Type :=
| LDefault
| LString (acc : list N)
| LEscape (acc : list N)
| LUnicode (acc : list N) (k : nat) (code : N)
| LNumber (acc : list N)
| LWord (acc : list N).

Definition is_json_ws (c : N) : bool :=
  (c =? 32) || (c =? 9) || (c =? 10) || (c =? 13).

Definition is_digit (c : N) : bool := (48 <=? c) && (c <=? 57).

Definition is_lower (c : N) : bool := (97 <=? c) && (c <=? 122).

Definition is_number_unit (c : N) : bool :=
  is_digit c || (c =? 45) || (c =? 43) || (c =? 46) || (c =? 101) || (c =? 69).

Definition punctuation (c : N) : option token :=
  if c =? 123 then Some TLBrace
  else if c =? 125 then Some TRBrace
  else if c =? 91 then Some TLBracket
  else if c =? 93 then Some TRBracket
  else if c =? 58 then Some TColon
  else if c =? 44 then Some TComma
  else None.

Fixpoint span_digits (l : list N) : list N * list N :=
  match l with
  | c :: r =>
      if is_digit c then let (ds, rest) := span_digits r in (c :: ds, rest)
      else ([], l)
  | [] => ([], [])
  end.

Definition nonempty (l : list N) : bool :=
  match l with [] => false | _ => true end.

Definition is_nil (l : list N) : bool :=
  match l with [] => true | _ => false end.

(** [[eE] [+-]? digit+] *)
Definition exponent_ok (l : list N) : bool :=
  match l with
  | c :: r =>
      if (c =? 101) || (c =? 69) then
        let r' := match r with
                  | s :: r1 => if (s =? 43) || (s =? 45) then r1 else r
                  | [] => r
                  end in
        let (es, rest) := span_digits r' in nonempty es && is_nil rest
      else false
  | [] => false
  end.

(** [('.' digit+)? exponent?], not empty. *)
Definition fraction_exponent_ok (l : list N) : bool :=
  match l with
  | c :: r =>
      if c =? 46 then
        let (fs, rest) := span_digits r in
        nonempty fs && (is_nil rest || exponent_ok rest)
      else exponent_ok l
  | [] => false
  end.

(** [0] or a digit string that does not start with [0]. *)
Definition int_part_ok (ds : list N) : bool :=
  match ds with
  | [] => false
  | [_] => true
  | d :: _ => negb (d =? 48)
  end.

Definition number_token (txt : list N) : option token :=
  let (neg, body) :=
    match txt with
    | c :: r => if c =? 45 then (true, r) else (false, txt)
    | [] => (false, txt)
    end in
  let (ds, rest) := span_digits body in
  if int_part_ok ds then
    match rest with
    | [] =>
        let n := Z.of_N (N.of_uint (chars_uint ds)) in
        Some (TNumber (VNum (if neg then (- n)%Z else n)))
    | _ => if fraction_exponent_ok rest then Some (TNumber (VFrac txt)) else None
    end
  else None.

Definition word_token (txt : list N) : option token :=
  if jsstring_eqb txt (js "true") then Some TTrue
  else if jsstring_eqb txt (js "false") then Some TFalse
  else if jsstring_eqb txt (js "null") then Some TNull
  else None.

(** A code unit met between two tokens. *)
Definition start (c : N) : option (lstate * list token) :=
  if is_json_ws c then Some (LDefault, [])
  else if c =? 34 then Some (LString [], [])
  else match punctuation c with
       | Some t => Some (LDefault, [t])
       | None =>
           if (c =? 45) || is_digit c then Some (LNumber [c], [])
           else if is_lower c then Some (LWord [c], [])
           else None
       end.

Definition simple_escape (c : N) : option N :=
  if c =? 34 then Some 34
  else if c =? 92 then Some 92
  else if c =? 47 then Some 47
  else if c =? 98 then Some 8
  else if c =? 102 then Some 12
  else if c =? 110 then Some 10
  else if c =? 114 then Some 13
  else if c =? 116 then Some 9
  else None.

(** The accumulators hold the units read so far, last first. *)
Definition step (st : lstate) (c : N) : option (lstate * list token) :=
  match st with
  | LDefault => start c
  | LString acc =>
      if c =? 34 then Some (LDefault, [TString (rev acc)])
      else if c =? 92 then Some (LEscape acc, [])
      else if c <? 32 then None
      else Some (LString (c :: acc), [])
  | LEscape acc =>
      if c =? 117 then Some (LUnicode acc 0 0, [])
      else match simple_escape c with
           | Some u => Some (LString (u :: acc), [])
           | None => None
           end
  | LUnicode acc k code =>
      match hex_value c with
      | Some h =>
          if Nat.eqb k 3 then Some (LString ((code * 16 + h) :: acc), [])
          else Some (LUnicode acc (S k) (code * 16 + h), [])
      | None => None
      end
  | LNumber acc =>
      if is_number_unit c then Some (LNumber (c :: acc), [])
      else match number_token (rev acc), start c with
           | Some t, Some (st', ts) => Some (st', t :: ts)
           | _, _ => None
           end
  | LWord acc =>
      if is_lower c then Some (LWord (c :: acc), [])
      else match word_token (rev acc), start c with
           | Some t, Some (st', ts) => Some (st', t :: ts)
           | _, _ => None
           end
  end.

Definition finish (st : lstate) : option (list token) :=
  match st with
  | LDefault => Some []
  | LNumber acc => option_map (fun t => [t]) (number_token (rev acc))
  | LWord acc => option_map (fun t => [t]) (word_token (rev acc))
  | LString _ | LEscape _ | LUnicode _ _ _ => None
  end.

Fixpoint lex (st : lstate) (s : list N) : option (list token) :=
  match s with
  | [] => finish st
  | c :: r =>
      match step st c with
      | Some (st', ts) => option_map (app ts) (lex st' r)
      | None => None
      end
  end.

(** *** The parser: a stack of the containers that are open *)

Inductive frame : Type :=
| FArr (acc : list value)                 (* elements so far, last first *)
| FObj (acc : object)                     (* members so far *)
| FKey (acc : object) (key : jsstring).   (* members so far, key read *)

Inductive mode : Type :=
| MValue        (* a value must follow *)
| MFirstElem    (* after [[]: a value or []] *)
| MFirstKey     (* after [{]: a key or [}] *)
| MKey          (* after [,] in an object: a key *)
| MColon        (* after a key: [:] *)
| MNext         (* after a value in a container: [,] or the closer *)
| MDone (v : value).

Definition pstate := (mode * list frame)%type.

(** A value is complete: hand it to the container that is open. *)
Definition deliver (v : value) (stk : list frame) : option pstate :=
  match stk with
  | [] => Some (MDone v, [])
  | FArr acc :: stk' => Some (MNext, FArr (v :: acc) :: stk')
  | FKey acc k :: stk' => Some (MNext, FObj (set_field k v acc) :: stk')
  | FObj _ :: _ => None
  end.

Definition begin_value (t : token) (stk : list frame) : option pstate :=
  match t with
  | TString s => deliver (VStr s) stk
  | TNumber v => deliver v stk
  | TTrue => deliver (VBool true) stk
  | TFalse => deliver (VBool false) stk
  | TNull => deliver VNull stk
  | TLBracket => Some (MFirstElem, FArr [] :: stk)
  | TLBrace => Some (MFirstKey, FObj [] :: stk)
  | TRBrace | TRBracket | TColon | TComma => None
  end.

Definition pstep (st : pstate) (t : token) : option pstate :=
  match st with
  | (MValue, stk) => begin_value t stk
  | (MFirstElem, FArr acc :: stk) =>
      match t with
      | TRBracket => deliver (VArr (rev acc)) stk
      | _ => begin_value t (FArr acc :: stk)
      end
  | (MFirstKey, FObj acc :: stk) =>
      match t with
      | TRBrace => deliver (VObj acc) stk
      | TString k => Some (MColon, FKey acc k :: stk)
      | _ => None
      end
  | (MKey, FObj acc :: stk) =>
      match t with
      | TString k => Some (MColon, FKey acc k :: stk)
      | _ => None
      end
  | (MColon, stk) =>
      match t with
      | TColon => Some (MValue, stk)
      | _ => None
      end
  | (MNext, FArr acc :: stk) =>
      match t with
      | TComma => Some (MValue, FArr acc :: stk)
      | TRBracket => deliver (VArr (rev acc)) stk
      | _ => None
      end
  | (MNext, FObj acc :: stk) =>
      match t with
      | TComma => Some (MKey, FObj acc :: stk)
      | TRBrace => deliver (VObj acc) stk
      | _ => None
      end
  | _ => None
  end.

Fixpoint parse_tokens (st : pstate) (ts : list token) : option value :=
  match ts with
  | [] => match st with (MDone v, _) => Some v | _ => None end
  | t :: ts' =>
      match pstep st t with
      | Some st' => parse_tokens st' ts'
      | None => None
      end
  end.

(** [JSON.parse(s)] *)
Definition JSON_parse (s : jsstring) : outcome value :=
  match lex LDefault s with
  | Some ts =>
      match parse_tokens (MValue, []) ts with
      | Some v => Ret v
      | None => Throw SyntaxError
      end
  | None => Throw SyntaxError
  end.

Definition token_defined (t : token) : Prop :=
  match t with
  | TNumber v => v <> VUndefined
  | _ => True
  end.

Definition mode_defined (st : pstate) : Prop :=
  match fst st with
  | MDone v => v <> VUndefined
  | _ => True
  end.

Definition numeral_unit (c : N) : bool := (c =? 45) || is_digit c.
End Json.

(* ================================================================== *)
(** ** The token payload *)
(* ================================================================== *)

Module Token.

(** [btoa(JSON.stringify({ userId, email, exp }))], as [authAPI.login]
    builds it. *)
Definition encode (userId : Z) (email : jsstring) (exp : Z) : outcome jsstring :=
  txt <- Json.JSON_stringify_object
           [(js "userId", VNum userId); (js "email", VStr email);
            (js "exp", VNum exp)] ;;
  Base64.btoa txt.

(** [JSON.parse(atob(token))], the expression all three readers share. *)
Definition decode (token : jsstring) : outcome value :=
  payload <- Base64.atob token ;;
  Json.JSON_parse payload.

(** The text [JSON.stringify] writes for that object. *)
Definition payload_text (userId : Z) (email : jsstring) (exp : Z) : jsstring :=
  (123 :: Json.join_comma
            [Json.quote (js "userId") ++ 58 :: Json.number_text userId;
             Json.quote (js "email") ++ 58 :: Json.quote email;
             Json.quote (js "exp") ++ 58 :: Json.number_text exp]
       ++ [125])%N.

(** The object a token carries. *)
Definition payload (userId : Z) (email : jsstring) (exp : Z) : value :=
  VObj [(js "userId", VNum userId); (js "email", VStr email);
        (js "exp", VNum exp)].

(** A token is well formed when it is base64 text whose bytes are JSON
    text. *)
Definition well_formed_token (tok : jsstring) : Prop :=
  exists text v, Base64.atob tok = Ret text /\ Json.JSON_parse text = Ret v.
End Token.

(* ================================================================== *)
(** ** [authAPI] (routes.jsx) *)
(* ================================================================== *)

Module AuthAPI.

(** An element of [mockUsers].  [createdAt] is the instant whose ISO-8601
    rendering the source stores; the seeded identity has none. *)
Record identity : Type := {
  id : Z;
  username : jsstring;
  email : jsstring;
  password : jsstring;
  createdAt : option Z
}.

(** [const { password, ...userWithoutPassword } = user] *)
Record public_user : Type := {
  pub_id : Z;
  pub_username : jsstring;
  pub_email : jsstring;
  pub_createdAt : option Z
}.

Definition without_password (u : identity) : public_user :=
  {| pub_id := id u; pub_username := username u; pub_email := email u;
     pub_createdAt := createdAt u |}.

Definition mockUsers : list identity :=
  [ {| id := 1; username := js "demo"; email := js "demo@example.com";
       password := js "demo123"; createdAt := None |} ].

(** What the registration form hands over. *)
Record candidate : Type := {
  cand_username : jsstring;
  cand_email : jsstring;
  cand_password : jsstring
}.

(** What the login form hands over. *)
Record credentials : Type := {
  cred_email : jsstring;
  cred_password : jsstring
}.

(** The object every operation resolves to. *)
Record response : Type := {
  success : bool;
  message : option string;
  token : option jsstring;
  user : option public_user
}.

Definition failure (msg : string) : response :=
  {| success := false; message := Some msg; token := None; user := None |}.

Definition DuplicateEmail : response := failure "Email already registered".
Definition InvalidCredentials : response := failure "Invalid email or password".
Definition TokenExpired : response := failure "Token expired".
Definition UserNotFound : response := failure "User not found".
Definition TokenInvalid : response := failure "Token verification failed".

Definition ttl : Z := 24 * 60 * 60 * 1000.

(** [register]: [now_id] is what [Date.now()] returns and [now_created]
    the instant of [new Date()], both read after the delay. *)
Definition register (store : list identity) (userData : candidate)
    (now_id now_created : Z) : list identity * response :=
  match find (fun u => jsstring_eqb (email u) (cand_email userData)) store with
  | Some _ => (store, DuplicateEmail)
  | None =>
      let newUser :=
        {| id := now_id; username := cand_username userData;
           email := cand_email userData; password := cand_password userData;
           createdAt := Some now_created |} in
      (store ++ [newUser],
       {| success := true; message := Some "Registration successful"%string;
          token := None; user := Some (without_password newUser) |})
  end.

(** [u => u.email === credentials.email && u.password === credentials.password] *)
Definition matches (creds : credentials) (u : identity) : bool :=
  jsstring_eqb (email u) (cred_email creds)
  && jsstring_eqb (password u) (cred_password creds).

Definition login (store : list identity) (creds : credentials) (now : Z)
    : outcome response :=
  match find (matches creds) store with
  | None => Ret InvalidCredentials
  | Some u =>
      tok <- Token.encode (id u) (email u) (now + ttl) ;;
      Ret {| success := true; message := Some "Login successful"%string;
             token := Some tok; user := Some (without_password u) |}
  end.

(** [{ success: true, user: userWithoutPassword }] *)
Definition granted (u : identity) : response :=
  {| success := true; message := None; token := None;
     user := Some (without_password u) |}.

(** [mockUsers.find(u => u.id === decoded.userId)] *)
Fixpoint find_by_id (uid : value) (store : list identity)
    : outcome (option identity) :=
  match store with
  | [] => Ret None
  | u :: rest =>
      same <- strict_eq_num (id u) uid ;;
      if same then Ret (Some u) else find_by_id uid rest
  end.

Definition verifyToken (store : list identity) (tok : jsstring) (now : Z)
    : outcome response :=
  try_catch
    (decoded <- Token.decode tok ;;
     exp <- get_field decoded (js "exp") ;;
     expired <- js_lt exp now ;;
     if expired then Ret TokenExpired
     else
       uid <- get_field decoded (js "userId") ;;
       found <- find_by_id uid store ;;
       match found with
       | None => Ret UserNotFound
       | Some u => Ret (granted u)
       end)
    (fun _ => Ret TokenInvalid).

End AuthAPI.

(* ================================================================== *)
(** ** [sessionManager] (main.js) *)
(* ================================================================== *)

Module SessionManager.

(** [currentSession].  An absent user or token ([null], or an argument
    that was not passed) is [None]. *)
Record session : Type := {
  user : option object;
  token : option jsstring;
  isAuthenticated : bool
}.

(** What [window.dispatchEvent] was given. *)
Inductive event : Type :=
| SessionLogin (detail : object)
| SessionLogout
| SessionUpdate (detail : object).

Record state : Type := {
  currentSession : session;
  dispatched : list event
}.

Definition initial : state :=
  {| currentSession := {| user := None; token := None; isAuthenticated := false |};
     dispatched := [] |}.

(** [!token] is false exactly for a string that is not empty. *)
Definition token_truthy (t : option jsstring) : bool :=
  match t with
  | Some (_ :: _) => true
  | _ => false
  end.

(** The three assignments come first; [userData.username] is then read
    for the log line, which raises when there is no user. *)
Definition login (userData : option object) (authToken : option jsstring)
    (rememberMe : bool) (st : state) : state * outcome bool :=
  let s := {| user := userData; token := authToken; isAuthenticated := true |} in
  match userData with
  | None => ({| currentSession := s; dispatched := dispatched st |}, Throw TypeError)
  | Some u =>
      ({| currentSession := s; dispatched := dispatched st ++ [SessionLogin u] |},
       Ret true)
  end.

Definition logout (st : state) : state * outcome bool :=
  ({| currentSession := {| user := None; token := None; isAuthenticated := false |};
      dispatched := dispatched st ++ [SessionLogout] |},
   Ret true).

Definition updateUser (updates : option object) (st : state)
    : state * outcome bool :=
  match user (currentSession st) with
  | None => (st, Ret false)
  | Some u =>
      let u' := spread u (match updates with Some o => o | None => [] end) in
      ({| currentSession :=
            {| user := Some u'; token := token (currentSession st);
               isAuthenticated := isAuthenticated (currentSession st) |};
          dispatched := dispatched st ++ [SessionUpdate u'] |},
       Ret true)
  end.

(** [decoded.exp < Date.now()] on the stored token. *)
Definition expiry_test (tok : jsstring) (now : Z) : outcome bool :=
  decoded <- Token.decode tok ;;
  exp <- get_field decoded (js "exp") ;;
  js_lt exp now.

(** [if (!currentSession.token) return false] lets through a string that
    is not empty; an exception inside [try] is caught. *)
Definition verifyToken (now : Z) (st : state) : state * outcome bool :=
  match token (currentSession st) with
  | Some (c :: t) =>
      match expiry_test (c :: t) now with
      | Ret true => (fst (logout st), Ret false)
      | Ret false => (st, Ret true)
      | Throw _ => (st, Ret false)
      | Unmodelled => (st, Unmodelled)
      end
  | _ => (st, Ret false)
  end.

Definition getSessionDuration (now : Z) (st : state) : outcome number :=
  match token (currentSession st) with
  | Some (c :: t) =>
      try_catch
        (decoded <- Token.decode (c :: t) ;;
         exp <- get_field decoded (js "exp") ;;
         remaining <- js_sub exp now ;;
         Ret (floor_div_1000_60 remaining))
        (fun _ => Ret (Int 0))
  | _ => Ret (Int 0)
  end.

Definition restoreSession (st : state) : state * outcome bool :=
  (st, Ret false).

(** *** Runs of the session holder *)

Inductive call : Type :=
| Login (userData : option object) (authToken : option jsstring) (rememberMe : bool)
| Logout
| UpdateUser (updates : option object)
| VerifyToken (now : Z)
| RestoreSession.

Definition exec (c : call) (st : state) : state * outcome bool :=
  match c with
  | Login u t r => login u t r st
  | Logout => logout st
  | UpdateUser upd => updateUser upd st
  | VerifyToken now => verifyToken now st
  | RestoreSession => restoreSession st
  end.

(** The state after a sequence of calls, whatever they answer. *)
Definition run (cs : list call) (st : state) : state :=
  fold_left (fun s c => fst (exec c s)) cs st.

Definition modelled {A} (o : outcome A) : Prop :=
  match o with Unmodelled => False | _ => True end.

(** The states a sequence of calls leads to from the empty session. *)
Inductive reachable : state -> Prop :=
| reach_initial : reachable initial
| reach_call st c :
    reachable st -> modelled (snd (exec c st)) -> reachable (fst (exec c st)).

(** A call that respects the contract of [login]: it is made after a
    successful sign-in, with the user and the token that came back. *)
Definition well_called (c : call) : Prop :=
  match c with
  | Login u t _ => u <> None /\ t <> None
  | _ => True
  end.

Inductive reachable_well_called : state -> Prop :=
| reachw_initial : reachable_well_called initial
| reachw_call st c :
    reachable_well_called st -> well_called c ->
    modelled (snd (exec c st)) -> reachable_well_called (fst (exec c st)).

Definition is_set {A} (x : option A) : bool :=
  match x with Some _ => true | None => false end.

(** The flag agrees with "user is set and token is set". *)
Definition flag_consistent (s : session) : Prop :=
  isAuthenticated s = is_set (user s) && is_set (token s).

End SessionManager.

(* ================================================================== *)
(** ** [SessionProvider] (session.jsx) *)
(* ================================================================== *)

Module SessionProvider.

(** The four [useState] cells. *)
Record state : Type := {
  user : option object;
  token : option jsstring;
  loading : bool;
  isAuthenticated : bool
}.

(** The effect on [[user, token]]: [setIsAuthenticated(!!(user && token))]. *)
Definition derived_isAuthenticated (u : option object) (t : option jsstring)
    : bool :=
  SessionManager.is_set u && SessionManager.token_truthy t.

(** [decoded.exp > Date.now()], [false] when anything raises. *)
Definition verifyStoredToken (tok : jsstring) (now : Z) : outcome bool :=
  try_catch
    (decoded <- Token.decode tok ;;
     exp <- get_field decoded (js "exp") ;;
     js_gt exp now)
    (fun _ => Ret false).

Definition clearSession (st : state) : state :=
  {| user := None; token := None; loading := loading st;
     isAuthenticated := false |}.

(** [finally { setLoading(false) }] *)
Definition setLoadingFalse (st : state) : state :=
  {| user := user st; token := token st; loading := false;
     isAuthenticated := isAuthenticated st |}.

(** [initializeSession], with the stored token and user passed in; the
    state is the one the component settles in, after the effect on
    [[user, token]] has run. *)
Definition initializeSession (storedToken : option jsstring)
    (storedUser : option object) (now : Z) (st : state) : outcome state :=
  match storedToken, storedUser with
  | Some (c :: t), Some u =>
      isValid <- verifyStoredToken (c :: t) now ;;
      Ret (setLoadingFalse
             (if isValid
              then {| user := Some u; token := Some (c :: t);
                      loading := loading st;
                      isAuthenticated :=
                        derived_isAuthenticated (Some u) (Some (c :: t)) |}
              else clearSession st))
  | _, _ => Ret (setLoadingFalse st)
  end.

(** [hasPermission], asked with a string.  [user.permissions.includes]
    is the array method on an array and the substring test on a string;
    any other truthy value has no such method, and the call raises. *)
Definition hasPermission (permission : jsstring) (st : state) : outcome bool :=
  match user st with
  | None => Ret false
  | Some u =>
      permissions <- get_field (VObj u) (js "permissions") ;;
      present <- truthy permissions ;;
      if present then
        match permissions with
        | VArr items => Ret (array_includes items permission)
        | VStr s => Ret (string_includes s permission)
        | _ => Throw TypeError
        end
      else Ret false
  end.

(** [hasRole], asked with a string: [user.role === role]. *)
Definition hasRole (role : jsstring) (st : state) : outcome bool :=
  match user st with
  | None => Ret false
  | Some u =>
      r <- get_field (VObj u) (js "role") ;;
      present <- truthy r ;;
      if present then
        Ret (match r with VStr s => jsstring_eqb s role | _ => false end)
      else Ret false
  end.

End SessionProvider.

(* ================================================================== *)
(** ** Regular expressions: the address pattern of the two forms *)
(* ================================================================== *)

Module Regex.

(** The fragment the source uses: classes of code units, sequence and
    [+]; [Alt], [Eps], [Empty] and [Star] are what derivatives need. *)
Inductive regex : Type :=
| Empty
| Eps
| Class (p : N -> bool)
| Cat (r1 r2 : regex)
| Alt (r1 r2 : regex)
| Star (r : regex).

Definition Plus (r : regex) : regex := Cat r (Star r).

Fixpoint nullable (r : regex) : bool :=
  match r with
  | Empty => false
  | Eps => true
  | Class _ => false
  | Cat r1 r2 => nullable r1 && nullable r2
  | Alt r1 r2 => nullable r1 || nullable r2
  | Star _ => true
  end.

Fixpoint deriv (c : N) (r : regex) : regex :=
  match r with
  | Empty => Empty
  | Eps => Empty
  | Class p => if p c then Eps else Empty
  | Cat r1 r2 =>
      if nullable r1 then Alt (Cat (deriv c r1) r2) (deriv c r2)
      else Cat (deriv c r1) r2
  | Alt r1 r2 => Alt (deriv c r1) (deriv c r2)
  | Star r1 => Cat (deriv c r1) (Star r1)
  end.

(** [/^r$/.test(s)]: the whole string, code unit by code unit. *)
Fixpoint test (r : regex) (s : jsstring) : bool :=
  match s with
  | [] => nullable r
  | c :: s' => test (deriv c r) s'
  end.

(** The strings a pattern denotes. *)
Inductive lang : regex -> jsstring -> Prop :=
| lang_eps : lang Eps []
| lang_class p c : p c = true -> lang (Class p) [c]
| lang_cat r1 r2 s1 s2 : lang r1 s1 -> lang r2 s2 -> lang (Cat r1 r2) (s1 ++ s2)
| lang_alt_l r1 r2 s : lang r1 s -> lang (Alt r1 r2) s
| lang_alt_r r1 r2 s : lang r2 s -> lang (Alt r1 r2) s
| lang_star_nil r : lang (Star r) []
| lang_star_cons r s1 s2 : lang r s1 -> lang (Star r) s2 -> lang (Star r) (s1 ++ s2).

(** [\s]: WhiteSpace and LineTerminator. *)
Definition is_space (c : N) : bool :=
  ((9 <=? c) && (c <=? 13) || (c =? 32) || (c =? 160) || (c =? 5760)
   || (8192 <=? c) && (c <=? 8202) || (c =? 8232) || (c =? 8233)
   || (c =? 8239) || (c =? 8287) || (c =? 12288) || (c =? 65279))%N.

(** [[^\s@]] *)
Definition address_unit (c : N) : bool := negb (is_space c) && negb (c =? 64)%N.

(** [/^[^\s@]+@[^\s@]+\.[^\s@]+$/] *)
Definition email_pattern : regex :=
  Cat (Plus (Class address_unit))
      (Cat (Class (fun c => c =? 64)%N)
           (Cat (Plus (Class address_unit))
                (Cat (Class (fun c => c =? 46)%N)
                     (Plus (Class address_unit))))).

End Regex.

(* ================================================================== *)
(** ** The [Login] and [Register] forms (routes.jsx) *)
(* ================================================================== *)

Module Forms.

(** The [error], [success] and [loading] cells of a form.  [error] is
    [None] when [setError] was given [undefined]. *)
Record ui : Type := {
  error : option string;
  success : string;
  loading : bool
}.

(** What a form hands to [setTimeout]. *)
Inductive callback : Type :=
| OnLoginSuccess (result : AuthAPI.response)
| OnSwitchToLogin.

(** Where a handler leaves things: the cells, the timer it started with
    its delay, and how the [async] function completed. *)
Record settled : Type := {
  view : ui;
  timer : option (Z * callback);
  completion : outcome unit
}.

(** An early [return] after [setError(msg); setLoading(false)]. *)
Definition rejected (msg : string) : settled :=
  {| view := {| error := Some msg; success := EmptyString; loading := false |};
     timer := None; completion := Ret tt |}.

(** [!s] on a string. *)
Definition blank (s : jsstring) : bool :=
  match s with [] => true | _ :: _ => false end.

(** [validateEmail], the same in both forms. *)
Definition validateEmail (email : jsstring) : bool :=
  Regex.test Regex.email_pattern email.

(** [handleLogin].  [formData] is the object given to [authAPI.login];
    when that call raises, nothing after the [await] runs. *)
Definition handleLogin (store : list AuthAPI.identity)
    (formData : AuthAPI.credentials) (now : Z) : settled :=
  if blank (AuthAPI.cred_email formData) || blank (AuthAPI.cred_password formData)
  then rejected "Email and password are required"
  else if negb (validateEmail (AuthAPI.cred_email formData))
  then rejected "Please enter a valid email address"
  else
    match AuthAPI.login store formData now with
    | Ret result =>
        if AuthAPI.success result then
          {| view := {| error := Some EmptyString;
                        success := "Login successful! Redirecting...";
                        loading := false |};
             timer := Some (500, OnLoginSuccess result);
             completion := Ret tt |}
        else
          {| view := {| error := AuthAPI.message result; success := EmptyString;
                        loading := false |};
             timer := None; completion := Ret tt |}
    | Throw e =>
        {| view := {| error := Some EmptyString; success := EmptyString;
                      loading := true |};
           timer := None; completion := Throw e |}
    | Unmodelled =>
        {| view := {| error := Some EmptyString; success := EmptyString;
                      loading := true |};
           timer := None; completion := Unmodelled |}
    end.

(** The four fields of the registration form. *)
Record registration : Type := {
  username : jsstring;
  email : jsstring;
  password : jsstring;
  confirmPassword : jsstring
}.

(** What [authAPI.register] reads of the form. *)
Definition as_candidate (formData : registration) : AuthAPI.candidate :=
  {| AuthAPI.cand_username := username formData;
     AuthAPI.cand_email := email formData;
     AuthAPI.cand_password := password formData |}.

(** [handleRegister], with the store it leaves. *)
Definition handleRegister (store : list AuthAPI.identity)
    (formData : registration) (now_id now_created : Z)
    : list AuthAPI.identity * settled :=
  if blank (username formData) || blank (email formData)
     || blank (password formData) || blank (confirmPassword formData)
  then (store, rejected "All fields are required")
  else if (Z.of_nat (List.length (username formData)) <? 3)
  then (store, rejected "Username must be at least 3 characters long")
  else if negb (validateEmail (email formData))
  then (store, rejected "Please enter a valid email address")
  else if (Z.of_nat (List.length (password formData)) <? 6)
  then (store, rejected "Password must be at least 6 characters long")
  else if negb (jsstring_eqb (password formData) (confirmPassword formData))
  then (store, rejected "Passwords do not match")
  else
    let (store', result) :=
      AuthAPI.register store (as_candidate formData) now_id now_created in
    if AuthAPI.success result then
      (store',
       {| view := {| error := Some EmptyString;
                     success := "Registration successful! Redirecting to login...";
                     loading := false |};
          timer := Some (2000, OnSwitchToLogin);
          completion := Ret tt |})
    else
      (store',
       {| view := {| error := AuthAPI.message result; success := EmptyString;
                     loading := false |};
          timer := None; completion := Ret tt |}).

(** A form that passes every test of [handleRegister]; the fields are
    then not empty either. *)
Definition well_filled (formData : registration) : Prop :=
  (3 <= List.length (username formData))%nat
  /\ validateEmail (email formData) = true
  /\ (6 <= List.length (password formData))%nat
  /\ password formData = confirmPassword formData.

(** What the registration form asks of an account. *)
Definition acceptable (u : AuthAPI.identity) : Prop :=
  (3 <= List.length (AuthAPI.username u))%nat
  /\ validateEmail (AuthAPI.email u) = true
  /\ (6 <= List.length (AuthAPI.password u))%nat.

End Forms.

(* ================================================================== *)
(** ** [Routes] and [Dashboard] (routes.jsx) *)
(* ================================================================== *)

Module Routes.

(** The [useState] cells of [Routes]; [None] is [null] or [undefined]. *)
Record state : Type := {
  currentRoute : string;
  user : option AuthAPI.public_user;
  authToken : option jsstring;
  loading : bool
}.

Definition initial : state :=
  {| currentRoute := "login"; user := None; authToken := None;
     loading := false |}.

Definition handleLoginSuccess (result : AuthAPI.response) (st : state) : state :=
  {| currentRoute := "dashboard"; user := AuthAPI.user result;
     authToken := AuthAPI.token result; loading := loading st |}.

Definition handleLogout (st : state) : state :=
  {| currentRoute := "login"; user := None; authToken := None;
     loading := loading st |}.

Definition switchToLogin (st : state) : state :=
  {| currentRoute := "login"; user := user st; authToken := authToken st;
     loading := loading st |}.

Definition switchToRegister (st : state) : state :=
  {| currentRoute := "register"; user := user st; authToken := authToken st;
     loading := loading st |}.

(** What is on the screen; the dashboard shows the name, the address
    and the id. *)
Inductive screen : Type :=
| LoadingScreen
| LoginScreen
| RegisterScreen
| DashboardScreen (username email : jsstring) (id : Z).

(** [Dashboard]: [user.username] is read first. *)
Definition Dashboard (user : option AuthAPI.public_user) : outcome screen :=
  match user with
  | None => Throw TypeError
  | Some u =>
      Ret (DashboardScreen (AuthAPI.pub_username u) (AuthAPI.pub_email u)
             (AuthAPI.pub_id u))
  end.

(** The body of [Routes] after the handlers. *)
Definition render (st : state) : outcome screen :=
  if loading st then Ret LoadingScreen
  else if String.eqb (currentRoute st) "login" then Ret LoginScreen
  else if String.eqb (currentRoute st) "register" then Ret RegisterScreen
  else if String.eqb (currentRoute st) "dashboard" then Dashboard (user st)
  else Ret LoginScreen.

(** The page as a whole: the cells of [Routes], [authAPI.mockUsers] and
    the timers that have not fired yet. *)
Record app : Type := {
  routes : state;
  store : list AuthAPI.identity;
  timers : list Forms.callback
}.

Definition start : app :=
  {| routes := initial; store := AuthAPI.mockUsers; timers := [] |}.

Definition schedule (s : Forms.settled) (ts : list Forms.callback)
    : list Forms.callback :=
  match Forms.timer s with
  | Some (_, cb) => ts ++ [cb]
  | None => ts
  end.

Definition fire (cb : Forms.callback) (st : state) : state :=
  match cb with
  | Forms.OnLoginSuccess result => handleLoginSuccess result st
  | Forms.OnSwitchToLogin => switchToLogin st
  end.

(** One thing happening to the page.  A handler is a closure that
    outlives the screen that made it, and a form keeps running after an
    [await] whatever is shown by then, so no step asks which screen is
    up. *)
Inductive step : app -> app -> Prop :=
| step_login a formData now :
    step a {| routes := routes a; store := store a;
              timers := schedule (Forms.handleLogin (store a) formData now)
                                 (timers a) |}
| step_register a formData now_id now_created :
    step a {| routes := routes a;
              store := fst (Forms.handleRegister (store a) formData
                              now_id now_created);
              timers := schedule (snd (Forms.handleRegister (store a) formData
                                         now_id now_created))
                                 (timers a) |}
| step_fire a before cb after :
    timers a = before ++ cb :: after ->
    step a {| routes := fire cb (routes a); store := store a;
              timers := before ++ after |}
| step_logout a :
    step a {| routes := handleLogout (routes a); store := store a;
              timers := timers a |}
| step_to_login a :
    step a {| routes := switchToLogin (routes a); store := store a;
              timers := timers a |}
| step_to_register a :
    step a {| routes := switchToRegister (routes a); store := store a;
              timers := timers a |}.

Inductive reachable : app -> Prop :=
| reach_start : reachable start
| reach_step a b : reachable a -> step a b -> reachable b.

(** A user and a token that belong together: the public part of a
    stored identity and a token that carries its id and address. *)
Definition signed_in (store : list AuthAPI.identity)
    (user : option AuthAPI.public_user) (authToken : option jsstring) : Prop :=
  exists u tok exp,
    In u store
    /\ user = Some (AuthAPI.without_password u)
    /\ authToken = Some tok
    /\ Token.decode tok
       = Ret (Token.payload (AuthAPI.id u) (AuthAPI.email u) exp).

Definition well_formed_callback (store : list AuthAPI.identity)
    (cb : Forms.callback) : Prop :=
  match cb with
  | Forms.OnLoginSuccess result =>
      signed_in store (AuthAPI.user result) (AuthAPI.token result)
  | Forms.OnSwitchToLogin => True
  end.

(** What every step keeps. *)
Definition consistent (a : app) : Prop :=
  loading (routes a) = false
  /\ In (currentRoute (routes a)) ["login"; "register"; "dashboard"]%string
  /\ ((user (routes a) = None /\ authToken (routes a) = None)
      \/ signed_in (store a) (user (routes a)) (authToken (routes a)))
  /\ (currentRoute (routes a) = "dashboard"%string -> user (routes a) <> None)
  /\ Forall (well_formed_callback (store a)) (timers a).

End Routes.

(* ================================================================== *)
(** ** The stores [authAPI.register] can lead to *)
(* ================================================================== *)

Module AuthStore.

Inductive reachable : list AuthAPI.identity -> Prop :=
| reach_seed : reachable AuthAPI.mockUsers
| reach_register store userData now_id now_created :
    reachable store ->
    reachable (fst (AuthAPI.register store userData now_id now_created)).

End AuthStore.

(* ================================================================== *)
(** ** [render404] (render404.js) *)
(* ================================================================== *)

Module Render404.

(** What [fetch] settles to: a rejection, or a response with its [ok]
    flag and the text of its body. *)
Inductive fetched : Type :=
| NetworkError
| Response (ok : bool) (body : jsstring).

(** ToString, as a template literal applies it to a substitution.  An
    integer that a double holds exactly (up to [2^53] in size) prints in
    decimal.  An object prints as [[object Object]] unless its
    conversion raises; an array is joined from its elements, and what
    it or another number prints as is not modelled, except that the
    conversion raises when that of an element does. *)
Definition to_string (v : value) : outcome jsstring :=
  match v with
  | VUndefined => Ret (js "undefined")
  | VNull => Ret (js "null")
  | VBool true => Ret (js "true")
  | VBool false => Ret (js "false")
  | VNum z =>
      if Z.abs z <=? 2 ^ 53 then Ret (Json.number_text z) else Unmodelled
  | VStr s => Ret s
  | VObj _ =>
      if conversion_raises v then Throw TypeError
      else Ret (js "[object Object]")
  | VArr _ => if conversion_raises v then Throw TypeError else Unmodelled
  | VFrac _ => Unmodelled
  end.

(** [${v || d}] *)
Definition or_else (v : value) (d : jsstring) : outcome jsstring :=
  chosen <- truthy v ;;
  if chosen then to_string v else Ret d.

(** One line of a template: the line break, the indentation, the text. *)
Definition line (indent : nat) (text : jsstring) : jsstring :=
  10%N :: repeat 32%N indent ++ text.

Definition quoted (s : string) : jsstring := 34%N :: js s ++ [34%N].

(** [`Page "${pageName}" does not exist.`] *)
Definition missing_page (pageName : jsstring) : jsstring :=
  js "Page " ++ 34%N :: pageName ++ 34%N :: js " does not exist.".

(** [${data.button ? `...` : ""}] *)
Definition button_markup (data : value) : outcome jsstring :=
  button <- get_field data (js "button") ;;
  present <- truthy button ;;
  if present then
    href <- get_field button (js "href") ;;
    href_text <- to_string href ;;
    label <- get_field button (js "label") ;;
    label_text <- to_string label ;;
    Ret (line 16 (js "<a class=" ++ quoted "page-404-btn" ++ js " href="
                  ++ 34%N :: href_text ++ 34%N :: js ">")
         ++ line 18 label_text
         ++ line 16 (js "</a>")
         ++ line 14 [])
  else Ret [].

(** The template of the [try] block around its five substitutions. *)
Definition template (code title subtitle description button : jsstring)
    : jsstring :=
  line 6 (js "<div class=" ++ quoted "page-404" ++ js ">")
  ++ line 8 (js "<div class=" ++ quoted "page-404-inner" ++ js ">")
  ++ line 10 (js "<div class=" ++ quoted "page-404-code" ++ js ">"
              ++ code ++ js "</div>")
  ++ line 0 []
  ++ line 10 (js "<h1 class=" ++ quoted "page-404-title" ++ js ">")
  ++ line 12 title
  ++ line 10 (js "</h1>")
  ++ line 0 []
  ++ line 10 (js "<p class=" ++ quoted "page-404-subtitle" ++ js ">")
  ++ line 12 subtitle
  ++ line 10 (js "</p>")
  ++ line 0 []
  ++ line 10 (js "<p class=" ++ quoted "page-404-description" ++ js ">")
  ++ line 12 description
  ++ line 10 (js "</p>")
  ++ line 0 []
  ++ line 10 button
  ++ line 8 (js "</div>")
  ++ line 6 (js "</div>")
  ++ line 4 [].

(** The substitutions are evaluated and converted from first to last. *)
Definition page_markup (data : value) (pageName : jsstring) : outcome jsstring :=
  code <- get_field data (js "code") ;;
  code_text <- or_else code (js "404") ;;
  title <- get_field data (js "title") ;;
  title_text <- or_else title (js "Page not found") ;;
  subtitle <- get_field data (js "subtitle") ;;
  subtitle_text <- or_else subtitle (missing_page pageName) ;;
  description <- get_field data (js "description") ;;
  description_text <- or_else description [] ;;
  button_text <- button_markup data ;;
  Ret (template code_text title_text subtitle_text description_text button_text).

(** [v.k], [undefined] where [v] has no such property or is itself
    [null] or [undefined]. *)
Definition read (v : value) (k : jsstring) : value :=
  match get_field v k with
  | Ret x => x
  | _ => VUndefined
  end.

(** The values the template may hand to ToString, first to last.  One
    whose conversion raises is an object or an array, hence truthy, and
    [data.button] is then truthy too, so it is converted. *)
Definition substituted (data : value) : list value :=
  [read data (js "code"); read data (js "title"); read data (js "subtitle");
   read data (js "description");
   read (read data (js "button")) (js "href");
   read (read data (js "button")) (js "label")].

(** The markup of the [catch] block. *)
Definition fallback_markup : jsstring :=
  line 6 (js "<h1>404</h1>") ++ line 6 (js "<p>Page not found.</p>") ++ line 4 [].

(** [render404(container, pageName)], [container] telling whether an
    element was passed: the result is what is assigned to its
    [innerHTML], [None] when nothing is.  A rejection of [fetch] and
    the error thrown for a response that is not [ok] both end in the
    [catch] block, as does anything raised later in the [try] block;
    [res.json()] is [JSON.parse] of the body text. *)
Definition render404 (container : bool) (pageName : jsstring)
    (res : fetched) : outcome (option jsstring) :=
  if container then
    match res with
    | NetworkError => Ret (Some fallback_markup)
    | Response false _ => Ret (Some fallback_markup)
    | Response true body =>
        try_catch
          (data <- Json.JSON_parse body ;;
           markup <- page_markup data pageName ;;
           Ret (Some markup))
          (fun _ => Ret (Some fallback_markup))
    end
  else Ret None.

End Render404.

(* ================================================================== *)
(** ** Sample data *)
(* ================================================================== *)

(** The demo identity as the object [authAPI.login] hands back. *)
Definition demo_user : object :=
  [(js "id", VNum 1); (js "username", VStr (js "demo"));
   (js "email", VStr (js "demo@example.com"))].

Definition demo_identity : AuthAPI.identity :=
  {| AuthAPI.id := 1; AuthAPI.username := js "demo";
     AuthAPI.email := js "demo@example.com"; AuthAPI.password := js "demo123";
     AuthAPI.createdAt := None |}.

(** A token for the demo identity that expires at [exp]. *)
Definition demo_token (exp : Z) : jsstring :=
  match Token.encode 1 (js "demo@example.com") exp with
  | Ret t => t
  | _ => []
  end.

(** What [demo_token exp] decodes to. *)
Definition demo_payload (exp : Z) : value :=
  Token.payload 1 (js "demo@example.com") exp.

(** A session holding the demo identity and the token [tok]. *)
Definition demo_session (tok : jsstring) : SessionManager.state :=
  fst (SessionManager.login (Some demo_user) (Some tok) false
         SessionManager.initial).

(** Sign in, check the token while it is good, rename the user, check
    again after the expiry. *)
Definition demo_run : SessionManager.state :=
  SessionManager.run
    [SessionManager.Login (Some demo_user) (Some (demo_token 3000)) true;
     SessionManager.VerifyToken 2000;
     SessionManager.UpdateUser (Some [(js "username", VStr (js "demo2"))]);
     SessionManager.RestoreSession;
     SessionManager.VerifyToken 4000]
    SessionManager.initial.




(** The body [{"code":{"toString":0}}] of a 404.json whose code cannot
    be converted to a string. *)
Definition unconvertible_code_body : jsstring :=
  js "{" ++ Json.quote (js "code") ++ js ":{" ++ Json.quote (js "toString")
  ++ js ":0}}".

Definition new_candidate : AuthAPI.candidate :=
  {| AuthAPI.cand_username := js "ada"; AuthAPI.cand_email := js "ada@example.com";
     AuthAPI.cand_password := js "secret1" |}.

Definition demo_candidate : AuthAPI.candidate :=
  {| AuthAPI.cand_username := js "other"; AuthAPI.cand_email := js "demo@example.com";
     AuthAPI.cand_password := js "secret2" |}.

(** An address with a Cyrillic letter: [U+0436 @ x . y z]. *)
Definition cyrillic_email : jsstring := [1078%N; 64%N; 120%N; 46%N; 121%N; 122%N].

Definition cyrillic_candidate : AuthAPI.candidate :=
  {| AuthAPI.cand_username := js "zhenya"; AuthAPI.cand_email := cyrillic_email;
     AuthAPI.cand_password := js "secret1" |}.

(** The registration form filled in with the Cyrillic address. *)
Definition cyrillic_form : Forms.registration :=
  {| Forms.username := js "zhenya"; Forms.email := cyrillic_email;
     Forms.password := js "secret1"; Forms.confirmPassword := js "secret1" |}.

Definition cyrillic_credentials : AuthAPI.credentials :=
  {| AuthAPI.cred_email := cyrillic_email; AuthAPI.cred_password := js "secret1" |}.

Definition demo_credentials : AuthAPI.credentials :=
  {| AuthAPI.cred_email := js "demo@example.com";
     AuthAPI.cred_password := js "demo123" |}.

(** What [authAPI.login] answers to the demo credentials at [now]. *)
Definition demo_response (now : Z) : AuthAPI.response :=
  {| AuthAPI.success := true;
     AuthAPI.message := Some "Login successful"%string;
     AuthAPI.token := Some (demo_token (now + 86400000));
     AuthAPI.user := Some (AuthAPI.without_password demo_identity) |}.

(** The page after the demo user has signed in at instant 1000 and the
    redirect timer has fired. *)
Definition page_on_dashboard : Routes.app :=
  {| Routes.routes := Routes.handleLoginSuccess (demo_response 1000) Routes.initial;
     Routes.store := AuthAPI.mockUsers;
     Routes.timers := [] |}.

(** The registration form filled in for a new account. *)
Definition new_form : Forms.registration :=
  {| Forms.username := js "ada"; Forms.email := js "ada@example.com";
     Forms.password := js "secret1"; Forms.confirmPassword := js "secret1" |}.

(** The page after that form has been sent. *)
Definition page_after_registration : Routes.app :=
  {| Routes.routes := Routes.initial;
     Routes.store := fst (Forms.handleRegister AuthAPI.mockUsers new_form 7 8);
     Routes.timers := [Forms.OnSwitchToLogin] |}.

(* ================================================================== *)
(** * Properties                                                       *)
(* ================================================================== *)

Ltac div_lia := zify; Z.to_euclidean_division_equations; lia.

Ltac decide_tests :=
  repeat match goal with
         | |- context [N.leb ?a ?b] => destruct (N.leb_spec a b); try lia
         | |- context [N.ltb ?a ?b] => destruct (N.ltb_spec a b); try lia
         | |- context [N.eqb ?a ?b] => destruct (N.eqb_spec a b); try lia
         end.

Example atob_demo : Base64.atob (js "bnVsbA==") = Ret (js "null").
Proof. vm_compute. reflexivity. Qed.

Example btoa_demo : Base64.btoa (js "{}") = Ret (js "e30=").
Proof. vm_compute. reflexivity. Qed.

Example parse_demo :
  Json.JSON_parse (js "{" ++ Json.quote (js "a") ++ js ": [1, -20, true, null], "
                   ++ Json.quote (js "b") ++ js ":{} ,"
                   ++ Json.quote (js "a") ++ js ":1.5e3}")
  = Ret (VObj [(js "a", VFrac (js "1.5e3")); (js "b", VObj [])]).
Proof. vm_compute. reflexivity. Qed.

(** ** The outcome monad and the primitives *)

(** ToNumber raises exactly on the values whose conversion to a
    primitive does, and then for every operator alike. *)
Lemma to_number_Throw (v : value) (e : error) :
  to_number v = Throw e <-> conversion_raises v = true /\ e = TypeError.
Proof.
  destruct v; cbn [to_number]; try (split; [discriminate | intros [H _]; discriminate H]).
  - destruct (conversion_raises (VArr items)); split; try discriminate.
    + intros H. injection H as <-. auto.
    + intros [_ ->]. reflexivity.
    + intros [H _]. discriminate H.
  - destruct (conversion_raises (VObj fields)); split; try discriminate.
    + intros H. injection H as <-. auto.
    + intros [_ ->]. reflexivity.
    + intros [H _]. discriminate H.
Qed.

Lemma js_lt_Throw (v : value) (n : Z) (e : error) :
  js_lt v n = Throw e <-> conversion_raises v = true /\ e = TypeError.
Proof.
  rewrite <- to_number_Throw. unfold js_lt.
  destruct (to_number v) as [x | e' | ]; cbn [bind]; split; intros H;
    try discriminate H; injection H as ->; reflexivity.
Qed.

Lemma js_gt_Throw (v : value) (n : Z) (e : error) :
  js_gt v n = Throw e <-> conversion_raises v = true /\ e = TypeError.
Proof.
  rewrite <- to_number_Throw. unfold js_gt.
  destruct (to_number v) as [x | e' | ]; cbn [bind]; split; intros H;
    try discriminate H; injection H as ->; reflexivity.
Qed.

Lemma js_lt_num (z n : Z) : js_lt (VNum z) n = Ret (z <? n).
Proof. reflexivity. Qed.

Lemma js_gt_num (z n : Z) : js_gt (VNum z) n = Ret (n <? z).
Proof. reflexivity. Qed.

Lemma get_field_throw_inv (v : value) (k : jsstring) (e : error) :
  get_field v k = Throw e -> v = VNull \/ v = VUndefined.
Proof. destruct v; simpl; intros H; try discriminate; auto. Qed.

(** [Math.floor(x / 1000 / 60)] is the floor of [x / 60000]. *)
Lemma floor_div_1000_60_Int (z : Z) :
  floor_div_1000_60 (Int z) = Int (z / 60000).
Proof.
  unfold floor_div_1000_60. f_equal.
  unfold Qfloor, Qdiv, Qmult, Qinv, inject_Z; simpl.
  rewrite !Z.mul_1_r. reflexivity.
Qed.

Lemma jsstring_eqb_eq (a b : jsstring) : jsstring_eqb a b = true <-> a = b.
Proof.
  unfold jsstring_eqb. destruct (list_eq_dec N.eq_dec a b) as [E | E].
  - split; auto.
  - split; [discriminate | contradiction].
Qed.

Lemma jsstring_eqb_refl (a : jsstring) : jsstring_eqb a a = true.
Proof. apply jsstring_eqb_eq. reflexivity. Qed.

(** ** [atob] undoes [btoa] *)

Module Base64Facts.
Import Base64.
Local Open Scope N_scope.

Lemma list_ind3 {A} (P : list A -> Prop) :
  P [] -> (forall a, P [a]) -> (forall a b, P [a; b]) ->
  (forall a b c l, P l -> P (a :: b :: c :: l)) ->
  forall l, P l.
Proof.
  intros H0 H1 H2 H3.
  assert (H : forall l, P l /\ (forall a, P (a :: l))
                        /\ (forall a b, P (a :: b :: l))).
  { induction l as [ | x l [IH0 [IH1 IH2]]].
    - auto.
    - split; [apply IH1 | split; [intros a; apply IH2 | ]].
      intros a b. apply H3. exact IH0. }
  intros l. apply (H l).
Qed.

Lemma encode_split s : encode s = map b64_char (sextets s) ++ padding s.
Proof.
  induction s as [ | a | a b | a b c l IH] using list_ind3; try reflexivity.
  change (encode (a :: b :: c :: l))
    with (b64_char (a / 4) :: b64_char ((a mod 4) * 16 + b / 16)
          :: b64_char ((b mod 16) * 4 + c / 64) :: b64_char (c mod 64)
          :: encode l).
  rewrite IH. reflexivity.
Qed.

Lemma b64_value_char v : v < 64 -> b64_value (b64_char v) = Some v.
Proof.
  intros Hv. unfold b64_char.
  destruct (N.ltb_spec v 26); [ | destruct (N.ltb_spec v 52);
    [ | destruct (N.ltb_spec v 62); [ | destruct (N.eqb_spec v 62)]]];
    unfold b64_value; decide_tests; simpl; f_equal; lia.
Qed.

Lemma b64_char_plain v :
  v < 64 -> is_ascii_ws (b64_char v) = false /\ b64_char v <> pad.
Proof.
  intros Hv. unfold b64_char, is_ascii_ws, pad.
  destruct (N.ltb_spec v 26); [ | destruct (N.ltb_spec v 52);
    [ | destruct (N.ltb_spec v 62); [ | destruct (N.eqb_spec v 62)]]];
    (split; [decide_tests; reflexivity | lia]).
Qed.

Lemma sextets_bounded s :
  Forall (fun c => c <= 255) s -> Forall (fun v => v < 64) (sextets s).
Proof.
  induction s as [ | a | a b | a b c l IH] using list_ind3; intros H.
  - constructor.
  - inversion H; subst. repeat constructor; div_lia.
  - inversion H as [ | ? ? Ha H']; subst. inversion H'; subst.
    repeat constructor; div_lia.
  - inversion H as [ | ? ? Ha H1]; subst.
    inversion H1 as [ | ? ? Hb H2]; subst.
    inversion H2 as [ | ? ? Hc H3]; subst.
    change (sextets (a :: b :: c :: l))
      with (a / 4 :: (a mod 4) * 16 + b / 16 :: (b mod 16) * 4 + c / 64
            :: c mod 64 :: sextets l).
    repeat (constructor; [div_lia | ]). apply IH. exact H3.
Qed.

Lemma decode_sextets s :
  Forall (fun c => c <= 255) s -> decode (sextets s) = s.
Proof.
  induction s as [ | a | a b | a b c l IH] using list_ind3; intros H.
  - reflexivity.
  - inversion H; subst. simpl. f_equal. div_lia.
  - inversion H as [ | ? ? Ha H']; subst. inversion H'; subst.
    simpl. f_equal; [div_lia | f_equal; div_lia].
  - inversion H as [ | ? ? Ha H1]; subst.
    inversion H1 as [ | ? ? Hb H2]; subst.
    inversion H2 as [ | ? ? Hc H3]; subst.
    change (decode (sextets (a :: b :: c :: l)))
      with ((a / 4 * 4 + ((a mod 4) * 16 + b / 16) / 16)
            :: ((((a mod 4) * 16 + b / 16) mod 16) * 16
                + ((b mod 16) * 4 + c / 64) / 4)
            :: ((((b mod 16) * 4 + c / 64) mod 4) * 64 + c mod 64)
            :: decode (sextets l)).
    rewrite (IH H3). f_equal; [div_lia | f_equal; [div_lia | f_equal; div_lia]].
Qed.

Lemma values_chars vs :
  Forall (fun v => v < 64) vs -> values (map b64_char vs) = Some vs.
Proof.
  induction 1 as [ | v vs Hv _ IH]; simpl; [reflexivity | ].
  rewrite (b64_value_char v Hv), IH. reflexivity.
Qed.

Lemma filter_chars vs :
  Forall (fun v => v < 64) vs ->
  filter (fun c => negb (is_ascii_ws c)) (map b64_char vs) = map b64_char vs.
Proof.
  induction 1 as [ | v vs Hv _ IH]; simpl; [reflexivity | ].
  rewrite (proj1 (b64_char_plain v Hv)). simpl. rewrite IH. reflexivity.
Qed.

(** The lengths: a body of [4k], [4k+2] or [4k+3] characters, padded to
    a multiple of four. *)
Lemma lengths s :
  Nat.modulo (List.length (sextets s) + List.length (padding s)) 4 = 0%nat
  /\ Nat.modulo (List.length (sextets s)) 4 <> 1%nat
  /\ (padding s = [] \/ padding s = [pad] \/ padding s = [pad; pad]).
Proof.
  induction s as [ | a | a b | a b c l IH] using list_ind3.
  - simpl. auto.
  - simpl. split; [reflexivity | split; [discriminate | auto]].
  - simpl. split; [reflexivity | split; [discriminate | auto]].
  - destruct IH as [IH1 [IH2 IH3]].
    change (sextets (a :: b :: c :: l))
      with (a / 4 :: (a mod 4) * 16 + b / 16 :: (b mod 16) * 4 + c / 64
            :: c mod 64 :: sextets l).
    change (padding (a :: b :: c :: l)) with (padding l).
    cbn [List.length].
    split; [ | split; [ | exact IH3]].
    + replace (S (S (S (S (List.length (sextets l))))) + List.length (padding l))%nat
        with (List.length (sextets l) + List.length (padding l) + 1 * 4)%nat by lia.
      rewrite Nat.Div0.mod_add. exact IH1.
    + replace (S (S (S (S (List.length (sextets l))))))
        with (List.length (sextets l) + 1 * 4)%nat by lia.
      rewrite Nat.Div0.mod_add. exact IH2.
Qed.

Lemma strip_padding_body body p :
  Forall (fun c => c <> pad) body ->
  Nat.modulo (List.length body + List.length p) 4 = 0%nat ->
  p = [] \/ p = [pad] \/ p = [pad; pad] ->
  strip_padding (body ++ p) = body.
Proof.
  intros Hb Hlen Hp. unfold strip_padding.
  rewrite length_app, Hlen. simpl. rewrite List.rev_app_distr.
  assert (Hrev : Forall (fun c => c <> pad) (rev body)).
  { apply Forall_forall. intros c Hc. apply in_rev in Hc.
    revert c Hc. apply Forall_forall. exact Hb. }
  destruct Hp as [-> | [-> | ->]]; simpl.
  - rewrite List.app_nil_r.
    destruct (rev body) as [ | c1 [ | c2 r]] eqn:E; try reflexivity.
    inversion Hrev; subst.
    destruct (N.eqb_spec c1 pad); [contradiction | reflexivity].
  - destruct (rev body) as [ | c2 r] eqn:E.
    + assert (body = []) by (rewrite <- (List.rev_involutive body), E; reflexivity).
      subst body. simpl in Hlen. discriminate Hlen.
    + inversion Hrev; subst.
      destruct (N.eqb_spec c2 pad); [contradiction | ].
      change (rev r ++ [c2]) with (rev (c2 :: r)).
      rewrite <- E. apply List.rev_involutive.
  - apply List.rev_involutive.
Qed.

Lemma chars_not_pad vs :
  Forall (fun v => v < 64) vs -> Forall (fun c => c <> pad) (map b64_char vs).
Proof.
  induction 1 as [ | v vs Hv _ IH]; simpl; constructor; [ | exact IH].
  apply (b64_char_plain v Hv).
Qed.

Lemma padding_plain s :
  filter (fun c => negb (is_ascii_ws c)) (padding s) = padding s.
Proof.
  destruct (lengths s) as [_ [_ [-> | [-> | ->]]]]; reflexivity.
Qed.

Theorem atob_encode s :
  Forall (fun c => c <= 255) s -> atob (encode s) = Ret s.
Proof.
  intros Hs. pose proof (sextets_bounded s Hs) as Hv.
  destruct (lengths s) as [L1 [L2 L3]].
  unfold atob. rewrite encode_split, filter_app, (filter_chars _ Hv),
    padding_plain.
  rewrite strip_padding_body;
    [ | apply chars_not_pad; exact Hv | rewrite length_map; exact L1 | exact L3].
  rewrite length_map.
  destruct (Nat.eqb_spec (Nat.modulo (List.length (sextets s)) 4) 1);
    [contradiction | ].
  rewrite (values_chars _ Hv), (decode_sextets s Hs). reflexivity.
Qed.

Theorem atob_btoa s t : btoa s = Ret t -> atob t = Ret s.
Proof.
  unfold btoa. destruct (forallb (fun c => c <=? 255) s) eqn:F; [ | discriminate].
  intros H. injection H as <-. apply atob_encode.
  apply Forall_forall. intros c Hc.
  rewrite forallb_forall in F. apply N.leb_le. apply F. exact Hc.
Qed.

End Base64Facts.

(** ** [JSON.parse] undoes [JSON.stringify] on a token payload *)

Module JsonFacts.
Import Json.
Local Open Scope N_scope.

Lemma list_ind_pair {A} (P : list A -> Prop) :
  P [] -> (forall a, P [a]) ->
  (forall a b l, P l -> P (b :: l) -> P (a :: b :: l)) ->
  forall l, P l.
Proof.
  intros H0 H1 H2.
  assert (H : forall l, P l /\ forall a, P (a :: l)).
  { induction l as [ | x l [IH0 IH1]].
    - auto.
    - split; [apply IH1 | ]. intros a. apply H2; [exact IH0 | apply IH1]. }
  intros l. apply (H l).
Qed.

(** *** Strings *)

Lemma hex_value_digit v : v < 16 -> hex_value (hex_digit v) = Some v.
Proof.
  intros Hv. unfold hex_digit.
  destruct (N.ltb_spec v 10); unfold hex_value; decide_tests; simpl;
    f_equal; lia.
Qed.

Lemma option_map_app_nil {A} (o : option (list A)) :
  option_map (app []) o = o.
Proof. destruct o; reflexivity. Qed.

Lemma lex_step st c st' ts r :
  step st c = Some (st', ts) ->
  lex st (c :: r) = option_map (app ts) (lex st' r).
Proof. intros H. simpl. rewrite H. reflexivity. Qed.

(** A step that emits nothing. *)
Lemma lex_quiet st c st' r :
  step st c = Some (st', []) -> lex st (c :: r) = lex st' r.
Proof. intros H. rewrite (lex_step _ _ _ _ _ H). apply option_map_app_nil. Qed.

Lemma step_unicode acc k code v :
  v < 16 ->
  step (LUnicode acc k code) (hex_digit v)
  = if Nat.eqb k 3 then Some (LString ((code * 16 + v) :: acc), [])
    else Some (LUnicode acc (S k) (code * 16 + v), []).
Proof. intros Hv. simpl. rewrite (hex_value_digit v Hv). reflexivity. Qed.

Lemma lex_unicode_escape c acc rest :
  c < 65536 ->
  lex (LString acc) (unicode_escape c ++ rest) = lex (LString (c :: acc)) rest.
Proof.
  intros Hc. unfold unicode_escape. cbn [app].
  rewrite (lex_quiet (LString acc) 92 (LEscape acc)) by reflexivity.
  rewrite (lex_quiet (LEscape acc) 117 (LUnicode acc 0 0)) by reflexivity.
  rewrite (lex_quiet _ _ _ _ (step_unicode acc 0 0 (c / 4096) ltac:(div_lia))).
  cbn [Nat.eqb].
  rewrite (lex_quiet _ _ _ _ (step_unicode acc 1 _ ((c / 256) mod 16) ltac:(div_lia))).
  cbn [Nat.eqb].
  rewrite (lex_quiet _ _ _ _ (step_unicode acc 2 _ ((c / 16) mod 16) ltac:(div_lia))).
  cbn [Nat.eqb].
  rewrite (lex_quiet _ _ _ _ (step_unicode acc 3 _ (c mod 16) ltac:(div_lia))).
  cbn [Nat.eqb].
  replace ((((0 * 16 + c / 4096) * 16 + (c / 256) mod 16) * 16
            + (c / 16) mod 16) * 16 + c mod 16) with c by div_lia.
  reflexivity.
Qed.

(** A unit that [quote_body] writes as it is. *)
Lemma step_plain acc c :
  c <> 34 -> c <> 92 -> 32 <= c ->
  step (LString acc) c = Some (LString (c :: acc), []).
Proof. intros H1 H2 H3. simpl. decide_tests. reflexivity. Qed.

Ltac two_steps :=
  cbn [app];
  rewrite (lex_quiet (LString _) 92 (LEscape _)) by reflexivity;
  apply lex_quiet; reflexivity.

Lemma lex_escape_unit c acc rest :
  c < 65536 ->
  lex (LString acc) (escape_unit c ++ rest) = lex (LString (c :: acc)) rest.
Proof.
  intros Hc. unfold escape_unit.
  destruct (N.eqb_spec c 8) as [-> | N8]; [two_steps | ].
  destruct (N.eqb_spec c 9) as [-> | N9]; [two_steps | ].
  destruct (N.eqb_spec c 10) as [-> | N10]; [two_steps | ].
  destruct (N.eqb_spec c 12) as [-> | N12]; [two_steps | ].
  destruct (N.eqb_spec c 13) as [-> | N13]; [two_steps | ].
  destruct (N.eqb_spec c 34) as [-> | N34]; [two_steps | ].
  destruct (N.eqb_spec c 92) as [-> | N92]; [two_steps | ].
  destruct (N.ltb_spec c 32) as [L | L].
  - apply lex_unicode_escape. exact Hc.
  - cbn [app]. apply lex_quiet. apply step_plain; assumption.
Qed.

Lemma quote_body_cons c r :
  quote_body (c :: r)
  = if is_high_surrogate c then
      match r with
      | d :: r' =>
          if is_low_surrogate d then c :: d :: quote_body r'
          else unicode_escape c ++ quote_body r
      | [] => unicode_escape c
      end
    else if is_low_surrogate c then unicode_escape c ++ quote_body r
    else escape_unit c ++ quote_body r.
Proof. reflexivity. Qed.

(** The lexer reads back what [quote_body] wrote. *)
Lemma lex_quote_body s : forall acc rest,
  Forall (fun c => c < 65536) s ->
  lex (LString acc) (quote_body s ++ 34 :: rest)
  = option_map (cons (TString (rev acc ++ s))) (lex LDefault rest).
Proof.
  induction s as [ | a | a b l IHl IHbl] using list_ind_pair;
    intros acc rest Hs.
  - cbn [quote_body app].
    rewrite (lex_step (LString acc) 34 LDefault [TString (rev acc)])
      by reflexivity.
    rewrite List.app_nil_r. destruct (lex LDefault rest); reflexivity.
  - inversion Hs as [ | ? ? Ha _]; subst.
    assert (E : lex (LString acc) (quote_body [a] ++ 34 :: rest)
                = lex (LString (a :: acc)) (34 :: rest)).
    { cbn [quote_body].
      destruct (is_high_surrogate a); [apply lex_unicode_escape; exact Ha | ].
      destruct (is_low_surrogate a).
      - rewrite List.app_nil_r. apply lex_unicode_escape; exact Ha.
      - rewrite List.app_nil_r. apply lex_escape_unit; exact Ha. }
    rewrite E.
    rewrite (lex_step (LString (a :: acc)) 34 LDefault [TString (rev (a :: acc))])
      by reflexivity.
    destruct (lex LDefault rest); reflexivity.
  - inversion Hs as [ | ? ? Ha Hbl]; subst.
    inversion Hbl as [ | ? ? Hb Hl]; subst.
    rewrite (quote_body_cons a (b :: l)).
    destruct (is_high_surrogate a) eqn:Hh.
    + destruct (is_low_surrogate b) eqn:Hlo.
      * (* a pair, written as it is *)
        unfold is_high_surrogate in Hh. unfold is_low_surrogate in Hlo.
        apply andb_true_iff in Hh. destruct Hh as [Hh1 Hh2].
        apply andb_true_iff in Hlo. destruct Hlo as [Hl1 Hl2].
        apply N.leb_le in Hh1, Hh2, Hl1, Hl2.
        cbn [app].
        rewrite (lex_quiet _ _ _ _ (step_plain acc a ltac:(lia) ltac:(lia) ltac:(lia))).
        rewrite (lex_quiet _ _ _ _ (step_plain (a :: acc) b ltac:(lia) ltac:(lia) ltac:(lia))).
        rewrite (IHl (b :: a :: acc) rest Hl).
        cbn [rev]. rewrite <- !app_assoc. reflexivity.
      * rewrite <- app_assoc. rewrite (lex_unicode_escape a acc _ Ha).
        rewrite (IHbl (a :: acc) rest Hbl).
        cbn [rev]. rewrite <- app_assoc. reflexivity.
    + destruct (is_low_surrogate a).
      * rewrite <- app_assoc. rewrite (lex_unicode_escape a acc _ Ha).
        rewrite (IHbl (a :: acc) rest Hbl).
        cbn [rev]. rewrite <- app_assoc. reflexivity.
      * rewrite <- app_assoc. rewrite (lex_escape_unit a acc _ Ha).
        rewrite (IHbl (a :: acc) rest Hbl).
        cbn [rev]. rewrite <- app_assoc. reflexivity.
Qed.

Lemma lex_quote s rest :
  Forall (fun c => c < 65536) s ->
  lex LDefault (quote s ++ rest)
  = option_map (cons (TString s)) (lex LDefault rest).
Proof.
  intros Hs. unfold quote. cbn [app].
  rewrite (lex_quiet LDefault 34 (LString [])) by reflexivity.
  rewrite <- app_assoc. cbn [app].
  apply (lex_quote_body s [] rest Hs).
Qed.

(** *** Numerals *)

Lemma uint_chars_digits u : Forall (fun c => is_digit c = true) (uint_chars u).
Proof. induction u; simpl; constructor; auto. Qed.

Lemma chars_uint_chars u : chars_uint (uint_chars u) = u.
Proof. induction u; simpl; try rewrite IHu; reflexivity. Qed.

Lemma span_digits_all ds :
  Forall (fun c => is_digit c = true) ds -> span_digits ds = (ds, []).
Proof.
  induction 1 as [ | c ds Hc _ IH]; simpl; [reflexivity | ].
  rewrite Hc, IH. reflexivity.
Qed.

Lemma nzhead_not_D0 u u' : Decimal.nzhead u <> Decimal.D0 u'.
Proof. induction u; simpl; try discriminate. exact IHu. Qed.

Lemma int_part_ok_unorm u :
  Decimal.unorm u = u -> int_part_ok (uint_chars u) = true.
Proof.
  destruct u as [ | u | u | u | u | u | u | u | u | u | u]; intros H;
    try (simpl; destruct (uint_chars u); reflexivity).
  - discriminate H.
  - unfold Decimal.unorm in H. simpl in H.
    destruct (Decimal.nzhead u) eqn:E; try discriminate H.
    + injection H as <-. reflexivity.
    + exfalso. rewrite <- E in H. eapply nzhead_not_D0. exact H.
Qed.

Lemma to_uint_unorm n : Decimal.unorm (N.to_uint n) = N.to_uint n.
Proof.
  rewrite <- (DecimalN.Unsigned.to_of (N.to_uint n)).
  rewrite DecimalN.Unsigned.of_to. reflexivity.
Qed.

Lemma number_token_digits n :
  number_token (uint_chars (N.to_uint n)) = Some (TNumber (VNum (Z.of_N n))).
Proof.
  pose proof (uint_chars_digits (N.to_uint n)) as Hd.
  pose proof (int_part_ok_unorm _ (to_uint_unorm n)) as Hok.
  unfold number_token.
  assert (E : match uint_chars (N.to_uint n) with
              | [] => (false, uint_chars (N.to_uint n))
              | c :: r => if c =? 45 then (true, r)
                          else (false, uint_chars (N.to_uint n))
              end = (false, uint_chars (N.to_uint n))).
  { destruct (uint_chars (N.to_uint n)) as [ | c r]; [reflexivity | ].
    inversion Hd as [ | ? ? Hc _]; subst. unfold is_digit in Hc.
    apply andb_true_iff in Hc. destruct Hc as [Hc _]. apply N.leb_le in Hc.
    destruct (N.eqb_spec c 45); [lia | reflexivity]. }
  rewrite E, (span_digits_all _ Hd), Hok, chars_uint_chars.
  rewrite DecimalN.Unsigned.of_to. reflexivity.
Qed.

Lemma number_token_text z :
  number_token (number_text z) = Some (TNumber (VNum z)).
Proof.
  destruct z as [ | p | p].
  - reflexivity.
  - apply (number_token_digits (Npos p)).
  - pose proof (uint_chars_digits (N.to_uint (Npos p))) as Hd.
    pose proof (int_part_ok_unorm _ (to_uint_unorm (Npos p))) as Hok.
    unfold number_token, number_text. cbn [N.eqb Pos.eqb].
    rewrite (span_digits_all _ Hd), Hok, chars_uint_chars.
    rewrite DecimalN.Unsigned.of_to. reflexivity.
Qed.

Lemma number_text_units z :
  exists d ds, number_text z = d :: ds
               /\ numeral_unit d = true
               /\ Forall (fun c => is_digit c = true) ds.
Proof.
  assert (H : forall n, exists d ds, uint_chars (N.to_uint n) = d :: ds
                                     /\ is_digit d = true
                                     /\ Forall (fun c => is_digit c = true) ds).
  { intros n. pose proof (uint_chars_digits (N.to_uint n)) as Hd.
    pose proof (int_part_ok_unorm _ (to_uint_unorm n)) as Hok.
    destruct (uint_chars (N.to_uint n)) as [ | d ds]; [discriminate Hok | ].
    inversion Hd; subst. exists d, ds. auto. }
  destruct z as [ | p | p].
  - exists 48, []. repeat split. constructor.
  - destruct (H (Npos p)) as (d & ds & E & Hd & Hds).
    exists d, ds. unfold number_text, numeral_unit. rewrite Hd, orb_true_r. auto.
  - exists 45, (uint_chars (N.to_uint (Npos p))). repeat split.
    apply uint_chars_digits.
Qed.

Lemma start_numeral d :
  numeral_unit d = true -> start d = Some (LNumber [d], []).
Proof.
  intros H. unfold numeral_unit in H. unfold start. rewrite H.
  unfold is_digit in H.
  apply orb_true_iff in H.
  assert (B : d = 45 \/ (48 <= d /\ d <= 57)).
  { destruct H as [H | H].
    - left. apply N.eqb_eq. exact H.
    - right. apply andb_true_iff in H. destruct H as [H1 H2].
      apply N.leb_le in H1, H2. auto. }
  unfold is_json_ws, punctuation. decide_tests; reflexivity.
Qed.

Lemma digit_is_number_unit c : is_digit c = true -> is_number_unit c = true.
Proof. intros H. unfold is_number_unit. rewrite H. reflexivity. Qed.

Lemma lex_number_units ds : forall acc c rest,
  Forall (fun d => is_digit d = true) ds ->
  is_number_unit c = false ->
  lex (LNumber acc) (ds ++ c :: rest)
  = match number_token (rev acc ++ ds), start c with
    | Some t, Some (st', ts) => option_map (app (t :: ts)) (lex st' rest)
    | _, _ => None
    end.
Proof.
  induction ds as [ | d ds IH]; intros acc c rest Hds Hc.
  - cbn [app]. rewrite List.app_nil_r. simpl. rewrite Hc.
    destruct (number_token (rev acc)); [ | reflexivity].
    destruct (start c) as [[st' ts] | ]; reflexivity.
  - inversion Hds as [ | ? ? Hd Hds']; subst. cbn [app].
    rewrite (lex_quiet (LNumber acc) d (LNumber (d :: acc))).
    + rewrite (IH (d :: acc) c rest Hds' Hc). cbn [rev].
      rewrite <- app_assoc. reflexivity.
    + simpl. rewrite (digit_is_number_unit d Hd). reflexivity.
Qed.

(** A numeral followed by a closing unit is read back as its number. *)
Lemma lex_number_text z c st' ts rest :
  is_number_unit c = false ->
  start c = Some (st', ts) ->
  lex LDefault (number_text z ++ c :: rest)
  = option_map (app (TNumber (VNum z) :: ts)) (lex st' rest).
Proof.
  intros Hc Hs.
  destruct (number_text_units z) as (d & ds & E & Hd & Hds).
  pose proof (number_token_text z) as T. rewrite E in *. cbn [app].
  rewrite (lex_quiet LDefault d (LNumber [d])) by (apply start_numeral; exact Hd).
  rewrite (lex_number_units ds [d] c rest Hds Hc).
  cbn [rev app]. rewrite T, Hs. reflexivity.
Qed.

(** *** The payload of a token *)

Lemma stringify_payload userId email exp :
  JSON_stringify_object
    [(js "userId", VNum userId); (js "email", VStr email); (js "exp", VNum exp)]
  = Ret (Token.payload_text userId email exp).
Proof.
  reflexivity.
Qed.

Lemma literal_units (s : string) :
  forallb (fun c => c <? 65536) (js s) = true ->
  Forall (fun c => c < 65536) (js s).
Proof.
  intros H. apply Forall_forall. intros c Hc.
  rewrite forallb_forall in H. apply N.ltb_lt. apply H. exact Hc.
Qed.

Lemma lex_payload userId email exp :
  Forall (fun c => c < 65536) email ->
  lex LDefault (Token.payload_text userId email exp)
  = Some [TLBrace; TString (js "userId"); TColon; TNumber (VNum userId); TComma;
          TString (js "email"); TColon; TString email; TComma;
          TString (js "exp"); TColon; TNumber (VNum exp); TRBrace].
Proof.
  intros He. unfold Token.payload_text. cbn [join_comma].
  rewrite (lex_step LDefault 123 LDefault [TLBrace]) by reflexivity.
  repeat (rewrite <- app_assoc; cbn [app]).
  rewrite (lex_quote (js "userId")) by (apply literal_units; reflexivity).
  cbn [app].
  rewrite (lex_step LDefault 58 LDefault [TColon]) by reflexivity.
  rewrite (lex_number_text userId 44 LDefault [TComma]) by reflexivity.
  rewrite (lex_quote (js "email")) by (apply literal_units; reflexivity).
  cbn [app].
  rewrite (lex_step LDefault 58 LDefault [TColon]) by reflexivity.
  rewrite (lex_quote email) by exact He.
  cbn [app].
  rewrite (lex_step LDefault 44 LDefault [TComma]) by reflexivity.
  rewrite (lex_quote (js "exp")) by (apply literal_units; reflexivity).
  cbn [app].
  rewrite (lex_step LDefault 58 LDefault [TColon]) by reflexivity.
  rewrite (lex_number_text exp 125 LDefault [TRBrace]) by reflexivity.
  reflexivity.
Qed.

Theorem parse_payload userId email exp :
  Forall (fun c => c < 65536) email ->
  JSON_parse (Token.payload_text userId email exp) = Ret (Token.payload userId email exp).
Proof.
  intros He. unfold JSON_parse. rewrite (lex_payload userId email exp He).
  reflexivity.
Qed.

End JsonFacts.

(** ** The token codec *)

Section TokenFacts.
Import Json JsonFacts.
Local Open Scope N_scope.

Lemma hex_digit_latin1 v : v < 16 -> hex_digit v <= 255.
Proof. intros H. unfold hex_digit. destruct (v <? 10); lia. Qed.

Lemma unicode_escape_latin1 c :
  c < 65536 -> Forall (fun x => x <= 255) (unicode_escape c).
Proof.
  intros Hc. unfold unicode_escape.
  constructor; [lia | ]. constructor; [lia | ].
  repeat (constructor; [apply hex_digit_latin1; div_lia | ]).
  constructor.
Qed.

Lemma escape_unit_latin1 c :
  c <= 255 -> Forall (fun x => x <= 255) (escape_unit c).
Proof.
  intros Hc. unfold escape_unit.
  repeat match goal with
         | |- context [if ?b then _ else _] => destruct b
         end;
    try (apply unicode_escape_latin1; lia); repeat constructor; lia.
Qed.

(** A Latin-1 string is quoted into Latin-1 text. *)
Lemma quote_body_latin1 s :
  Forall (fun c => c <= 255) s -> Forall (fun c => c <= 255) (quote_body s).
Proof.
  induction 1 as [ | c r Hc _ IH]; [constructor | ].
  rewrite quote_body_cons.
  assert (Hh : is_high_surrogate c = false).
  { unfold is_high_surrogate. destruct (N.leb_spec 55296 c); [lia | reflexivity]. }
  assert (Hl : is_low_surrogate c = false).
  { unfold is_low_surrogate. destruct (N.leb_spec 56320 c); [lia | reflexivity]. }
  rewrite Hh, Hl. apply Forall_app. split; [apply escape_unit_latin1; exact Hc | exact IH].
Qed.

(** Text that fits in bytes was quoted from code units below 65536. *)
Lemma quote_body_units s :
  Forall (fun c => c <= 255) (quote_body s) -> Forall (fun c => c < 65536) s.
Proof.
  induction s as [ | a | a b l IHl IHbl] using list_ind_pair; intros H.
  - constructor.
  - constructor; [ | constructor].
    rewrite quote_body_cons in H.
    destruct (is_high_surrogate a) eqn:Hh.
    { unfold is_high_surrogate in Hh. apply andb_true_iff in Hh.
      destruct Hh as [_ Hh]. apply N.leb_le in Hh. lia. }
    destruct (is_low_surrogate a) eqn:Hl.
    { unfold is_low_surrogate in Hl. apply andb_true_iff in Hl.
      destruct Hl as [_ Hl]. apply N.leb_le in Hl. lia. }
    cbn [quote_body] in H. rewrite List.app_nil_r in H.
    unfold escape_unit in H.
    repeat match type of H with
           | context [if ?t =? ?k then _ else _] =>
               destruct (N.eqb_spec t k); [lia | ]
           | context [if ?t <? ?k then _ else _] =>
               destruct (N.ltb_spec t k); [lia | ]
           end.
    inversion H; subst. lia.
  - rewrite quote_body_cons in H.
    assert (Ha : a < 65536 /\ Forall (fun c => c <= 255) (quote_body (b :: l))
                 \/ (a < 65536 /\ b < 65536
                     /\ Forall (fun c => c <= 255) (quote_body l))).
    { destruct (is_high_surrogate a) eqn:Hh.
      - unfold is_high_surrogate in Hh. apply andb_true_iff in Hh.
        destruct Hh as [_ Hh]. apply N.leb_le in Hh.
        destruct (is_low_surrogate b) eqn:Hl.
        + right. inversion H as [ | ? ? _ H1]; subst.
          inversion H1 as [ | ? ? Hb H2]; subst.
          repeat split; [lia | lia | exact H2].
        + left. apply Forall_app in H. destruct H as [_ H]. split; [lia | exact H].
      - destruct (is_low_surrogate a) eqn:Hl.
        + unfold is_low_surrogate in Hl. apply andb_true_iff in Hl.
          destruct Hl as [_ Hl]. apply N.leb_le in Hl.
          left. apply Forall_app in H. destruct H as [_ H]. split; [lia | exact H].
        + left. apply Forall_app in H. destruct H as [H1 H2].
          split; [ | exact H2].
          unfold escape_unit in H1.
          repeat match type of H1 with
                 | context [if ?t =? ?k then _ else _] =>
                     destruct (N.eqb_spec t k); [lia | ]
                 | context [if ?t <? ?k then _ else _] =>
                     destruct (N.ltb_spec t k); [lia | ]
                 end.
          inversion H1; subst. lia. }
    destruct Ha as [[Ha Hr] | [Ha [Hb Hr]]].
    + constructor; [exact Ha | apply IHbl; exact Hr].
    + constructor; [exact Ha | constructor; [exact Hb | apply IHl; exact Hr]].
Qed.

Lemma number_text_latin1 z : Forall (fun c => c <= 255) (number_text z).
Proof.
  assert (H : forall u, Forall (fun c => c <= 255) (uint_chars u)).
  { intros u. pose proof (uint_chars_digits u) as Hd.
    apply Forall_forall. intros c Hc.
    rewrite Forall_forall in Hd. specialize (Hd c Hc).
    unfold is_digit in Hd. apply andb_true_iff in Hd. destruct Hd as [_ Hd].
    apply N.leb_le in Hd. lia. }
  destruct z; unfold number_text;
    [apply H | apply H | constructor; [lia | apply H]].
Qed.

Lemma literal_latin1 (s : string) : Forall (fun c => c <= 255) (js s).
Proof.
  unfold js. apply Forall_forall. intros c Hc. apply in_map_iff in Hc.
  destruct Hc as [a [<- _]].
  pose proof (N_ascii_bounded a). lia.
Qed.

Lemma quote_latin1 s :
  Forall (fun c => c <= 255) s -> Forall (fun c => c <= 255) (quote s).
Proof.
  intros H. unfold quote. constructor; [lia | ].
  apply Forall_app. split; [apply quote_body_latin1; exact H | ].
  constructor; [lia | constructor].
Qed.

Lemma payload_text_split userId email exp :
  Token.payload_text userId email exp
  = (123 :: quote (js "userId") ++ 58 :: number_text userId
         ++ 44 :: quote (js "email") ++ [58; 34])
    ++ quote_body email
    ++ (34 :: 44 :: quote (js "exp") ++ 58 :: number_text exp ++ [125]).
Proof.
  unfold Token.payload_text. cbn [join_comma]. unfold quote at 3.
  repeat (rewrite <- app_assoc; cbn [app]). reflexivity.
Qed.

Lemma payload_text_latin1 userId email exp :
  Forall (fun c => c <= 255) (Token.payload_text userId email exp)
  <-> Forall (fun c => c <= 255) (quote_body email).
Proof.
  rewrite payload_text_split, !Forall_app. split.
  - intros [_ [H _]]. exact H.
  - intros H. split; [ | split; [exact H | ]].
    + constructor; [lia | ].
      apply Forall_app. split; [apply quote_latin1, literal_latin1 | ].
      constructor; [lia | ].
      apply Forall_app. split; [apply number_text_latin1 | ].
      constructor; [lia | ].
      apply Forall_app. split; [apply quote_latin1, literal_latin1 | ].
      repeat (constructor; [lia | ]). constructor.
    + constructor; [lia | ]. constructor; [lia | ].
      apply Forall_app. split; [apply quote_latin1, literal_latin1 | ].
      constructor; [lia | ].
      apply Forall_app. split; [apply number_text_latin1 | ].
      constructor; [lia | constructor].
Qed.

Lemma forallb_latin1 s :
  forallb (fun c => c <=? 255) s = true <-> Forall (fun c => c <= 255) s.
Proof.
  rewrite forallb_forall, Forall_forall. split; intros H c Hc.
  - apply N.leb_le. apply H. exact Hc.
  - apply N.leb_le. apply H. exact Hc.
Qed.

(** What [encode] gives when the address fits: the base64 of the text. *)
Lemma encode_latin1 userId email exp :
  Forall (fun c => c <= 255) email ->
  Token.encode userId email exp
  = Ret (Base64.encode (Token.payload_text userId email exp)).
Proof.
  intros He. unfold Token.encode. rewrite stringify_payload. cbn [bind].
  unfold Base64.btoa.
  rewrite (proj2 (forallb_latin1 _)); [reflexivity | ].
  apply payload_text_latin1. apply quote_body_latin1. exact He.
Qed.

Lemma encode_inv userId email exp tok :
  Token.encode userId email exp = Ret tok ->
  Base64.btoa (Token.payload_text userId email exp) = Ret tok
  /\ Forall (fun c => c < 65536) email.
Proof.
  unfold Token.encode. rewrite stringify_payload. cbn [bind]. intros H.
  split; [exact H | ].
  unfold Base64.btoa in H.
  destruct (forallb (fun c => c <=? 255) (Token.payload_text userId email exp)) eqn:F;
    [ | discriminate H].
  apply quote_body_units. apply (payload_text_latin1 userId email exp).
  apply forallb_latin1. exact F.
Qed.

(** Decoding gives back what was encoded. *)
Lemma decode_encode userId email exp tok :
  Token.encode userId email exp = Ret tok ->
  Token.decode tok = Ret (Token.payload userId email exp).
Proof.
  intros H. apply encode_inv in H. destruct H as [Hb He].
  unfold Token.decode. rewrite (Base64Facts.atob_btoa _ _ Hb). cbn [bind].
  apply parse_payload. exact He.
Qed.

(** An address with a code unit above 255 cannot be encoded. *)
Lemma encode_raises userId email exp c :
  In c email -> 255 < c -> (c < 55296 \/ 57343 < c) ->
  Token.encode userId email exp = Throw InvalidCharacterError.
Proof.
  intros Hin Hc Hs.
  destruct (Token.encode userId email exp) as [tok | e | ] eqn:E.
  - exfalso. unfold Token.encode in E. rewrite stringify_payload in E.
    cbn [bind] in E. unfold Base64.btoa in E.
    destruct (forallb (fun c => c <=? 255) (Token.payload_text userId email exp)) eqn:F;
      [ | discriminate E].
    apply forallb_latin1 in F. apply payload_text_latin1 in F.
    clear E tok. revert F Hin.
    induction email as [ | a | a b l IHl IHbl] using list_ind_pair; intros F Hin.
    + destruct Hin.
    + destruct Hin as [<- | []]. rewrite quote_body_cons in F.
      assert (Hh : is_high_surrogate a = false).
      { unfold is_high_surrogate. decide_tests; reflexivity. }
      assert (Hl : is_low_surrogate a = false).
      { unfold is_low_surrogate. decide_tests; reflexivity. }
      rewrite Hh, Hl in F. unfold escape_unit in F.
      repeat match type of F with
             | context [if ?t =? ?k then _ else _] =>
                 destruct (N.eqb_spec t k); [lia | ]
             | context [if ?t <? ?k then _ else _] =>
                 destruct (N.ltb_spec t k); [lia | ]
             end.
      inversion F; subst. lia.
    + rewrite quote_body_cons in F.
      destruct (is_high_surrogate a) eqn:Hh.
      * unfold is_high_surrogate in Hh. apply andb_true_iff in Hh.
        destruct Hh as [Hh1 Hh2]. apply N.leb_le in Hh1, Hh2.
        destruct (is_low_surrogate b) eqn:Hl.
        -- inversion F; subst. lia.
        -- apply Forall_app in F. destruct F as [_ F].
           destruct Hin as [<- | Hin]; [lia | ]. apply IHbl; assumption.
      * destruct (is_low_surrogate a) eqn:Hl.
        -- unfold is_low_surrogate in Hl. apply andb_true_iff in Hl.
           destruct Hl as [Hl1 Hl2]. apply N.leb_le in Hl1, Hl2.
           apply Forall_app in F. destruct F as [_ F].
           destruct Hin as [<- | Hin]; [lia | ]. apply IHbl; assumption.
        -- apply Forall_app in F. destruct F as [F1 F2].
           destruct Hin as [<- | Hin]; [ | apply IHbl; assumption].
           unfold escape_unit in F1.
           repeat match type of F1 with
                  | context [if ?t =? ?k then _ else _] =>
                      destruct (N.eqb_spec t k); [lia | ]
                  | context [if ?t <? ?k then _ else _] =>
                      destruct (N.ltb_spec t k); [lia | ]
                  end.
           inversion F1; subst. lia.
  - unfold Token.encode in E. rewrite stringify_payload in E. cbn [bind] in E.
    unfold Base64.btoa in E.
    destruct (forallb (fun c => c <=? 255) (Token.payload_text userId email exp));
      [discriminate E | ]. symmetry. exact E.
  - unfold Token.encode in E. rewrite stringify_payload in E. cbn [bind] in E.
    unfold Base64.btoa in E.
    destruct (forallb (fun c => c <=? 255) (Token.payload_text userId email exp));
      discriminate E.
Qed.

(** Neither [atob] nor [JSON.parse] leaves the model. *)
Lemma decode_modelled tok :
  (exists v, Token.decode tok = Ret v) \/ (exists e, Token.decode tok = Throw e).
Proof.
  unfold Token.decode, Base64.atob.
  destruct (Nat.eqb _ 1); [right; eexists; reflexivity | ].
  destruct (Base64.values _); [ | right; eexists; reflexivity].
  cbn [bind]. unfold JSON_parse.
  destruct (lex LDefault _); [ | right; eexists; reflexivity].
  destruct (parse_tokens _ _); [left | right]; eexists; reflexivity.
Qed.

End TokenFacts.

(** ** [JSON.parse] never yields [undefined] *)

Section ParseDefined.
Import Json.

Lemma number_token_defined txt t :
  number_token txt = Some t -> token_defined t.
Proof.
  unfold number_token.
  destruct (match txt with
            | [] => (false, txt)
            | c :: r => if (c =? 45)%N then (true, r) else (false, txt)
            end) as [neg body].
  destruct (span_digits body) as [ds rest].
  destruct (int_part_ok ds); [ | discriminate].
  destruct rest as [ | c rest].
  - intros H. injection H as <-. simpl. discriminate.
  - destruct (fraction_exponent_ok (c :: rest)); [ | discriminate].
    intros H. injection H as <-. simpl. discriminate.
Qed.

Lemma word_token_defined txt t :
  word_token txt = Some t -> token_defined t.
Proof.
  unfold word_token.
  repeat match goal with
         | |- context [if ?b then _ else _] => destruct b
         end; intros H; try discriminate H; injection H as <-; exact I.
Qed.

Lemma punctuation_defined c t :
  punctuation c = Some t -> token_defined t.
Proof.
  unfold punctuation.
  repeat match goal with
         | |- context [if ?b then _ else _] => destruct b
         end; intros H; try discriminate H; injection H as <-; exact I.
Qed.

Lemma start_defined c st ts :
  start c = Some (st, ts) -> Forall token_defined ts.
Proof.
  unfold start.
  destruct (is_json_ws c); [intros H; injection H as <- <-; constructor | ].
  destruct (c =? 34)%N; [intros H; injection H as <- <-; constructor | ].
  destruct (punctuation c) as [t | ] eqn:P.
  - intros H. injection H as <- <-. constructor; [ | constructor].
    eapply punctuation_defined; eassumption.
  - destruct ((c =? 45)%N || is_digit c);
      [intros H; injection H as <- <-; constructor | ].
    destruct (is_lower c); [ | discriminate].
    intros H; injection H as <- <-; constructor.
Qed.

Lemma step_defined st c st' ts :
  step st c = Some (st', ts) -> Forall token_defined ts.
Proof.
  destruct st as [ | acc | acc | acc k code | acc | acc]; simpl.
  - apply start_defined.
  - destruct (c =? 34)%N.
    { intros H; injection H as <- <-. constructor; [exact I | constructor]. }
    destruct (c =? 92)%N; [intros H; injection H as <- <-; constructor | ].
    destruct (c <? 32)%N; [discriminate | ].
    intros H; injection H as <- <-; constructor.
  - destruct (c =? 117)%N; [intros H; injection H as <- <-; constructor | ].
    destruct (simple_escape c); [ | discriminate].
    intros H; injection H as <- <-; constructor.
  - destruct (hex_value c); [ | discriminate].
    destruct (Nat.eqb k 3); intros H; injection H as <- <-; constructor.
  - destruct (is_number_unit c); [intros H; injection H as <- <-; constructor | ].
    destruct (number_token (rev acc)) as [t | ] eqn:T; [ | discriminate].
    destruct (start c) as [[s1 ts1] | ] eqn:S; [ | discriminate].
    intros H; injection H as <- <-. constructor.
    + eapply number_token_defined; eassumption.
    + eapply start_defined; eassumption.
  - destruct (is_lower c); [intros H; injection H as <- <-; constructor | ].
    destruct (word_token (rev acc)) as [t | ] eqn:T; [ | discriminate].
    destruct (start c) as [[s1 ts1] | ] eqn:S; [ | discriminate].
    intros H; injection H as <- <-. constructor.
    + eapply word_token_defined; eassumption.
    + eapply start_defined; eassumption.
Qed.

Lemma finish_defined st ts :
  finish st = Some ts -> Forall token_defined ts.
Proof.
  destruct st as [ | acc | acc | acc k code | acc | acc]; simpl;
    try discriminate.
  - intros H; injection H as <-; constructor.
  - destruct (number_token (rev acc)) as [t | ] eqn:T; [ | discriminate].
    intros H; injection H as <-. constructor; [ | constructor].
    eapply number_token_defined; eassumption.
  - destruct (word_token (rev acc)) as [t | ] eqn:T; [ | discriminate].
    intros H; injection H as <-. constructor; [ | constructor].
    eapply word_token_defined; eassumption.
Qed.

Lemma lex_defined s : forall st ts,
  lex st s = Some ts -> Forall token_defined ts.
Proof.
  induction s as [ | c r IH]; intros st ts; simpl.
  - apply finish_defined.
  - destruct (step st c) as [[st' ts1] | ] eqn:S; [ | discriminate].
    destruct (lex st' r) as [ts2 | ] eqn:L; [ | discriminate].
    intros H; injection H as <-. apply Forall_app. split.
    + eapply step_defined; eassumption.
    + eapply IH; eassumption.
Qed.

Lemma deliver_defined v stk st :
  deliver v stk = Some st -> v <> VUndefined -> mode_defined st.
Proof.
  destruct stk as [ | [acc | acc | acc k] stk]; simpl; intros H Hv;
    try discriminate H; injection H as <-; unfold mode_defined; simpl; auto.
Qed.

Lemma begin_value_defined t stk st :
  begin_value t stk = Some st -> token_defined t -> mode_defined st.
Proof.
  destruct t; simpl; intros H Ht; try discriminate H;
    try (eapply deliver_defined; [eassumption | ]; try discriminate; exact Ht);
    injection H as <-; exact I.
Qed.

Lemma pstep_defined st t st' :
  pstep st t = Some st' -> token_defined t -> mode_defined st'.
Proof.
  destruct st as [m stk]. unfold pstep.
  destruct m; try discriminate.
  - apply begin_value_defined.
  - destruct stk as [ | [acc | acc | acc k] stk]; try discriminate.
    destruct t; try apply begin_value_defined.
    intros H _. eapply deliver_defined; [eassumption | discriminate].
  - destruct stk as [ | [acc | acc | acc k] stk]; try discriminate.
    destruct t; try discriminate.
    + intros H _. eapply deliver_defined; [eassumption | discriminate].
    + intros H _. injection H as <-. exact I.
  - destruct stk as [ | [acc | acc | acc k] stk]; try discriminate.
    destruct t; try discriminate.
    intros H _. injection H as <-. exact I.
  - destruct t; try discriminate.
    intros H _. injection H as <-. exact I.
  - destruct stk as [ | [acc | acc | acc k] stk]; try discriminate.
    + destruct t; try discriminate.
      * intros H _. eapply deliver_defined; [eassumption | discriminate].
      * intros H _. injection H as <-. exact I.
    + destruct t; try discriminate.
      * intros H _. eapply deliver_defined; [eassumption | discriminate].
      * intros H _. injection H as <-. exact I.
Qed.

Lemma parse_tokens_defined ts : forall st v,
  parse_tokens st ts = Some v -> mode_defined st ->
  Forall token_defined ts -> v <> VUndefined.
Proof.
  induction ts as [ | t ts IH]; intros st v; simpl.
  - destruct st as [[ | | | | | | w] stk]; try discriminate.
    intros H Hm _. injection H as <-. exact Hm.
  - destruct (pstep st t) as [st' | ] eqn:P; [ | discriminate].
    intros H _ Hts. inversion Hts; subst.
    eapply IH; [eassumption | | assumption].
    eapply pstep_defined; eassumption.
Qed.

Lemma JSON_parse_defined s : JSON_parse s <> Ret VUndefined.
Proof.
  unfold JSON_parse.
  destruct (lex LDefault s) as [ts | ] eqn:L; [ | discriminate].
  destruct (parse_tokens (MValue, []) ts) as [v | ] eqn:P; [ | discriminate].
  intros H. injection H as ->.
  eapply parse_tokens_defined; [eassumption | exact I | | reflexivity].
  eapply lex_defined; eassumption.
Qed.

End ParseDefined.


(** C8.  The token is plain, reversible serialisation: whenever the encoder
    of [authAPI.login] produces a token, decoding it gives back the object
    with the same subject id, address and expiry; the encoder does produce
    one for every address made of Latin-1 characters; and decoding raises
    exactly when the token is not base64 text of JSON text. *)
Theorem C8_token_codec_roundtrip :
  (forall userId email exp tok,
      Token.encode userId email exp = Ret tok ->
      Token.decode tok = Ret (Token.payload userId email exp)
      /\ get_field (Token.payload userId email exp) (js "userId")
         = Ret (VNum userId)
      /\ get_field (Token.payload userId email exp) (js "email")
         = Ret (VStr email)
      /\ get_field (Token.payload userId email exp) (js "exp")
         = Ret (VNum exp))
  /\ (forall userId email exp,
        Forall (fun c => (c <= 255)%N) email ->
        exists tok, Token.encode userId email exp = Ret tok)
  /\ (forall tok,
        (exists e, Token.decode tok = Throw e) <-> ~ Token.well_formed_token tok).
Proof.
  split; [ | split].
  - intros userId email exp tok H.
    split; [apply decode_encode; exact H | ].
    split; [reflexivity | split; reflexivity].
  - intros userId email exp He. eexists. apply encode_latin1. exact He.
  - intros tok. unfold Token.well_formed_token, Token.decode. split.
    + intros [e He] (text & v & Ha & Hp).
      rewrite Ha in He. cbn [bind] in He. rewrite Hp in He. discriminate He.
    + intros Hw. destruct (decode_modelled tok) as [[v Hv] | He]; [ | exact He].
      exfalso. apply Hw. unfold Token.decode in Hv.
      destruct (Base64.atob tok) as [text | e | ]; cbn [bind] in Hv;
        try discriminate Hv.
      exists text, v. auto.
Qed.

Lemma C8_witness :
  Token.decode (demo_token 1700000086400000)
  = Ret (Token.payload 1 (js "demo@example.com") 1700000086400000)
  /\ (exists tok, Token.encode 1 (js "demo@example.com") 1700000086400000 = Ret tok)
  /\ (exists e, Token.decode (js "not-a-token") = Throw e).
Proof.
  split; [ | split].
  - apply (proj1 C8_token_codec_roundtrip 1 (js "demo@example.com")
             1700000086400000 (demo_token 1700000086400000)).
    vm_compute. reflexivity.
  - apply (proj1 (proj2 C8_token_codec_roundtrip)).
    apply literal_latin1.
  - apply (proj2 (proj2 C8_token_codec_roundtrip) (js "not-a-token")).
    intros (text & v & Ha & _). vm_compute in Ha. discriminate Ha.
Defined.

(** ** The session holder *)

Section SessionFacts.
Import SessionManager.

Lemma login_session u t r st :
  currentSession (fst (login u t r st))
  = {| user := u; token := t; isAuthenticated := true |}.
Proof. unfold login. destruct u; reflexivity. Qed.

Lemma logout_session st :
  currentSession (fst (logout st))
  = {| user := None; token := None; isAuthenticated := false |}.
Proof. reflexivity. Qed.

(** [verifyToken] either leaves the state alone or is a [logout]. *)
Lemma verifyToken_state now st :
  fst (verifyToken now st) = st \/ fst (verifyToken now st) = fst (logout st).
Proof.
  unfold verifyToken.
  destruct (token (currentSession st)) as [[ | c t] | ]; auto.
  destruct (expiry_test (c :: t) now) as [[ | ] | e | ]; auto.
Qed.

Lemma exec_preserves_flag c st :
  well_called c ->
  flag_consistent (currentSession st) ->
  flag_consistent (currentSession (fst (exec c st))).
Proof.
  intros Hc Hst. destruct c as [u t r | | upd | now | ]; simpl.
  - rewrite login_session. destruct Hc as [Hu Ht].
    destruct u; [ | congruence]. destruct t; [ | congruence]. reflexivity.
  - reflexivity.
  - unfold updateUser. destruct (user (currentSession st)) eqn:Eu; simpl.
    + unfold flag_consistent in *. simpl. rewrite Hst, Eu. reflexivity.
    + exact Hst.
  - destruct (verifyToken_state now st) as [E | E]; rewrite E.
    + exact Hst.
    + reflexivity.
  - exact Hst.
Qed.

(** Under the contract of [login] the stored flag never disagrees with
    "user is set and token is set". *)
Lemma flag_consistent_well_called st :
  reachable_well_called st -> flag_consistent (currentSession st).
Proof.
  induction 1 as [ | st c _ IH Hc _].
  - reflexivity.
  - apply exec_preserves_flag; assumption.
Qed.

End SessionFacts.

Section VerifyTokenFacts.
Import SessionManager.

(** The empty string is not a token: [JSON.parse] rejects the empty text. *)
Lemma decode_nil : Token.decode [] = Throw SyntaxError.
Proof. reflexivity. Qed.

Lemma verifyToken_expired now st tok decoded exp :
  token (currentSession st) = Some tok ->
  Token.decode tok = Ret decoded ->
  get_field decoded (js "exp") = Ret exp ->
  js_lt exp now = Ret true ->
  verifyToken now st = (fst (logout st), Ret false).
Proof.
  intros Ht Hd He Hlt. unfold verifyToken, expiry_test. rewrite Ht.
  destruct tok as [ | c t]; [rewrite decode_nil in Hd; discriminate Hd | ].
  rewrite Hd. simpl. rewrite He. simpl. rewrite Hlt. reflexivity.
Qed.

Lemma verifyToken_unexpired now st tok decoded exp :
  token (currentSession st) = Some tok ->
  Token.decode tok = Ret decoded ->
  get_field decoded (js "exp") = Ret exp ->
  js_lt exp now = Ret false ->
  verifyToken now st = (st, Ret true).
Proof.
  intros Ht Hd He Hlt. unfold verifyToken, expiry_test. rewrite Ht.
  destruct tok as [ | c t]; [rewrite decode_nil in Hd; discriminate Hd | ].
  rewrite Hd. simpl. rewrite He. simpl. rewrite Hlt. reflexivity.
Qed.

Lemma verifyToken_no_token now st :
  token (currentSession st) = None \/ token (currentSession st) = Some [] ->
  verifyToken now st = (st, Ret false).
Proof. intros [H | H]; unfold verifyToken; rewrite H; reflexivity. Qed.

(** The decode failure is always caught: whatever the state, an
    undecodable token makes [verifyToken] answer [false] and changes
    nothing. *)
Lemma verifyToken_catches_decode_failure now st tok e :
  token (currentSession st) = Some tok ->
  Token.decode tok = Throw e ->
  verifyToken now st = (st, Ret false).
Proof.
  intros Ht Hd. unfold verifyToken, expiry_test. rewrite Ht.
  destruct tok as [ | c t]; [reflexivity | ].
  rewrite Hd. reflexivity.
Qed.

(** [login] called with a user and no token reaches a state whose flag is
    [true] while the token is absent; [login] called without a user leaves
    such a state behind as well, although the call itself raises.  The
    provider of session.jsx derives [false] from the same user and token. *)
Lemma login_sets_flag_without_token :
  let st := fst (exec (Login (Some demo_user) None false) initial) in
  let st' := fst (exec (Login None (Some (demo_token 1000)) false) initial) in
  reachable st
  /\ isAuthenticated (currentSession st) = true
  /\ token (currentSession st) = None
  /\ ~ flag_consistent (currentSession st)
  /\ SessionProvider.derived_isAuthenticated
       (user (currentSession st)) (token (currentSession st)) = false
  /\ reachable st'
  /\ ~ flag_consistent (currentSession st').
Proof.
  cbv zeta. repeat split.
  - apply (reach_call initial (Login (Some demo_user) None false)).
    + constructor.
    + exact I.
  - intros H. discriminate H.
  - apply (reach_call initial (Login None (Some (demo_token 1000)) false)).
    + constructor.
    + exact I.
  - intros H. discriminate H.
Qed.

End VerifyTokenFacts.

(** C1.  In every state that calls of [login], [logout], [updateUser],
    [verifyToken] and [restoreSession] lead to from the empty session,
    [login] being given a user and a token each time, the stored flag
    [isAuthenticated] is the conjunction of "user is set" and "token is
    set". *)
Theorem C1_flag_is_user_and_token (st : SessionManager.state) :
  SessionManager.reachable_well_called st ->
  SessionManager.isAuthenticated (SessionManager.currentSession st)
  = SessionManager.is_set (SessionManager.user (SessionManager.currentSession st))
    && SessionManager.is_set (SessionManager.token (SessionManager.currentSession st)).
Proof. apply flag_consistent_well_called. Qed.

Lemma C1_witness :
  SessionManager.isAuthenticated (SessionManager.currentSession demo_run) = false
  /\ SessionManager.isAuthenticated (SessionManager.currentSession demo_run)
     = SessionManager.is_set
         (SessionManager.user (SessionManager.currentSession demo_run))
       && SessionManager.is_set
            (SessionManager.token (SessionManager.currentSession demo_run)).
Proof.
  split; [vm_compute; reflexivity | ].
  apply (C1_flag_is_user_and_token demo_run).
  unfold demo_run, SessionManager.run. cbn [fold_left].
  repeat (apply SessionManager.reachw_call;
          [ | cbn [SessionManager.well_called]; try exact I;
              split; discriminate
            | vm_compute; exact I ]).
  apply SessionManager.reachw_initial.
Defined.

(** Without that condition the flag can disagree: [login] with a user and
    no token sets it. *)
Lemma C1_counterexample :
  ~ (forall st, SessionManager.reachable st ->
                SessionManager.isAuthenticated (SessionManager.currentSession st)
                = SessionManager.is_set
                    (SessionManager.user (SessionManager.currentSession st))
                  && SessionManager.is_set
                       (SessionManager.token (SessionManager.currentSession st))).
Proof.
  intros H.
  destruct login_sets_flag_without_token as (Hr & _ & _ & Hn & _).
  apply Hn. apply H. exact Hr.
Qed.

(** What [sessionManager.verifyToken] does follows its own test
    [decoded.exp < Date.now()]: when the stored token decodes and the
    test holds, the call is a [logout] and answers [false]; when the
    test fails, it answers [true] and the state is the same; when there
    is no token it answers [false] and the state is the same. *)
Lemma verifyToken_follows_strict_test (now : Z) (st : SessionManager.state) :
  (forall tok decoded exp,
      SessionManager.token (SessionManager.currentSession st) = Some tok ->
      Token.decode tok = Ret decoded ->
      get_field decoded (js "exp") = Ret exp ->
      js_lt exp now = Ret true ->
      SessionManager.verifyToken now st
      = (fst (SessionManager.logout st), Ret false)
      /\ SessionManager.currentSession (fst (SessionManager.verifyToken now st))
         = {| SessionManager.user := None; SessionManager.token := None;
              SessionManager.isAuthenticated := false |})
  /\ (forall tok decoded exp,
      SessionManager.token (SessionManager.currentSession st) = Some tok ->
      Token.decode tok = Ret decoded ->
      get_field decoded (js "exp") = Ret exp ->
      js_lt exp now = Ret false ->
      SessionManager.verifyToken now st = (st, Ret true))
  /\ (SessionManager.token (SessionManager.currentSession st) = None ->
      SessionManager.verifyToken now st = (st, Ret false)).
Proof.
  split; [ | split].
  - intros tok decoded exp Ht Hd He Hlt.
    rewrite (verifyToken_expired now st tok decoded exp Ht Hd He Hlt).
    split; reflexivity.
  - intros tok decoded exp. apply verifyToken_unexpired.
  - intros H. apply verifyToken_no_token. left. exact H.
Qed.

(** C6.  A session whose token decodes and expires at this very
    instant: the token is expired, and [sessionManager.verifyToken]
    answers [true] and performs no [logout]; user, token and flag stay
    and no event is dispatched.  One millisecond later the same call
    logs out and answers [false], and a session without a token is
    answered [false] and left alone.  The provider of session.jsx
    refuses the same token at that instant. *)
Theorem C6_verifyToken_keeps_session_at_expiry_instant :
  let now := 1700000000000 in
  let tok := demo_token now in
  let st := demo_session tok in
  Token.decode tok = Ret (demo_payload now)
  /\ get_field (demo_payload now) (js "exp") = Ret (VNum now)
  /\ SessionManager.verifyToken now st = (st, Ret true)
  /\ SessionManager.currentSession (fst (SessionManager.verifyToken now st))
     = {| SessionManager.user := Some demo_user;
          SessionManager.token := Some tok;
          SessionManager.isAuthenticated := true |}
  /\ SessionManager.dispatched (fst (SessionManager.verifyToken now st))
     = SessionManager.dispatched st
  /\ SessionManager.verifyToken (now + 1) st
     = (fst (SessionManager.logout st), Ret false)
  /\ SessionManager.currentSession
       (fst (SessionManager.verifyToken (now + 1) st))
     = {| SessionManager.user := None; SessionManager.token := None;
          SessionManager.isAuthenticated := false |}
  /\ SessionManager.verifyToken now SessionManager.initial
     = (SessionManager.initial, Ret false)
  /\ SessionProvider.verifyStoredToken tok now = Ret false.
Proof.
  cbv zeta. repeat split; vm_compute; reflexivity.
Qed.

(** C7.  A stored token that does not decode: the exception is caught and
    [verifyToken] answers [false], but nothing is cleared, so
    [isAuthenticated] still reports [true]; on the same token the provider
    of session.jsx ends with the session cleared. *)
Theorem C7_undecodable_token_stays_authenticated :
  let st := demo_session (js "not-a-token") in
  (exists e, Token.decode (js "not-a-token") = Throw e)
  /\ SessionManager.verifyToken 1000 st = (st, Ret false)
  /\ SessionManager.isAuthenticated
       (SessionManager.currentSession (fst (SessionManager.verifyToken 1000 st)))
     = true
  /\ SessionProvider.initializeSession (Some (js "not-a-token")) (Some demo_user)
       1000
       {| SessionProvider.user := Some demo_user;
          SessionProvider.token := Some (js "not-a-token");
          SessionProvider.loading := true;
          SessionProvider.isAuthenticated := true |}
     = Ret {| SessionProvider.user := None; SessionProvider.token := None;
              SessionProvider.loading := false;
              SessionProvider.isAuthenticated := false |}.
Proof.
  cbv zeta. split; [ | split; [ | split]].
  - exists InvalidCharacterError. vm_compute. reflexivity.
  - vm_compute. reflexivity.
  - vm_compute. reflexivity.
  - vm_compute. reflexivity.
Qed.


(** C9.  A session whose token decodes to a payload without [exp]
    (here [{}]): [decoded.exp - Date.now()] is NaN and
    [getSessionDuration] returns NaN at every instant, which is no
    number of minutes.  The calls next to it return integers: 2 for a
    token that expires 120000 ms from now, 0 without a token, and 0,
    through the [catch], for a token that does not decode. *)
Theorem C9_getSessionDuration_is_NaN_without_exp :
  Token.decode (js "e30=") = Ret (VObj [])
  /\ (forall now,
        SessionManager.getSessionDuration now (demo_session (js "e30="))
        = Ret NaN)
  /\ SessionManager.getSessionDuration 1700000000000
       (demo_session (demo_token (1700000000000 + 120000)))
     = Ret (Int 2)
  /\ SessionManager.getSessionDuration 1700000000000 SessionManager.initial
     = Ret (Int 0)
  /\ SessionManager.getSessionDuration 1700000000000
       (demo_session (js "not-a-token"))
     = Ret (Int 0).
Proof.
  assert (D : Token.decode (js "e30=") = Ret (VObj []))
    by (vm_compute; reflexivity).
  split; [exact D | ]. split; [ | repeat split; vm_compute; reflexivity].
  intros now. unfold SessionManager.getSessionDuration.
  change (SessionManager.token
            (SessionManager.currentSession (demo_session (js "e30="))))
    with (Some (js "e30=")).
  revert D. change (js "e30=") with [101%N; 51%N; 48%N; 61%N]. intros D.
  cbv beta iota. rewrite D. reflexivity.
Qed.

(** C10.  [sessionManager.login] with a user: both arguments are stored as
    given, the flag is set without looking at the token, the call answers
    [true], and [rememberMe] changes nothing. *)
Theorem C10_login_stores_arguments
    (u : object) (t : option jsstring) (r : bool) (st : SessionManager.state) :
  SessionManager.currentSession (fst (SessionManager.login (Some u) t r st))
  = {| SessionManager.user := Some u; SessionManager.token := t;
       SessionManager.isAuthenticated := true |}
  /\ snd (SessionManager.login (Some u) t r st) = Ret true
  /\ (forall ud r', SessionManager.login ud t r' st = SessionManager.login ud t r st).
Proof.
  split; [reflexivity | split; [reflexivity | ]].
  intros ud r'. reflexivity.
Qed.

(** Without a user the assignments are made all the same, but the call
    raises on [userData.username] and does not answer [true]. *)
Lemma C10_counterexample :
  snd (SessionManager.login None (Some (demo_token 1000)) false
         SessionManager.initial) = Throw TypeError
  /\ snd (SessionManager.login None (Some (demo_token 1000)) false
            SessionManager.initial) <> Ret true
  /\ SessionManager.currentSession
       (fst (SessionManager.login None (Some (demo_token 1000)) false
               SessionManager.initial))
     = {| SessionManager.user := None;
          SessionManager.token := Some (demo_token 1000);
          SessionManager.isAuthenticated := true |}.
Proof.
  split; [reflexivity | split; [ | reflexivity]].
  intros H. discriminate H.
Qed.

(** ** [authAPI.register] *)

Section AuthFacts.
Import AuthAPI.

Lemma find_email_some store e :
  (exists u, In u store /\ email u = e) ->
  exists u, find (fun u => jsstring_eqb (email u) e) store = Some u.
Proof.
  intros [u [Hin He]].
  destruct (find (fun u => jsstring_eqb (email u) e) store) as [u' | ] eqn:F.
  - exists u'. reflexivity.
  - apply (find_none _ _ F) in Hin. rewrite He, jsstring_eqb_refl in Hin.
    discriminate Hin.
Qed.

Lemma find_email_none store e :
  ~ (exists u, In u store /\ email u = e) ->
  find (fun u => jsstring_eqb (email u) e) store = None.
Proof.
  intros Hno.
  destruct (find (fun u => jsstring_eqb (email u) e) store) as [u' | ] eqn:F.
  - apply find_some in F. destruct F as [Hin He].
    apply jsstring_eqb_eq in He. exfalso. apply Hno. exists u'. auto.
  - reflexivity.
Qed.

Lemma register_duplicate store cand i c :
  (exists u, In u store /\ email u = cand_email cand) ->
  register store cand i c = (store, DuplicateEmail).
Proof.
  intros H. apply find_email_some in H. destruct H as [u F].
  unfold register. rewrite F. reflexivity.
Qed.

Lemma register_fresh store cand i c :
  ~ (exists u, In u store /\ email u = cand_email cand) ->
  register store cand i c
  = (store ++ [ {| id := i; username := cand_username cand;
                   email := cand_email cand; password := cand_password cand;
                   createdAt := Some c |} ],
     {| success := true; message := Some "Registration successful"%string;
        token := None;
        user := Some {| pub_id := i; pub_username := cand_username cand;
                        pub_email := cand_email cand;
                        pub_createdAt := Some c |} |}).
Proof.
  intros H. apply find_email_none in H.
  unfold register. rewrite H. reflexivity.
Qed.

(** After [register], successful or not, the address is taken. *)
Lemma register_email_taken store cand i c :
  exists u, In u (fst (register store cand i c)) /\ email u = cand_email cand.
Proof.
  unfold register.
  destruct (find (fun u => jsstring_eqb (email u) (cand_email cand)) store)
    as [u | ] eqn:F; simpl.
  - apply find_some in F. destruct F as [Hin He].
    apply jsstring_eqb_eq in He. exists u. auto.
  - eexists. split.
    + apply in_or_app. right. left. reflexivity.
    + reflexivity.
Qed.

End AuthFacts.

(** C5.  [authAPI.register] answers "Email already registered" exactly when
    an identity of the store has the candidate's address, and then leaves
    the store alone; otherwise it appends an identity with the clock reading
    as id and the creation instant, and hands it back without the password.
    A second registration of the same address fails. *)
Theorem C5_register_rejects_duplicate_email
    (store : list AuthAPI.identity) (cand : AuthAPI.candidate)
    (now_id now_created : Z) :
  let taken := exists u, In u store
                         /\ AuthAPI.email u = AuthAPI.cand_email cand in
  let newUser :=
    {| AuthAPI.id := now_id; AuthAPI.username := AuthAPI.cand_username cand;
       AuthAPI.email := AuthAPI.cand_email cand;
       AuthAPI.password := AuthAPI.cand_password cand;
       AuthAPI.createdAt := Some now_created |} in
  (snd (AuthAPI.register store cand now_id now_created) = AuthAPI.DuplicateEmail
   <-> taken)
  /\ (taken -> fst (AuthAPI.register store cand now_id now_created) = store)
  /\ (~ taken ->
      AuthAPI.register store cand now_id now_created
      = (store ++ [newUser],
         {| AuthAPI.success := true;
            AuthAPI.message := Some "Registration successful"%string;
            AuthAPI.token := None;
            AuthAPI.user := Some (AuthAPI.without_password newUser) |}))
  /\ (forall cand' now_id' now_created',
        AuthAPI.cand_email cand' = AuthAPI.cand_email cand ->
        AuthAPI.register (fst (AuthAPI.register store cand now_id now_created))
          cand' now_id' now_created'
        = (fst (AuthAPI.register store cand now_id now_created),
           AuthAPI.DuplicateEmail)).
Proof.
  cbv zeta. split; [ | split; [ | split]].
  - split.
    + intros H. unfold AuthAPI.register in H.
      destruct (find (fun u => jsstring_eqb (AuthAPI.email u)
                                 (AuthAPI.cand_email cand)) store)
        as [u | ] eqn:F.
      * apply find_some in F. destruct F as [Hin He].
        apply jsstring_eqb_eq in He. exists u. auto.
      * simpl in H. discriminate H.
    + intros H. rewrite (register_duplicate _ _ _ _ H). reflexivity.
  - intros H. rewrite (register_duplicate _ _ _ _ H). reflexivity.
  - intros H. apply register_fresh. exact H.
  - intros cand' i' c' E. apply register_duplicate. rewrite E.
    apply register_email_taken.
Qed.

Lemma C5_witness :
  fst (AuthAPI.register AuthAPI.mockUsers demo_candidate 1700000000000 1700000000001)
  = AuthAPI.mockUsers
  /\ snd (AuthAPI.register AuthAPI.mockUsers new_candidate
            1700000000000 1700000000001)
     = {| AuthAPI.success := true;
          AuthAPI.message := Some "Registration successful"%string;
          AuthAPI.token := None;
          AuthAPI.user :=
            Some {| AuthAPI.pub_id := 1700000000000;
                    AuthAPI.pub_username := js "ada";
                    AuthAPI.pub_email := js "ada@example.com";
                    AuthAPI.pub_createdAt := Some 1700000000001 |} |}
  /\ snd (AuthAPI.register
            (fst (AuthAPI.register AuthAPI.mockUsers new_candidate
                    1700000000000 1700000000001))
            new_candidate 1700000005000 1700000005000)
     = AuthAPI.DuplicateEmail.
Proof.
  split; [ | split].
  - apply (proj1 (proj2 (C5_register_rejects_duplicate_email
                           AuthAPI.mockUsers demo_candidate
                           1700000000000 1700000000001))).
    eexists. split; [left; reflexivity | reflexivity].
  - rewrite (proj1 (proj2 (proj2 (C5_register_rejects_duplicate_email
                                    AuthAPI.mockUsers new_candidate
                                    1700000000000 1700000000001)))).
    + reflexivity.
    + intros [u [[Hu | []] He]]. subst u. vm_compute in He. discriminate He.
  - rewrite (proj2 (proj2 (proj2 (C5_register_rejects_duplicate_email
                                    AuthAPI.mockUsers new_candidate
                                    1700000000000 1700000000001)))
               new_candidate 1700000005000 1700000005000 eq_refl).
    reflexivity.
Defined.

(** ** [authAPI.verifyToken] *)

Section VerifyFacts.
Import AuthAPI.




Lemma find_by_id_no_throw uid store e : find_by_id uid store <> Throw e.
Proof.
  induction store as [ | w rest IH]; simpl; [discriminate | ].
  destruct uid; simpl; try exact IH; try discriminate.
  destruct (id w =? z); [discriminate | exact IH].
Qed.

End VerifyFacts.





(** The test of the two verifiers is strict, that of the provider is the
    strict test the other way round: they differ when [exp = now]. *)
Lemma expiry_tests (exp now : Z) :
  (js_lt (VNum exp) now = Ret true <-> exp < now)
  /\ (js_gt (VNum exp) now = Ret false <-> exp <= now).
Proof.
  rewrite js_lt_num, js_gt_num. split.
  - destruct (Z.ltb_spec exp now) as [L | L]; split; intros H; try lia; try reflexivity;
      discriminate H.
  - destruct (Z.ltb_spec now exp) as [L | L]; split; intros H; try lia; try reflexivity;
      discriminate H.
Qed.

(** C3.  At the instant of expiry the two verifiers of main.js and
    routes.jsx do not treat the token as expired: their test is
    [decoded.exp < Date.now()].  The provider of session.jsx, whose test is
    [decoded.exp > Date.now()], does. *)
Theorem C3_token_at_expiry_instant_is_accepted :
  let now := 1700000000000 in
  let tok := demo_token now in
  Token.decode tok = Ret (demo_payload now)
  /\ AuthAPI.verifyToken AuthAPI.mockUsers tok now = Ret (AuthAPI.granted demo_identity)
  /\ AuthAPI.verifyToken AuthAPI.mockUsers tok now <> Ret AuthAPI.TokenExpired
  /\ SessionManager.verifyToken now (demo_session tok)
     = (demo_session tok, Ret true)
  /\ SessionProvider.verifyStoredToken tok now = Ret false.
Proof.
  cbv zeta. split; [ | split; [ | split; [ | split]]].
  - vm_compute. reflexivity.
  - vm_compute. reflexivity.
  - intros H. vm_compute in H. discriminate H.
  - vm_compute. reflexivity.
  - vm_compute. reflexivity.
Qed.

(** ** [authAPI.login] *)

Section LoginFacts.
Import AuthAPI.

Lemma matches_spec creds u :
  matches creds u = true
  <-> email u = cred_email creds /\ password u = cred_password creds.
Proof.
  unfold matches. rewrite andb_true_iff, !jsstring_eqb_eq. reflexivity.
Qed.

(** "Invalid email or password" exactly when no identity has both the
    address and the password. *)
Lemma login_rejects_exactly_unmatched store creds now :
  login store creds now = Ret InvalidCredentials
  <-> ~ exists u, In u store /\ email u = cred_email creds
                  /\ password u = cred_password creds.
Proof.
  unfold login.
  destruct (find (matches creds) store) as [u | ] eqn:F.
  - apply find_some in F. destruct F as [Hin Hm]. apply matches_spec in Hm.
    split.
    + intros H. exfalso.
      destruct (Token.encode (id u) (email u) (now + ttl)); simpl in H;
        discriminate H.
    + intros H. exfalso. apply H. exists u. tauto.
  - split; [ | reflexivity].
    intros _ [u [Hin Hm]]. apply matches_spec in Hm.
    rewrite (find_none _ _ F u Hin) in Hm. discriminate Hm.
Qed.

(** With a Latin-1 address the matched identity gets a token that expires
    24 hours after the clock reading. *)
Lemma login_issues_token store creds now u :
  find (matches creds) store = Some u ->
  Forall (fun c => (c <= 255)%N) (email u) ->
  exists tok,
    login store creds now
    = Ret {| success := true; message := Some "Login successful"%string;
             token := Some tok; user := Some (without_password u) |}
    /\ Token.decode tok
       = Ret (Token.payload (id u) (email u) (now + 24 * 60 * 60 * 1000)).
Proof.
  intros F He. unfold login. rewrite F.
  rewrite (encode_latin1 _ _ _ He). cbn [bind]. eexists. split; [reflexivity | ].
  apply decode_encode. apply encode_latin1. exact He.
Qed.

(** Otherwise the call raises instead of answering. *)
Lemma login_raises store creds now u c :
  find (matches creds) store = Some u ->
  In c (email u) -> (255 < c)%N -> (c < 55296 \/ 57343 < c)%N ->
  login store creds now = Throw InvalidCharacterError.
Proof.
  intros F Hin Hc Hs. unfold login. rewrite F.
  rewrite (encode_raises _ _ _ c Hin Hc Hs). reflexivity.
Qed.

End LoginFacts.

(** The demo credentials sign in; the token carries subject id 1 and
    expires 24 hours later; a wrong password is turned away. *)
Example login_demo :
  let now := 1700000000000 in
  (exists tok,
      AuthAPI.login AuthAPI.mockUsers
        {| AuthAPI.cred_email := js "demo@example.com";
           AuthAPI.cred_password := js "demo123" |} now
      = Ret {| AuthAPI.success := true;
               AuthAPI.message := Some "Login successful"%string;
               AuthAPI.token := Some tok;
               AuthAPI.user := Some (AuthAPI.without_password demo_identity) |}
      /\ Token.decode tok
         = Ret (Token.payload 1 (js "demo@example.com") (now + 86400000)))
  /\ AuthAPI.login AuthAPI.mockUsers
       {| AuthAPI.cred_email := js "demo@example.com";
          AuthAPI.cred_password := js "demo124" |} now
     = Ret AuthAPI.InvalidCredentials.
Proof.
  cbv zeta. split.
  - eexists. split; vm_compute; reflexivity.
  - vm_compute. reflexivity.
Qed.

(** C4.  An identity registered with an address that has a code unit above
    255 cannot sign in: the credentials match, [JSON.stringify] keeps the
    letter as it is, and [btoa] raises. *)
Theorem C4_login_raises_on_non_latin1_email :
  let store := fst (AuthAPI.register AuthAPI.mockUsers cyrillic_candidate
                      1700000000000 1700000000000) in
  let creds := {| AuthAPI.cred_email := cyrillic_email;
                  AuthAPI.cred_password := js "secret1" |} in
  (exists u, In u store /\ AuthAPI.email u = AuthAPI.cred_email creds
             /\ AuthAPI.password u = AuthAPI.cred_password creds)
  /\ AuthAPI.login store creds 1700000005000 = Throw InvalidCharacterError.
Proof.
  cbv zeta. split.
  - eexists. split; [right; left; reflexivity | split; reflexivity].
  - vm_compute. reflexivity.
Qed.

(* ================================================================== *)
(** * Further properties                                              *)
(* ================================================================== *)

(** ** The store under [register] *)

Section StoreFacts.
Import AuthAPI.

Lemma find_app_some {A} (p : A -> bool) (l l' : list A) (x : A) :
  find p l = Some x -> find p (l ++ l') = Some x.
Proof.
  induction l as [|a l IH]; simpl; [discriminate|].
  destruct (p a); auto.
Qed.

Lemma find_app_none {A} (p : A -> bool) (l l' : list A) :
  find p l = None -> find p (l ++ l') = find p l'.
Proof.
  induction l as [|a l IH]; simpl; [reflexivity|].
  destruct (p a); [discriminate|auto].
Qed.

Lemma find_email_absent store e :
  find (fun u => jsstring_eqb (email u) e) store = None ->
  ~ In e (map email store).
Proof.
  induction store as [|u store IH]; simpl; [tauto|].
  destruct (jsstring_eqb (email u) e) eqn:E; [discriminate|].
  intros H [H1 | H1]; [|exact (IH H H1)].
  rewrite H1 in E. rewrite jsstring_eqb_refl in E. discriminate.
Qed.

(** [register] leaves the store alone or adds one identity at the end. *)
Lemma register_extends store cand i c :
  fst (register store cand i c) = store
  \/ (find (fun u => jsstring_eqb (email u) (cand_email cand)) store = None
      /\ fst (register store cand i c)
         = store ++ [ {| id := i; username := cand_username cand;
                         email := cand_email cand;
                         password := cand_password cand;
                         createdAt := Some c |} ]).
Proof.
  unfold register.
  destruct (find (fun u => jsstring_eqb (email u) (cand_email cand)) store);
    simpl; auto.
Qed.

Lemma register_keeps_distinct store cand i c :
  NoDup (map email store) ->
  NoDup (map email (fst (register store cand i c))).
Proof.
  intros H. destruct (register_extends store cand i c) as [E | [F E]];
    rewrite E; [exact H|].
  rewrite map_app. simpl.
  apply NoDup_app; [exact H | repeat constructor; intros [] | ].
  intros e He [<- | []]. exact (find_email_absent _ _ F He).
Qed.

(** [find_by_id] on a number is [find] with the test on the id. *)
Lemma find_by_id_num z store :
  find_by_id (VNum z) store = Ret (find (fun u => id u =? z) store).
Proof.
  induction store as [|u store IH]; simpl; [reflexivity|].
  destruct (id u =? z); [reflexivity | exact IH].
Qed.

Lemma find_by_id_app uid store more :
  find_by_id uid store <> Ret None ->
  find_by_id uid (store ++ more) = find_by_id uid store.
Proof.
  induction store as [|w store IH]; simpl; [intros H; contradiction H; reflexivity|].
  destruct (strict_eq_num (id w) uid) as [[|]| |]; simpl; auto.
Qed.

(** Verifying a token that [Token.encode] made. *)
Lemma verifyToken_encoded store userId e exp tok now :
  Token.encode userId e exp = Ret tok ->
  verifyToken store tok now
  = Ret (if exp <? now then TokenExpired
         else match find (fun u => id u =? userId) store with
              | Some u => granted u
              | None => UserNotFound
              end).
Proof.
  intros E. apply decode_encode in E.
  unfold verifyToken. rewrite E. cbn [bind].
  change (get_field (Token.payload userId e exp) (js "exp")) with (Ret (VNum exp)).
  cbn [bind]. rewrite js_lt_num. cbn [bind].
  destruct (exp <? now); [reflexivity|].
  change (get_field (Token.payload userId e exp) (js "userId"))
    with (Ret (VNum userId)).
  cbn [bind]. rewrite find_by_id_num. cbn [bind].
  destruct (find (fun u => id u =? userId) store); reflexivity.
Qed.

(** [login] in full: the first match decides, and [btoa] raises unless
    the payload text fits in bytes. *)
Lemma login_first_match store creds now u :
  find (matches creds) store = Some u ->
  login store creds now
  = if forallb (fun c => (c <=? 255)%N)
               (Token.payload_text (id u) (email u) (now + ttl))
    then Ret {| success := true; message := Some "Login successful"%string;
                token := Some (Base64.encode
                                 (Token.payload_text (id u) (email u) (now + ttl)));
                user := Some (without_password u) |}
    else Throw InvalidCharacterError.
Proof.
  intros F. unfold login. rewrite F. unfold Token.encode.
  rewrite JsonFacts.stringify_payload. cbn [bind]. unfold Base64.btoa.
  destruct (forallb _ _); reflexivity.
Qed.

Lemma login_no_match store creds now :
  find (matches creds) store = None ->
  login store creds now = Ret InvalidCredentials.
Proof. intros F. unfold login. rewrite F. reflexivity. Qed.

(** Signing in with what was just registered. *)
Lemma login_after_register store cand i c now :
  ~ (exists u, In u store /\ email u = cand_email cand) ->
  Forall (fun ch => (ch <= 255)%N) (cand_email cand) ->
  exists tok,
    login (fst (register store cand i c))
      {| cred_email := cand_email cand; cred_password := cand_password cand |} now
    = Ret {| success := true; message := Some "Login successful"%string;
             token := Some tok;
             user := Some {| pub_id := i; pub_username := cand_username cand;
                             pub_email := cand_email cand;
                             pub_createdAt := Some c |} |}
    /\ Token.decode tok = Ret (Token.payload i (cand_email cand) (now + 86400000)).
Proof.
  intros Hfresh Hbytes.
  rewrite (register_fresh _ _ i c Hfresh). cbn [fst].
  set (creds := {| cred_email := cand_email cand;
                   cred_password := cand_password cand |}).
  set (u := {| id := i; username := cand_username cand;
               email := cand_email cand;
               password := cand_password cand;
               createdAt := Some c |}).
  assert (F : find (matches creds) (store ++ [u]) = Some u).
  { rewrite find_app_none.
    - simpl. unfold matches. simpl. rewrite !jsstring_eqb_refl. reflexivity.
    - destruct (find (matches creds) store) as [w|] eqn:G; [|reflexivity].
      apply find_some in G. destruct G as [Hin Hm].
      apply matches_spec in Hm. destruct Hm as [He _].
      exfalso. apply Hfresh. exists w. auto. }
  destruct (login_issues_token _ _ now _ F Hbytes) as [tok [L D]].
  exists tok. split; [exact L | exact D].
Qed.

End StoreFacts.

(** X1.  However many registrations the store has been through since
    it was seeded, no two identities in it share an email address. *)
Theorem X1_registered_emails_stay_distinct (store : list AuthAPI.identity) :
  AuthStore.reachable store -> NoDup (map AuthAPI.email store).
Proof.
  induction 1 as [|store cand i c _ IH].
  - repeat constructor. intros [].
  - apply register_keeps_distinct. exact IH.
Qed.

Lemma X1_witness :
  NoDup (map AuthAPI.email
           (fst (AuthAPI.register
                   (fst (AuthAPI.register AuthAPI.mockUsers new_candidate 7 8))
                   demo_candidate 9 10))).
Proof.
  apply X1_registered_emails_stay_distinct.
  apply AuthStore.reach_register. apply AuthStore.reach_register.
  apply AuthStore.reach_seed.
Defined.

(** X2.  A registration, accepted or not, changes nothing for the
    accounts already there: credentials that [login] did not reject get
    the same answer afterwards, and a token for which [verifyToken] did
    not answer "User not found" gets the same answer afterwards. *)
Theorem X2_registration_keeps_existing_accounts
    (store : list AuthAPI.identity) (cand : AuthAPI.candidate) (i c : Z)
    (creds : AuthAPI.credentials) (tok : jsstring) (now : Z) :
  (AuthAPI.login store creds now <> Ret AuthAPI.InvalidCredentials ->
   AuthAPI.login (fst (AuthAPI.register store cand i c)) creds now
   = AuthAPI.login store creds now)
  /\ (AuthAPI.verifyToken store tok now <> Ret AuthAPI.UserNotFound ->
      AuthAPI.verifyToken (fst (AuthAPI.register store cand i c)) tok now
      = AuthAPI.verifyToken store tok now).
Proof.
  destruct (register_extends store cand i c) as [E | [_ E]]; rewrite E;
    [split; reflexivity|].
  split.
  - intros H. unfold AuthAPI.login in *.
    destruct (find (AuthAPI.matches creds) store) as [u|] eqn:F;
      [|contradiction H; reflexivity].
    rewrite (find_app_some _ _ _ _ F). reflexivity.
  - intros H. unfold AuthAPI.verifyToken in *.
    destruct (Token.decode tok) as [d| |]; cbn [bind] in *; try reflexivity.
    destruct (get_field d (js "exp")) as [x| |]; cbn [bind] in *; try reflexivity.
    destruct (js_lt x now) as [[|]| |]; cbn [bind] in *; try reflexivity.
    destruct (get_field d (js "userId")) as [uid| |]; cbn [bind] in *;
      try reflexivity.
    rewrite find_by_id_app; [reflexivity|].
    intros F. rewrite F in H. contradiction H; reflexivity.
Qed.

Lemma X2_witness :
  AuthAPI.login (fst (AuthAPI.register AuthAPI.mockUsers new_candidate 7 8))
    {| AuthAPI.cred_email := js "demo@example.com";
       AuthAPI.cred_password := js "demo123" |} 1000
  = AuthAPI.login AuthAPI.mockUsers
      {| AuthAPI.cred_email := js "demo@example.com";
         AuthAPI.cred_password := js "demo123" |} 1000
  /\ AuthAPI.verifyToken (fst (AuthAPI.register AuthAPI.mockUsers new_candidate 7 8))
       (demo_token 3000) 2000
     = AuthAPI.verifyToken AuthAPI.mockUsers (demo_token 3000) 2000.
Proof.
  split.
  - apply (proj1 (X2_registration_keeps_existing_accounts AuthAPI.mockUsers
                    new_candidate 7 8 _ [] 1000)).
    vm_compute. discriminate.
  - apply (proj2 (X2_registration_keeps_existing_accounts AuthAPI.mockUsers
                    new_candidate 7 8
                    {| AuthAPI.cred_email := []; AuthAPI.cred_password := [] |}
                    (demo_token 3000) 2000)).
    vm_compute. discriminate.
Defined.

(** X3.  Once a registration with a fresh, one-byte-per-character email
    address has gone through, signing in with the same address and
    password succeeds: the response describes the new account, and its
    token carries the new id, the address and an expiry 24 hours on. *)
Theorem X3_registered_account_can_sign_in
    (store : list AuthAPI.identity) (cand : AuthAPI.candidate) (i c now : Z) :
  ~ (exists u, In u store /\ AuthAPI.email u = AuthAPI.cand_email cand) ->
  Forall (fun ch => (ch <= 255)%N) (AuthAPI.cand_email cand) ->
  exists tok,
    AuthAPI.login (fst (AuthAPI.register store cand i c))
      {| AuthAPI.cred_email := AuthAPI.cand_email cand;
         AuthAPI.cred_password := AuthAPI.cand_password cand |} now
    = Ret {| AuthAPI.success := true;
             AuthAPI.message := Some "Login successful"%string;
             AuthAPI.token := Some tok;
             AuthAPI.user :=
               Some {| AuthAPI.pub_id := i;
                       AuthAPI.pub_username := AuthAPI.cand_username cand;
                       AuthAPI.pub_email := AuthAPI.cand_email cand;
                       AuthAPI.pub_createdAt := Some c |} |}
    /\ Token.decode tok
       = Ret (Token.payload i (AuthAPI.cand_email cand) (now + 86400000)).
Proof. apply login_after_register. Qed.

Lemma X3_witness :
  exists tok,
    AuthAPI.login (fst (AuthAPI.register AuthAPI.mockUsers new_candidate 7 8))
      {| AuthAPI.cred_email := js "ada@example.com";
         AuthAPI.cred_password := js "secret1" |} 1000
    = Ret {| AuthAPI.success := true;
             AuthAPI.message := Some "Login successful"%string;
             AuthAPI.token := Some tok;
             AuthAPI.user :=
               Some {| AuthAPI.pub_id := 7;
                       AuthAPI.pub_username := js "ada";
                       AuthAPI.pub_email := js "ada@example.com";
                       AuthAPI.pub_createdAt := Some 8 |} |}
    /\ Token.decode tok
       = Ret (Token.payload 7 (js "ada@example.com") (1000 + 86400000)).
Proof.
  apply (X3_registered_account_can_sign_in AuthAPI.mockUsers new_candidate 7 8 1000).
  - intros [u [[<- | []] E]]. vm_compute in E. discriminate E.
  - vm_compute. repeat constructor; discriminate.
Defined.

(** X4.  A token that [login] issued at [now] is refused by
    [verifyToken] as expired from the first millisecond after
    [now + 24h], and until then is answered with the first identity of
    the store, in its order, that has the signed-in identity's id; that
    is the signed-in identity itself when ids are distinct. *)
Theorem X4_issued_token_verifies_for_a_day
    (store : list AuthAPI.identity) (creds : AuthAPI.credentials) (now : Z)
    (r : AuthAPI.response) (tok : jsstring) :
  AuthAPI.login store creds now = Ret r ->
  AuthAPI.token r = Some tok ->
  exists u w,
    find (AuthAPI.matches creds) store = Some u
    /\ AuthAPI.user r = Some (AuthAPI.without_password u)
    /\ find (fun x => AuthAPI.id x =? AuthAPI.id u) store = Some w
    /\ In w store /\ AuthAPI.id w = AuthAPI.id u
    /\ (NoDup (map AuthAPI.id store) -> w = u)
    /\ forall later,
         AuthAPI.verifyToken store tok later
         = Ret (if now + 86400000 <? later then AuthAPI.TokenExpired
                else AuthAPI.granted w).
Proof.
  intros L T. unfold AuthAPI.login in L.
  destruct (find (AuthAPI.matches creds) store) as [u|] eqn:F;
    [|injection L as <-; discriminate T].
  destruct (Token.encode (AuthAPI.id u) (AuthAPI.email u) (now + AuthAPI.ttl))
    as [t| |] eqn:E; cbn [bind] in L; try discriminate L.
  injection L as <-. cbn in T. injection T as ->.
  pose proof (find_some _ _ F) as [Hin _].
  destruct (find (fun x => AuthAPI.id x =? AuthAPI.id u) store) as [w|] eqn:G.
  - pose proof (find_some _ _ G) as [Hw Hid]. apply Z.eqb_eq in Hid.
    exists u, w. split; [reflexivity|]. split; [reflexivity|].
    split; [exact G|]. split; [exact Hw|]. split; [exact Hid|]. split.
    + intros Hnd. clear - Hin Hw Hid Hnd.
      induction store as [|x store IH]; [destruct Hin|].
      simpl in Hnd. inversion Hnd as [|? ? Hx Hnd']; subst.
      destruct Hin as [-> | Hin], Hw as [-> | Hw]; auto.
      * exfalso. apply Hx. rewrite <- Hid. apply in_map. exact Hw.
      * exfalso. apply Hx. rewrite Hid. apply in_map. exact Hin.
    + intros later. rewrite (verifyToken_encoded _ _ _ _ _ later E), G.
      reflexivity.
  - exfalso. apply (find_none _ _ G) in Hin. rewrite Z.eqb_refl in Hin.
    discriminate Hin.
Qed.

Lemma X4_witness :
  exists u w,
    find (AuthAPI.matches {| AuthAPI.cred_email := js "demo@example.com";
                            AuthAPI.cred_password := js "demo123" |})
         AuthAPI.mockUsers = Some u
    /\ Some (AuthAPI.without_password demo_identity)
       = Some (AuthAPI.without_password u)
    /\ find (fun x => AuthAPI.id x =? AuthAPI.id u) AuthAPI.mockUsers = Some w
    /\ In w AuthAPI.mockUsers /\ AuthAPI.id w = AuthAPI.id u
    /\ (NoDup (map AuthAPI.id AuthAPI.mockUsers) -> w = u)
    /\ forall later,
         AuthAPI.verifyToken AuthAPI.mockUsers (demo_token (1000 + 86400000)) later
         = Ret (if 1000 + 86400000 <? later then AuthAPI.TokenExpired
                else AuthAPI.granted w).
Proof.
  apply (X4_issued_token_verifies_for_a_day AuthAPI.mockUsers
           {| AuthAPI.cred_email := js "demo@example.com";
              AuthAPI.cred_password := js "demo123" |} 1000
           {| AuthAPI.success := true;
              AuthAPI.message := Some "Login successful"%string;
              AuthAPI.token := Some (demo_token (1000 + 86400000));
              AuthAPI.user := Some (AuthAPI.without_password demo_identity) |}).
  - vm_compute. reflexivity.
  - reflexivity.
Defined.

(** X5.  [verifyToken] asks for no secret: a payload that names the id
    of a stored identity and an expiry that has not passed, encoded the
    way [login] encodes, is answered with success for an identity with
    that id, whatever address the payload carries. *)
Theorem X5_verifyToken_accepts_any_encoded_payload
    (store : list AuthAPI.identity) (u : AuthAPI.identity)
    (address : jsstring) (exp now : Z) :
  In u store ->
  now <= exp ->
  Forall (fun ch => (ch <= 255)%N) address ->
  exists tok w,
    Token.encode (AuthAPI.id u) address exp = Ret tok
    /\ In w store /\ AuthAPI.id w = AuthAPI.id u
    /\ AuthAPI.verifyToken store tok now = Ret (AuthAPI.granted w).
Proof.
  intros Hin Hexp Hbytes.
  pose proof (encode_latin1 (AuthAPI.id u) address exp Hbytes) as E.
  destruct (find (fun x => AuthAPI.id x =? AuthAPI.id u) store) as [w|] eqn:G.
  - pose proof (find_some _ _ G) as [Hw Hid]. apply Z.eqb_eq in Hid.
    eexists. exists w. split; [exact E|]. repeat split; auto.
    rewrite (verifyToken_encoded _ _ _ _ _ now E), G.
    destruct (Z.ltb_spec exp now); [lia | reflexivity].
  - exfalso. apply (find_none _ _ G) in Hin. rewrite Z.eqb_refl in Hin.
    discriminate Hin.
Qed.

Lemma X5_witness :
  exists tok w,
    Token.encode 1 (js "nobody@nowhere") 5000 = Ret tok
    /\ In w AuthAPI.mockUsers /\ AuthAPI.id w = 1
    /\ AuthAPI.verifyToken AuthAPI.mockUsers tok 4000 = Ret (AuthAPI.granted w).
Proof.
  apply (X5_verifyToken_accepts_any_encoded_payload AuthAPI.mockUsers
           demo_identity (js "nobody@nowhere") 5000 4000).
  - left. reflexivity.
  - lia.
  - vm_compute. repeat constructor; discriminate.
Defined.

(** X6.  A token whose payload has no [exp] never expires for
    [sessionManager] and [authAPI] and is never valid for the provider:
    at every instant [sessionManager.verifyToken] answers true and
    keeps the session, [getSessionDuration] is NaN,
    [authAPI.verifyToken] gives the answer it gives at any other
    instant, which is neither "Token expired" nor "Token verification
    failed", and [verifyStoredToken] answers false. *)
Theorem X6_token_without_expiry
    (tok : jsstring) (decoded : value) (store : list AuthAPI.identity)
    (st : SessionManager.state) (now : Z) :
  Token.decode tok = Ret decoded ->
  get_field decoded (js "exp") = Ret VUndefined ->
  SessionManager.token (SessionManager.currentSession st) = Some tok ->
  SessionManager.verifyToken now st = (st, Ret true)
  /\ SessionManager.getSessionDuration now st = Ret NaN
  /\ SessionProvider.verifyStoredToken tok now = Ret false
  /\ AuthAPI.verifyToken store tok now = AuthAPI.verifyToken store tok 0
  /\ AuthAPI.verifyToken store tok now <> Ret AuthAPI.TokenExpired
  /\ AuthAPI.verifyToken store tok now <> Ret AuthAPI.TokenInvalid.
Proof.
  intros D G T.
  assert (Hne : exists c t, tok = c :: t).
  { destruct tok as [|c t]; [rewrite decode_nil in D; discriminate D|eauto]. }
  destruct Hne as [c [t ->]].
  split; [|split; [|split]].
  - apply (verifyToken_unexpired now st _ _ _ T D G). reflexivity.
  - unfold SessionManager.getSessionDuration. rewrite T, D. cbn [bind].
    rewrite G. reflexivity.
  - unfold SessionProvider.verifyStoredToken. rewrite D. cbn [bind].
    rewrite G. reflexivity.
  - assert (V : forall n,
               AuthAPI.verifyToken store (c :: t) n
               = try_catch
                   (uid <- get_field decoded (js "userId") ;;
                    found <- AuthAPI.find_by_id uid store ;;
                    match found with
                    | None => Ret AuthAPI.UserNotFound
                    | Some u => Ret (AuthAPI.granted u)
                    end)
                   (fun _ => Ret AuthAPI.TokenInvalid)).
    { intros n. unfold AuthAPI.verifyToken. rewrite D. cbn [bind].
      rewrite G. reflexivity. }
    rewrite !V. split; [reflexivity|].
    destruct (get_field decoded (js "userId")) as [uid| |] eqn:U.
    + cbn [bind].
      destruct (AuthAPI.find_by_id uid store) as [[u|]| |] eqn:F; cbn;
        try (split; discriminate).
      exfalso. exact (find_by_id_no_throw _ _ _ F).
    + apply get_field_throw_inv in U. destruct U as [-> | ->]; discriminate G.
    + cbn. split; discriminate.
Qed.

Lemma X6_witness :
  SessionManager.verifyToken 4102444800000 (demo_session (js "e30="))
  = (demo_session (js "e30="), Ret true)
  /\ SessionManager.getSessionDuration 4102444800000 (demo_session (js "e30="))
     = Ret NaN
  /\ SessionProvider.verifyStoredToken (js "e30=") 4102444800000 = Ret false
  /\ AuthAPI.verifyToken AuthAPI.mockUsers (js "e30=") 4102444800000
     = AuthAPI.verifyToken AuthAPI.mockUsers (js "e30=") 0
  /\ AuthAPI.verifyToken AuthAPI.mockUsers (js "e30=") 4102444800000
     <> Ret AuthAPI.TokenExpired
  /\ AuthAPI.verifyToken AuthAPI.mockUsers (js "e30=") 4102444800000
     <> Ret AuthAPI.TokenInvalid.
Proof.
  apply (X6_token_without_expiry (js "e30=") (VObj [])).
  - vm_compute. reflexivity.
  - reflexivity.
  - reflexivity.
Defined.

(** X7.  [login] has three outcomes and no other.  With no identity of
    that address and password it answers "Invalid email or password".
    Otherwise the first such identity decides: when the JSON text of
    the address fits in bytes the response describes that identity and
    its token decodes to its id, its address and [now + 24h]; when it
    does not, [btoa] raises and there is no response. *)
Theorem X7_login_outcomes
    (store : list AuthAPI.identity) (creds : AuthAPI.credentials) (now : Z) :
  (AuthAPI.login store creds now = Ret AuthAPI.InvalidCredentials
   /\ forall u, In u store ->
        ~ (AuthAPI.email u = AuthAPI.cred_email creds
           /\ AuthAPI.password u = AuthAPI.cred_password creds))
  \/ (exists u,
        In u store
        /\ AuthAPI.email u = AuthAPI.cred_email creds
        /\ AuthAPI.password u = AuthAPI.cred_password creds
        /\ ((Forall (fun ch => (ch <= 255)%N)
                    (Json.quote_body (AuthAPI.cred_email creds))
             /\ exists tok,
                  AuthAPI.login store creds now
                  = Ret {| AuthAPI.success := true;
                           AuthAPI.message := Some "Login successful"%string;
                           AuthAPI.token := Some tok;
                           AuthAPI.user := Some (AuthAPI.without_password u) |}
                  /\ Token.decode tok
                     = Ret (Token.payload (AuthAPI.id u) (AuthAPI.email u)
                              (now + 86400000)))
            \/ (~ Forall (fun ch => (ch <= 255)%N)
                         (Json.quote_body (AuthAPI.cred_email creds))
                /\ AuthAPI.login store creds now = Throw InvalidCharacterError))).
Proof.
  destruct (find (AuthAPI.matches creds) store) as [u|] eqn:F.
  - right. exists u. pose proof (find_some _ _ F) as [Hin Hm].
    apply matches_spec in Hm. destruct Hm as [He Hp].
    split; [exact Hin|]. split; [exact He|]. split; [exact Hp|].
    rewrite (login_first_match _ _ now _ F). rewrite <- He.
    destruct (forallb (fun c => (c <=? 255)%N)
                (Token.payload_text (AuthAPI.id u) (AuthAPI.email u)
                   (now + AuthAPI.ttl))) eqn:B.
    + left. split.
      * apply payload_text_latin1 with (userId := AuthAPI.id u)
                                       (exp := now + AuthAPI.ttl).
        apply forallb_latin1. exact B.
      * eexists. split; [reflexivity|].
        change (now + 86400000) with (now + AuthAPI.ttl).
        apply decode_encode. unfold Token.encode.
        rewrite JsonFacts.stringify_payload. cbn [bind].
        unfold Base64.btoa. rewrite B. reflexivity.
    + right. split; [|reflexivity].
      intros H.
      apply (payload_text_latin1 (AuthAPI.id u) (AuthAPI.email u)
               (now + AuthAPI.ttl)) in H.
      apply forallb_latin1 in H. rewrite H in B. discriminate B.
  - left. split; [apply login_no_match; exact F|].
    intros u Hin Hm. apply matches_spec in Hm.
    apply (find_none _ _ F) in Hin. rewrite Hm in Hin. discriminate Hin.
Qed.

(** ** Objects *)

Section ObjectFacts.

Lemma lookup_set_field k k' v o :
  lookup k (set_field k' v o)
  = if jsstring_eqb k k' then Some v else lookup k o.
Proof.
  induction o as [|[k1 v1] o IH]; simpl.
  - destruct (jsstring_eqb k k'); reflexivity.
  - destruct (jsstring_eqb k' k1) eqn:E1; simpl.
    + apply jsstring_eqb_eq in E1. subst k1.
      destruct (jsstring_eqb k k'); reflexivity.
    + destruct (jsstring_eqb k k1) eqn:E2.
      * apply jsstring_eqb_eq in E2. subst k1.
        destruct (jsstring_eqb k k') eqn:E3; [|reflexivity].
        apply jsstring_eqb_eq in E3. subst k'.
        rewrite jsstring_eqb_refl in E1. discriminate E1.
      * exact IH.
Qed.

Lemma lookup_app k o1 o2 :
  lookup k (o1 ++ o2)
  = match lookup k o1 with Some v => Some v | None => lookup k o2 end.
Proof.
  induction o1 as [|[k1 v1] o1 IH]; simpl; [reflexivity|].
  destruct (jsstring_eqb k k1); [reflexivity | exact IH].
Qed.

(** In [{ ...a, ...b }] the last binding of a name in [b] wins, and a
    name that [b] does not bind keeps the value it has in [a]. *)
Lemma lookup_spread k a b :
  lookup k (spread a b)
  = match lookup k (rev b) with Some v => Some v | None => lookup k a end.
Proof.
  unfold spread. revert a.
  induction b as [|[k1 v1] b IH]; intros a; simpl; [reflexivity|].
  rewrite IH, lookup_app. simpl.
  destruct (lookup k (rev b)); [reflexivity|].
  rewrite lookup_set_field. destruct (jsstring_eqb k k1); reflexivity.
Qed.

Lemma lookup_not_in k o : ~ In k (map fst o) -> lookup k o = None.
Proof.
  induction o as [|[k1 v1] o IH]; simpl; [reflexivity|].
  intros H. destruct (jsstring_eqb k k1) eqn:E.
  - apply jsstring_eqb_eq in E. exfalso. apply H. left. symmetry. exact E.
  - apply IH. intros H1. apply H. right. exact H1.
Qed.

(** An object binds each of its names once; reading it backwards then
    finds the same values. *)
Lemma lookup_rev k o : NoDup (map fst o) -> lookup k (rev o) = lookup k o.
Proof.
  induction o as [|[k1 v1] o IH]; simpl; [reflexivity|].
  intros H. inversion H as [|? ? Hk Hnd]; subst.
  rewrite lookup_app, (IH Hnd). simpl.
  destruct (jsstring_eqb k k1) eqn:E.
  - apply jsstring_eqb_eq in E. subst k1.
    rewrite (lookup_not_in _ _ Hk). reflexivity.
  - destruct (lookup k o); reflexivity.
Qed.

End ObjectFacts.

(** X8.  [sessionManager.updateUser] on a session that has a user
    answers true, keeps the token and the flag, announces the new user,
    and merges field by field: a name that [updates] binds reads as
    [updates] has it, any other name reads as before. *)
Theorem X8_updateUser_merges_fields
    (st : SessionManager.state) (u updates : object) :
  SessionManager.user (SessionManager.currentSession st) = Some u ->
  NoDup (map fst updates) ->
  exists u',
    SessionManager.updateUser (Some updates) st
    = ({| SessionManager.currentSession :=
            {| SessionManager.user := Some u';
               SessionManager.token :=
                 SessionManager.token (SessionManager.currentSession st);
               SessionManager.isAuthenticated :=
                 SessionManager.isAuthenticated (SessionManager.currentSession st) |};
          SessionManager.dispatched :=
            SessionManager.dispatched st ++ [SessionManager.SessionUpdate u'] |},
       Ret true)
    /\ forall k,
         lookup k u'
         = match lookup k updates with
           | Some v => Some v
           | None => lookup k u
           end.
Proof.
  intros Hu Hnd. exists (spread u updates). split.
  - unfold SessionManager.updateUser. rewrite Hu. reflexivity.
  - intros k. rewrite lookup_spread, (lookup_rev _ _ Hnd). reflexivity.
Qed.

Lemma X8_witness :
  exists u',
    SessionManager.updateUser
      (Some [(js "username", VStr (js "demo2")); (js "role", VStr (js "admin"))])
      (demo_session (demo_token 3000))
    = ({| SessionManager.currentSession :=
            {| SessionManager.user := Some u';
               SessionManager.token :=
                 SessionManager.token
                   (SessionManager.currentSession (demo_session (demo_token 3000)));
               SessionManager.isAuthenticated :=
                 SessionManager.isAuthenticated
                   (SessionManager.currentSession (demo_session (demo_token 3000))) |};
          SessionManager.dispatched :=
            SessionManager.dispatched (demo_session (demo_token 3000))
            ++ [SessionManager.SessionUpdate u'] |},
       Ret true)
    /\ forall k,
         lookup k u'
         = match lookup k [(js "username", VStr (js "demo2"));
                           (js "role", VStr (js "admin"))] with
           | Some v => Some v
           | None => lookup k demo_user
           end.
Proof.
  apply (X8_updateUser_merges_fields (demo_session (demo_token 3000)) demo_user).
  - reflexivity.
  - vm_compute. repeat constructor; simpl; intuition discriminate.
Defined.

(** X9.  A call of the session holder that returns normally dispatches
    at most one event and never touches the events dispatched before;
    when it changes the session it dispatches one.  The event describes
    the session it leaves: a login or update event carries the stored
    user, and a logout event comes with the empty session. *)
Theorem X9_session_changes_are_announced
    (c : SessionManager.call) (st : SessionManager.state) (b : bool) :
  snd (SessionManager.exec c st) = Ret b ->
  exists evs,
    SessionManager.dispatched (fst (SessionManager.exec c st))
    = SessionManager.dispatched st ++ evs
    /\ (List.length evs <= 1)%nat
    /\ (SessionManager.currentSession (fst (SessionManager.exec c st))
        <> SessionManager.currentSession st -> evs <> [])
    /\ forall ev, In ev evs ->
         match ev with
         | SessionManager.SessionLogin d | SessionManager.SessionUpdate d =>
             SessionManager.user
               (SessionManager.currentSession (fst (SessionManager.exec c st)))
             = Some d
         | SessionManager.SessionLogout =>
             SessionManager.currentSession (fst (SessionManager.exec c st))
             = SessionManager.currentSession SessionManager.initial
         end.
Proof.
  assert (Quiet : forall s : SessionManager.state,
             exists evs,
               SessionManager.dispatched s = SessionManager.dispatched s ++ evs
               /\ (List.length evs <= 1)%nat
               /\ (SessionManager.currentSession s
                   <> SessionManager.currentSession s -> evs <> [])
               /\ forall ev, In ev evs ->
                    match ev with
                    | SessionManager.SessionLogin d
                    | SessionManager.SessionUpdate d =>
                        SessionManager.user (SessionManager.currentSession s)
                        = Some d
                    | SessionManager.SessionLogout =>
                        SessionManager.currentSession s
                        = SessionManager.currentSession SessionManager.initial
                    end).
  { intros s. exists []. rewrite List.app_nil_r.
    repeat split; auto. intros ev []. }
  assert (Loud : forall (s : SessionManager.session) ev,
             match ev with
             | SessionManager.SessionLogin d | SessionManager.SessionUpdate d =>
                 SessionManager.user s = Some d
             | SessionManager.SessionLogout =>
                 s = SessionManager.currentSession SessionManager.initial
             end ->
             exists evs,
               SessionManager.dispatched st ++ [ev]
               = SessionManager.dispatched st ++ evs
               /\ (List.length evs <= 1)%nat
               /\ (s <> SessionManager.currentSession st -> evs <> [])
               /\ forall ev', In ev' evs ->
                    match ev' with
                    | SessionManager.SessionLogin d
                    | SessionManager.SessionUpdate d =>
                        SessionManager.user s = Some d
                    | SessionManager.SessionLogout =>
                        s = SessionManager.currentSession SessionManager.initial
                    end).
  { intros s ev H. exists [ev]. repeat split; auto.
    - intros _. discriminate.
    - intros ev' [<- | []]. exact H. }
  intros H.
  destruct c as [u t r | | upd | now | ]; cbn [SessionManager.exec] in *.
  - destruct u as [u|]; [|discriminate H].
    exact (Loud (SessionManager.currentSession
                   (fst (SessionManager.login (Some u) t r st)))
                (SessionManager.SessionLogin u) eq_refl).
  - exact (Loud (SessionManager.currentSession (fst (SessionManager.logout st)))
                SessionManager.SessionLogout eq_refl).
  - unfold SessionManager.updateUser in *.
    destruct (SessionManager.user (SessionManager.currentSession st)) as [u|];
      [|exact (Quiet st)].
    match goal with
    | |- exists evs, SessionManager.dispatched (fst (?s', _)) = _ /\ _ =>
        exact (Loud (SessionManager.currentSession s')
                    (SessionManager.SessionUpdate _) eq_refl)
    end.
  - unfold SessionManager.verifyToken in *.
    destruct (SessionManager.token (SessionManager.currentSession st))
      as [[|ch t]|]; try exact (Quiet st).
    destruct (SessionManager.expiry_test (ch :: t) now) as [[|]| |];
      try exact (Quiet st).
    exact (Loud (SessionManager.currentSession (fst (SessionManager.logout st)))
                SessionManager.SessionLogout eq_refl).
  - exact (Quiet st).
Qed.

Lemma X9_witness :
  exists evs,
    SessionManager.dispatched
      (fst (SessionManager.exec (SessionManager.VerifyToken 4000)
              (demo_session (demo_token 3000))))
    = SessionManager.dispatched (demo_session (demo_token 3000)) ++ evs
    /\ (List.length evs <= 1)%nat
    /\ (SessionManager.currentSession
          (fst (SessionManager.exec (SessionManager.VerifyToken 4000)
                  (demo_session (demo_token 3000))))
        <> SessionManager.currentSession (demo_session (demo_token 3000)) ->
        evs <> [])
    /\ forall ev, In ev evs ->
         match ev with
         | SessionManager.SessionLogin d | SessionManager.SessionUpdate d =>
             SessionManager.user
               (SessionManager.currentSession
                  (fst (SessionManager.exec (SessionManager.VerifyToken 4000)
                          (demo_session (demo_token 3000)))))
             = Some d
         | SessionManager.SessionLogout =>
             SessionManager.currentSession
               (fst (SessionManager.exec (SessionManager.VerifyToken 4000)
                       (demo_session (demo_token 3000))))
             = SessionManager.currentSession SessionManager.initial
         end.
Proof.
  apply (X9_session_changes_are_announced (SessionManager.VerifyToken 4000)
           (demo_session (demo_token 3000)) false).
  vm_compute. reflexivity.
Defined.

(** X10.  With a token whose expiry is a number, [verifyToken] answers
    true exactly when [getSessionDuration] is not negative: it keeps
    the session when the whole minutes left are zero or more and logs
    out when they are below zero. *)
Theorem X10_verifyToken_agrees_with_duration
    (st : SessionManager.state) (tok : jsstring) (decoded : value)
    (exp now : Z) :
  SessionManager.token (SessionManager.currentSession st) = Some tok ->
  Token.decode tok = Ret decoded ->
  get_field decoded (js "exp") = Ret (VNum exp) ->
  exists minutes,
    SessionManager.getSessionDuration now st = Ret (Int minutes)
    /\ SessionManager.verifyToken now st
       = if 0 <=? minutes then (st, Ret true)
         else (fst (SessionManager.logout st), Ret false).
Proof.
  intros T D G. exists ((exp - now) / 60000). split.
  - unfold SessionManager.getSessionDuration. rewrite T.
    destruct tok as [|c t]; [rewrite decode_nil in D; discriminate D|].
    rewrite D. cbn [bind]. rewrite G. cbn [bind js_sub to_number try_catch].
    rewrite floor_div_1000_60_Int. reflexivity.
  - destruct (Z.leb_spec 0 ((exp - now) / 60000)) as [L | L].
    + apply (verifyToken_unexpired now st _ _ _ T D G).
      rewrite js_lt_num. f_equal. apply Z.ltb_ge.
      assert (0 <= exp - now); [|lia].
      destruct (Z.lt_ge_cases (exp - now) 0) as [N | N]; [|exact N].
      exfalso. div_lia.
    + apply (verifyToken_expired now st _ _ _ T D G).
      rewrite js_lt_num. f_equal. apply Z.ltb_lt.
      assert (exp - now < 0); [|lia].
      destruct (Z.lt_ge_cases (exp - now) 0) as [N | N]; [exact N|].
      exfalso. div_lia.
Qed.

Lemma X10_witness :
  exists minutes,
    SessionManager.getSessionDuration 4000 (demo_session (demo_token 3000))
    = Ret (Int minutes)
    /\ SessionManager.verifyToken 4000 (demo_session (demo_token 3000))
       = if 0 <=? minutes then (demo_session (demo_token 3000), Ret true)
         else (fst (SessionManager.logout (demo_session (demo_token 3000))),
               Ret false).
Proof.
  apply (X10_verifyToken_agrees_with_duration
           (demo_session (demo_token 3000)) (demo_token 3000)
           (demo_payload 3000) 3000 4000).
  - reflexivity.
  - vm_compute. reflexivity.
  - reflexivity.
Defined.

(** X11.  On a token whose expiry is a number the three expiry tests
    are: the provider accepts when [now < exp], the session holder and
    the service accept when [now <= exp].  They give the same verdict
    at every instant but [now = exp]. *)
Theorem X11_expiry_tests_differ_only_at_the_boundary
    (st : SessionManager.state) (store : list AuthAPI.identity)
    (tok : jsstring) (decoded : value) (exp now : Z) :
  SessionManager.token (SessionManager.currentSession st) = Some tok ->
  Token.decode tok = Ret decoded ->
  get_field decoded (js "exp") = Ret (VNum exp) ->
  SessionProvider.verifyStoredToken tok now = Ret (now <? exp)
  /\ snd (SessionManager.verifyToken now st) = Ret (now <=? exp)
  /\ (AuthAPI.verifyToken store tok now = Ret AuthAPI.TokenExpired
      <-> exp < now)
  /\ (now <> exp ->
      SessionProvider.verifyStoredToken tok now
      = snd (SessionManager.verifyToken now st)).
Proof.
  intros T D G.
  assert (P : SessionProvider.verifyStoredToken tok now = Ret (now <? exp)).
  { unfold SessionProvider.verifyStoredToken. rewrite D. cbn [bind].
    rewrite G. reflexivity. }
  assert (M : snd (SessionManager.verifyToken now st) = Ret (now <=? exp)).
  { destruct (Z.leb_spec now exp) as [L | L].
    - rewrite (verifyToken_unexpired now st _ _ _ T D G); [reflexivity|].
      rewrite js_lt_num. f_equal. apply Z.ltb_ge. exact L.
    - rewrite (verifyToken_expired now st _ _ _ T D G); [reflexivity|].
      rewrite js_lt_num. f_equal. apply Z.ltb_lt. exact L. }
  split; [exact P|]. split; [exact M|]. split.
  - unfold AuthAPI.verifyToken. rewrite D. cbn [bind]. rewrite G. cbn [bind].
    rewrite js_lt_num. cbn [bind].
    destruct (Z.ltb_spec exp now) as [L | L].
    + split; [intros _; exact L | reflexivity].
    + split; [|lia]. intros H. exfalso.
      destruct (get_field decoded (js "userId")) as [uid| |]; cbn in H;
        try discriminate H.
      destruct (AuthAPI.find_by_id uid store) as [[u|]| |]; cbn in H;
        discriminate H.
  - intros N. rewrite P, M. f_equal.
    destruct (Z.ltb_spec now exp), (Z.leb_spec now exp); try reflexivity; lia.
Qed.

Lemma X11_witness :
  SessionProvider.verifyStoredToken (demo_token 3000) 2000 = Ret (2000 <? 3000)
  /\ snd (SessionManager.verifyToken 2000 (demo_session (demo_token 3000)))
     = Ret (2000 <=? 3000)
  /\ (AuthAPI.verifyToken AuthAPI.mockUsers (demo_token 3000) 2000
      = Ret AuthAPI.TokenExpired <-> 3000 < 2000)
  /\ (2000 <> 3000 ->
      SessionProvider.verifyStoredToken (demo_token 3000) 2000
      = snd (SessionManager.verifyToken 2000 (demo_session (demo_token 3000)))).
Proof.
  apply (X11_expiry_tests_differ_only_at_the_boundary
           (demo_session (demo_token 3000)) AuthAPI.mockUsers (demo_token 3000)
           (demo_payload 3000) 3000 2000).
  - reflexivity.
  - vm_compute. reflexivity.
  - reflexivity.
Defined.

(** ** The address pattern *)

Module RegexFacts.
Import Regex.

Lemma nullable_lang r : nullable r = true <-> lang r [].
Proof.
  induction r as [| |p|r1 IH1 r2 IH2|r1 IH1 r2 IH2|r IH]; simpl.
  - split; [discriminate | intros H; inversion H].
  - split; [intros _; constructor | reflexivity].
  - split; [discriminate | intros H; inversion H].
  - rewrite andb_true_iff, IH1, IH2. split.
    + intros [H1 H2]. exact (lang_cat _ _ [] [] H1 H2).
    + intros H. inversion H as [| |? ? s1 s2 H1 H2| | | |]; subst.
      match goal with
      | E : s1 ++ s2 = [] |- _ => apply app_eq_nil in E; destruct E; subst; auto
      end.
  - rewrite orb_true_iff, IH1, IH2. split.
    + intros [H | H]; [apply lang_alt_l | apply lang_alt_r]; exact H.
    + intros H. inversion H; subst; auto.
  - split; [intros _; constructor | reflexivity].
Qed.

(** A string of [r*] that is not empty starts with a string of [r] that
    is not empty. *)
Lemma star_cons_inv r c s :
  lang (Star r) (c :: s) ->
  exists s1 s2, s = s1 ++ s2 /\ lang r (c :: s1) /\ lang (Star r) s2.
Proof.
  intros H. remember (Star r) as r' eqn:Er. remember (c :: s) as w eqn:Ew.
  revert s Ew.
  induction H as [| | | | | |r0 s1 s2 H1 _ H2 IH2]; try discriminate Er.
  - intros s Ew. discriminate Ew.
  - injection Er as ->. intros s Ew.
    destruct s1 as [|c1 s1].
    + simpl in Ew. exact (IH2 eq_refl s Ew).
    + simpl in Ew. injection Ew as -> <-.
      exists s1, s2. auto.
Qed.

Lemma deriv_lang c r : forall s, lang (deriv c r) s <-> lang r (c :: s).
Proof.
  induction r as [| |p|r1 IH1 r2 IH2|r1 IH1 r2 IH2|r IH]; intros s; simpl.
  - split; intros H; inversion H.
  - split; intros H; inversion H.
  - destruct (p c) eqn:P; split; intros H; inversion H; subst.
    + constructor. exact P.
    + constructor.
    + congruence.
  - assert (L : lang (Cat (deriv c r1) r2) s -> lang (Cat r1 r2) (c :: s)).
    { intros H. inversion H as [| |? ? s1 s2 H1 H2| | | |]; subst.
      apply IH1 in H1. exact (lang_cat _ _ (c :: s1) s2 H1 H2). }
    assert (R : lang (Cat r1 r2) (c :: s) ->
                lang (Cat (deriv c r1) r2) s
                \/ (lang r1 [] /\ lang (deriv c r2) s)).
    { intros H. remember (c :: s) as w eqn:Ew.
      inversion H as [| |? ? s1 s2 H1 H2| | | |]; subst.
      match goal with E : s1 ++ s2 = c :: s |- _ => rename E into Ew end.
      destruct s1 as [|c1 s1]; simpl in Ew.
      - subst s2. right. split; [exact H1 | apply IH2; exact H2].
      - injection Ew as -> <-. left.
        constructor; [apply IH1; exact H1 | exact H2]. }
    destruct (nullable r1) eqn:N.
    + split.
      * intros H. inversion H; subst; [auto|].
        apply nullable_lang in N.
        match goal with
        | H2 : lang (deriv c r2) s |- _ =>
            apply IH2 in H2; exact (lang_cat _ _ [] (c :: s) N H2)
        end.
      * intros H. destruct (R H) as [H1 | [_ H2]];
          [apply lang_alt_l | apply lang_alt_r]; assumption.
    + split; [exact L|].
      intros H. destruct (R H) as [H1 | [H0 _]]; [exact H1|].
      apply nullable_lang in H0. congruence.
  - split; intros H; inversion H; subst.
    + apply lang_alt_l. apply IH1. assumption.
    + apply lang_alt_r. apply IH2. assumption.
    + apply lang_alt_l. apply IH1. assumption.
    + apply lang_alt_r. apply IH2. assumption.
  - split.
    + intros H. inversion H as [| |? ? s1 s2 H1 H2| | | |]; subst.
      apply IH in H1. exact (lang_star_cons _ (c :: s1) s2 H1 H2).
    + intros H. apply star_cons_inv in H. destruct H as [s1 [s2 [-> [H1 H2]]]].
      constructor; [apply IH; exact H1 | exact H2].
Qed.

(** [test] decides membership. *)
Lemma test_lang : forall s r, test r s = true <-> lang r s.
Proof.
  induction s as [|c s IH]; intros r; simpl.
  - apply nullable_lang.
  - rewrite IH. apply deriv_lang.
Qed.

Lemma star_class p s : lang (Star (Class p)) s <-> forallb p s = true.
Proof.
  split.
  - induction s as [|c s IH]; intros H; [reflexivity|].
    apply star_cons_inv in H. destruct H as [s1 [s2 [-> [H1 H2]]]].
    inversion H1; subst. simpl.
    match goal with P : p c = true |- _ => rewrite P end.
    apply IH. exact H2.
  - induction s as [|c s IH]; simpl; intros H; [constructor|].
    apply andb_true_iff in H. destruct H as [P H].
    apply (lang_star_cons _ [c] s); [constructor; exact P | exact (IH H)].
Qed.

Lemma plus_class p s :
  lang (Plus (Class p)) s <-> s <> [] /\ forallb p s = true.
Proof.
  unfold Plus. split.
  - intros H. inversion H as [| |? ? s1 s2 H1 H2| | | |]; subst.
    inversion H1; subst. apply star_class in H2. simpl. split; [discriminate|].
    match goal with P : p _ = true |- _ => rewrite P end. exact H2.
  - intros [N H]. destruct s as [|c s]; [contradiction N; reflexivity|].
    simpl in H. apply andb_true_iff in H. destruct H as [P H].
    apply (lang_cat _ _ [c] s); [constructor; exact P | apply star_class; exact H].
Qed.

Lemma address_units s :
  forallb address_unit s = true
  <-> Forall (fun c => is_space c = false /\ c <> 64%N) s.
Proof.
  rewrite forallb_forall, Forall_forall. unfold address_unit.
  split; intros H c Hc; specialize (H c Hc).
  - apply andb_true_iff in H. destruct H as [H1 H2].
    apply negb_true_iff in H1, H2. apply N.eqb_neq in H2. auto.
  - destruct H as [H1 H2]. rewrite H1. apply N.eqb_neq in H2. rewrite H2.
    reflexivity.
Qed.

End RegexFacts.

(** X12.  [validateEmail] accepts exactly the strings of the shape
    [local @ domain . rest] in which the three parts are not empty and
    hold neither white space nor another [@].  The domain and the rest
    may themselves hold dots. *)
Theorem X12_validateEmail_accepts_exactly
    (address : jsstring) :
  Forms.validateEmail address = true
  <-> exists loc domain rest,
        address = loc ++ 64%N :: domain ++ 46%N :: rest
        /\ loc <> [] /\ domain <> [] /\ rest <> []
        /\ Forall (fun c => Regex.is_space c = false /\ c <> 64%N)
                  (loc ++ domain ++ rest).
Proof.
  unfold Forms.validateEmail. rewrite RegexFacts.test_lang.
  unfold Regex.email_pattern. split.
  - intros H.
    inversion H as [| |? ? loc s1 Hl H1| | | |]; subst.
    inversion H1 as [| |? ? at_ s2 Ha H2| | | |]; subst.
    inversion H2 as [| |? ? domain s3 Hd H3| | | |]; subst.
    inversion H3 as [| |? ? dot rest Hp Hr| | | |]; subst.
    inversion Ha as [|? c Pc| | | | |]; subst. apply N.eqb_eq in Pc. subst c.
    inversion Hp as [|? c Pc| | | | |]; subst. apply N.eqb_eq in Pc. subst c.
    apply RegexFacts.plus_class in Hl, Hd, Hr.
    destruct Hl as [Nl Fl], Hd as [Nd Fd], Hr as [Nr Fr].
    exists loc, domain, rest. repeat split; auto.
    apply RegexFacts.address_units. rewrite !forallb_app, Fl, Fd, Fr. reflexivity.
  - intros [loc [domain [rest [-> [Nl [Nd [Nr F]]]]]]].
    apply RegexFacts.address_units in F. rewrite !forallb_app in F.
    apply andb_true_iff in F. destruct F as [Fl F].
    apply andb_true_iff in F. destruct F as [Fd Fr].
    apply (Regex.lang_cat _ _ loc); [apply RegexFacts.plus_class; auto|].
    apply (Regex.lang_cat _ _ [64%N]); [constructor; reflexivity|].
    apply (Regex.lang_cat _ _ domain); [apply RegexFacts.plus_class; auto|].
    apply (Regex.lang_cat _ _ [46%N]); [constructor; reflexivity|].
    apply RegexFacts.plus_class; auto.
Qed.

(** ** The forms *)

Section FormFacts.
Import Forms.

Lemma blank_false s : (0 < List.length s)%nat -> blank s = false.
Proof. destruct s; simpl; [lia | reflexivity]. Qed.

Lemma validateEmail_not_blank s : validateEmail s = true -> blank s = false.
Proof. destruct s; [intros H; discriminate H | reflexivity]. Qed.

Lemma well_filled_passes formData :
  well_filled formData ->
  blank (username formData) || blank (email formData)
  || blank (password formData) || blank (confirmPassword formData) = false
  /\ (Z.of_nat (List.length (username formData)) <? 3) = false
  /\ negb (validateEmail (email formData)) = false
  /\ (Z.of_nat (List.length (password formData)) <? 6) = false
  /\ negb (jsstring_eqb (password formData) (confirmPassword formData)) = false.
Proof.
  intros [Hu [He [Hp Hc]]]. repeat split.
  - rewrite (blank_false (username formData)) by lia.
    rewrite (validateEmail_not_blank _ He).
    rewrite <- Hc. rewrite (blank_false (password formData)) by lia.
    reflexivity.
  - apply Z.ltb_ge. lia.
  - rewrite He. reflexivity.
  - apply Z.ltb_ge. lia.
  - rewrite Hc, jsstring_eqb_refl. reflexivity.
Qed.

(** [handleRegister] reaches [authAPI.register] only with a form that
    passes the tests. *)
Lemma handleRegister_cases store formData i c :
  (well_filled formData
   /\ handleRegister store formData i c
      = (let (store', result) :=
           AuthAPI.register store (as_candidate formData) i c in
         if AuthAPI.success result then
           (store',
            {| view := {| error := Some EmptyString;
                          success := "Registration successful! Redirecting to login...";
                          loading := false |};
               timer := Some (2000, OnSwitchToLogin);
               completion := Ret tt |})
         else
           (store',
            {| view := {| error := AuthAPI.message result;
                          success := EmptyString; loading := false |};
               timer := None; completion := Ret tt |})))
  \/ (~ well_filled formData
      /\ exists msg,
           handleRegister store formData i c = (store, rejected msg)
           /\ msg <> EmptyString).
Proof.
  unfold handleRegister.
  destruct (blank (username formData) || blank (email formData)
            || blank (password formData) || blank (confirmPassword formData))
    eqn:B1.
  { right. split.
    - intros W. apply well_filled_passes in W. destruct W as [W _].
      rewrite W in B1. discriminate B1.
    - eexists. split; [reflexivity | discriminate]. }
  destruct (Z.ltb_spec (Z.of_nat (List.length (username formData))) 3) as [L1 | L1].
  { right. split.
    - intros [W _]. lia.
    - eexists. split; [reflexivity | discriminate]. }
  destruct (validateEmail (email formData)) eqn:V; cbn [negb].
  2:{ right. split.
      - intros [_ [W _]]. rewrite V in W. discriminate W.
      - eexists. split; [reflexivity | discriminate]. }
  destruct (Z.ltb_spec (Z.of_nat (List.length (password formData))) 6) as [L2 | L2].
  { right. split.
    - intros [_ [_ [W _]]]. lia.
    - eexists. split; [reflexivity | discriminate]. }
  destruct (jsstring_eqb (password formData) (confirmPassword formData)) eqn:Q;
    cbn [negb].
  2:{ right. split.
      - intros [_ [_ [_ W]]]. rewrite W, jsstring_eqb_refl in Q. discriminate Q.
      - eexists. split; [reflexivity | discriminate]. }
  left. split; [|reflexivity].
  apply jsstring_eqb_eq in Q. repeat split; auto; lia.
Qed.

End FormFacts.

(** X13.  [handleRegister] creates an account exactly when the form
    passes its tests (a name of three code units or more, an address
    that [validateEmail] accepts, a password of six or more, repeated
    identically) and no stored identity has the address.  Then the new
    identity, holding the form's name, address and password, goes to
    the end of the store, the success message shows and the switch to
    the login screen is set for two seconds later.  In every other case
    the store stays as it was, no timer is started, and the form is
    enabled again with an error message. *)
Theorem X13_handleRegister_creates_exactly_valid_fresh_accounts
    (store : list AuthAPI.identity) (formData : Forms.registration)
    (now_id now_created : Z) :
  (Forms.well_filled formData
   /\ ~ In (Forms.email formData) (map AuthAPI.email store)
   /\ Forms.handleRegister store formData now_id now_created
      = (store ++ [ {| AuthAPI.id := now_id;
                       AuthAPI.username := Forms.username formData;
                       AuthAPI.email := Forms.email formData;
                       AuthAPI.password := Forms.password formData;
                       AuthAPI.createdAt := Some now_created |} ],
         {| Forms.view :=
              {| Forms.error := Some EmptyString;
                 Forms.success :=
                   "Registration successful! Redirecting to login...";
                 Forms.loading := false |};
            Forms.timer := Some (2000, Forms.OnSwitchToLogin);
            Forms.completion := Ret tt |}))
  \/ ((~ Forms.well_filled formData
       \/ In (Forms.email formData) (map AuthAPI.email store))
      /\ exists msg,
           msg <> EmptyString
           /\ Forms.handleRegister store formData now_id now_created
              = (store,
                 {| Forms.view :=
                      {| Forms.error := Some msg;
                         Forms.success := EmptyString;
                         Forms.loading := false |};
                    Forms.timer := None;
                    Forms.completion := Ret tt |})).
Proof.
  destruct (handleRegister_cases store formData now_id now_created)
    as [[W E] | [W [msg [E N]]]].
  - rewrite E. unfold AuthAPI.register. cbn [Forms.as_candidate AuthAPI.cand_email
      AuthAPI.cand_username AuthAPI.cand_password].
    destruct (find (fun u => jsstring_eqb (AuthAPI.email u) (Forms.email formData))
                store) as [u|] eqn:F.
    + right. split.
      * right. apply find_some in F. destruct F as [Hin He].
        apply jsstring_eqb_eq in He. rewrite <- He. apply in_map. exact Hin.
      * eexists. split; [|reflexivity]. discriminate.
    + left. split; [exact W|]. split; [|reflexivity].
      apply find_email_absent. exact F.
  - right. split; [left; exact W|]. exists msg. split; [exact N | exact E].
Qed.

Section LoginFormFacts.
Import Forms.

(** [handleLogin] past its two tests. *)
Lemma handleLogin_passed store formData now :
  timer (handleLogin store formData now) <> None
  \/ completion (handleLogin store formData now) <> Ret tt ->
  validateEmail (AuthAPI.cred_email formData) = true
  /\ blank (AuthAPI.cred_password formData) = false
  /\ handleLogin store formData now
     = match AuthAPI.login store formData now with
       | Ret result =>
           if AuthAPI.success result then
             {| view := {| error := Some EmptyString;
                           success := "Login successful! Redirecting...";
                           loading := false |};
                timer := Some (500, OnLoginSuccess result);
                completion := Ret tt |}
           else
             {| view := {| error := AuthAPI.message result;
                           success := EmptyString; loading := false |};
                timer := None; completion := Ret tt |}
       | Throw e =>
           {| view := {| error := Some EmptyString; success := EmptyString;
                         loading := true |};
              timer := None; completion := Throw e |}
       | Unmodelled =>
           {| view := {| error := Some EmptyString; success := EmptyString;
                         loading := true |};
              timer := None; completion := Unmodelled |}
       end.
Proof.
  unfold handleLogin.
  destruct (blank (AuthAPI.cred_email formData)) eqn:B1; cbn [orb].
  { intros [H | H]; contradiction H; reflexivity. }
  destruct (blank (AuthAPI.cred_password formData)) eqn:B2.
  { intros [H | H]; contradiction H; reflexivity. }
  destruct (validateEmail (AuthAPI.cred_email formData)) eqn:V; cbn [negb].
  - intros _. auto.
  - intros [H | H]; contradiction H; reflexivity.
Qed.

(** What [login] answers with [success] set. *)
Lemma login_success_inv store creds now result :
  AuthAPI.login store creds now = Ret result ->
  AuthAPI.success result = true ->
  exists u tok,
    find (AuthAPI.matches creds) store = Some u
    /\ result = {| AuthAPI.success := true;
                   AuthAPI.message := Some "Login successful"%string;
                   AuthAPI.token := Some tok;
                   AuthAPI.user := Some (AuthAPI.without_password u) |}
    /\ Token.decode tok
       = Ret (Token.payload (AuthAPI.id u) (AuthAPI.email u) (now + 86400000)).
Proof.
  intros L S. unfold AuthAPI.login in L.
  destruct (find (AuthAPI.matches creds) store) as [u|] eqn:F;
    [|injection L as <-; discriminate S].
  destruct (Token.encode (AuthAPI.id u) (AuthAPI.email u) (now + AuthAPI.ttl))
    as [t| |] eqn:E; cbn [bind] in L; try discriminate L.
  injection L as <-. exists u, t. repeat split.
  apply decode_encode in E. exact E.
Qed.

End LoginFormFacts.

(** X14.  When [handleLogin] starts the redirect timer, it is for half
    a second, the form shows the success message and is enabled again,
    and what the timer will hand to [onLoginSuccess] is the response of
    a sign-in that went through: the public part of a stored identity
    with the address and password of the form, the address being one
    [validateEmail] accepts, and a token that decodes to that
    identity's id and address and to [now + 24h]. *)
Theorem X14_handleLogin_redirects_only_after_sign_in
    (store : list AuthAPI.identity) (formData : AuthAPI.credentials)
    (now delay : Z) (cb : Forms.callback) :
  Forms.timer (Forms.handleLogin store formData now) = Some (delay, cb) ->
  delay = 500
  /\ Forms.view (Forms.handleLogin store formData now)
     = {| Forms.error := Some EmptyString;
          Forms.success := "Login successful! Redirecting...";
          Forms.loading := false |}
  /\ Forms.completion (Forms.handleLogin store formData now) = Ret tt
  /\ exists u tok,
       cb = Forms.OnLoginSuccess
              {| AuthAPI.success := true;
                 AuthAPI.message := Some "Login successful"%string;
                 AuthAPI.token := Some tok;
                 AuthAPI.user := Some (AuthAPI.without_password u) |}
       /\ In u store
       /\ AuthAPI.email u = AuthAPI.cred_email formData
       /\ AuthAPI.password u = AuthAPI.cred_password formData
       /\ Forms.validateEmail (AuthAPI.email u) = true
       /\ Token.decode tok
          = Ret (Token.payload (AuthAPI.id u) (AuthAPI.email u) (now + 86400000)).
Proof.
  intros T.
  destruct (handleLogin_passed store formData now) as [V [_ E]].
  { left. rewrite T. discriminate. }
  rewrite E in *. clear E.
  destruct (AuthAPI.login store formData now) as [result| |] eqn:L;
    try discriminate T.
  destruct (AuthAPI.success result) eqn:S; [|discriminate T].
  cbn in T. injection T as <- <-.
  destruct (login_success_inv _ _ _ _ L S) as [u [tok [F [-> D]]]].
  pose proof (find_some _ _ F) as [Hin Hm].
  apply matches_spec in Hm. destruct Hm as [He Hp].
  repeat split. exists u, tok. rewrite He. repeat split; auto.
  rewrite <- He. exact D.
Qed.

Lemma X14_witness :
  500 = 500
  /\ Forms.view (Forms.handleLogin AuthAPI.mockUsers
                   {| AuthAPI.cred_email := js "demo@example.com";
                      AuthAPI.cred_password := js "demo123" |} 1000)
     = {| Forms.error := Some EmptyString;
          Forms.success := "Login successful! Redirecting...";
          Forms.loading := false |}
  /\ Forms.completion (Forms.handleLogin AuthAPI.mockUsers
                         {| AuthAPI.cred_email := js "demo@example.com";
                            AuthAPI.cred_password := js "demo123" |} 1000)
     = Ret tt
  /\ exists u tok,
       Forms.OnLoginSuccess
         {| AuthAPI.success := true;
            AuthAPI.message := Some "Login successful"%string;
            AuthAPI.token := Some (demo_token (1000 + 86400000));
            AuthAPI.user := Some (AuthAPI.without_password demo_identity) |}
       = Forms.OnLoginSuccess
           {| AuthAPI.success := true;
              AuthAPI.message := Some "Login successful"%string;
              AuthAPI.token := Some tok;
              AuthAPI.user := Some (AuthAPI.without_password u) |}
       /\ In u AuthAPI.mockUsers
       /\ AuthAPI.email u = js "demo@example.com"
       /\ AuthAPI.password u = js "demo123"
       /\ Forms.validateEmail (AuthAPI.email u) = true
       /\ Token.decode tok
          = Ret (Token.payload (AuthAPI.id u) (AuthAPI.email u) (1000 + 86400000)).
Proof.
  apply (X14_handleLogin_redirects_only_after_sign_in AuthAPI.mockUsers
           {| AuthAPI.cred_email := js "demo@example.com";
              AuthAPI.cred_password := js "demo123" |} 1000 500).
  vm_compute. reflexivity.
Defined.

(** X15.  When the call of [authAPI.login] inside [handleLogin] raises,
    the lines after the [await] do not run: the form is left with
    [loading] set, so its fields and buttons stay disabled, with no
    message and no timer.  That happens exactly for a form that passes
    the two tests and names, with its password, a stored identity whose
    address has a JSON text that does not fit in bytes. *)
Theorem X15_handleLogin_stays_loading_when_login_raises
    (store : list AuthAPI.identity) (formData : AuthAPI.credentials) (now : Z) :
  ((exists e, Forms.completion (Forms.handleLogin store formData now) = Throw e)
   <-> Forms.validateEmail (AuthAPI.cred_email formData) = true
       /\ AuthAPI.cred_password formData <> []
       /\ (exists u, In u store
                     /\ AuthAPI.email u = AuthAPI.cred_email formData
                     /\ AuthAPI.password u = AuthAPI.cred_password formData)
       /\ ~ Forall (fun ch => (ch <= 255)%N)
                   (Json.quote_body (AuthAPI.cred_email formData)))
  /\ ((exists e, Forms.completion (Forms.handleLogin store formData now) = Throw e)
      -> Forms.handleLogin store formData now
         = {| Forms.view := {| Forms.error := Some EmptyString;
                               Forms.success := EmptyString;
                               Forms.loading := true |};
              Forms.timer := None;
              Forms.completion := Throw InvalidCharacterError |}).
Proof.
  assert (R : (exists e, Forms.completion (Forms.handleLogin store formData now)
                         = Throw e) ->
              (Forms.validateEmail (AuthAPI.cred_email formData) = true
               /\ AuthAPI.cred_password formData <> []
               /\ (exists u, In u store
                             /\ AuthAPI.email u = AuthAPI.cred_email formData
                             /\ AuthAPI.password u = AuthAPI.cred_password formData)
               /\ ~ Forall (fun ch => (ch <= 255)%N)
                           (Json.quote_body (AuthAPI.cred_email formData)))
              /\ Forms.handleLogin store formData now
                 = {| Forms.view := {| Forms.error := Some EmptyString;
                                       Forms.success := EmptyString;
                                       Forms.loading := true |};
                      Forms.timer := None;
                      Forms.completion := Throw InvalidCharacterError |}).
  { intros [e C].
    destruct (handleLogin_passed store formData now) as [V [B E]].
    { right. rewrite C. discriminate. }
    rewrite E in C |- *. clear E.
    destruct (find (AuthAPI.matches formData) store) as [u|] eqn:F.
    - pose proof (find_some _ _ F) as [Hin Hm].
      apply matches_spec in Hm. destruct Hm as [He Hp].
      rewrite (login_first_match _ _ now _ F) in C |- *.
      destruct (forallb (fun c => (c <=? 255)%N)
                  (Token.payload_text (AuthAPI.id u) (AuthAPI.email u)
                     (now + AuthAPI.ttl))) eqn:Q; [discriminate C|].
      split; [|reflexivity].
      split; [exact V|].
      split; [intros N; rewrite N in B; discriminate B|].
      split; [exists u; auto|].
      intros H. rewrite <- He in H.
      apply (payload_text_latin1 (AuthAPI.id u) (AuthAPI.email u)
               (now + AuthAPI.ttl)) in H.
      apply forallb_latin1 in H. rewrite H in Q. discriminate Q.
    - rewrite (login_no_match _ _ now F) in C. discriminate C. }
  split; [split|]; [intros H; exact (proj1 (R H)) | | intros H; exact (proj2 (R H))].
  intros [V [P [[u [Hin [He Hp]]] N]]].
  unfold Forms.handleLogin.
  rewrite (validateEmail_not_blank _ V), V.
  destruct (AuthAPI.cred_password formData) as [|c p] eqn:Pw;
    [contradiction P; reflexivity|].
  cbn [Forms.blank orb negb].
  destruct (find (AuthAPI.matches formData) store) as [w|] eqn:F.
  - pose proof (find_some _ _ F) as [_ Hm].
    apply matches_spec in Hm. destruct Hm as [Hw _].
    rewrite (login_first_match _ _ now _ F).
    destruct (forallb (fun c => (c <=? 255)%N)
                (Token.payload_text (AuthAPI.id w) (AuthAPI.email w)
                   (now + AuthAPI.ttl))) eqn:Q.
    + exfalso. apply N. rewrite <- Hw.
      apply payload_text_latin1 with (userId := AuthAPI.id w)
                                     (exp := now + AuthAPI.ttl).
      apply forallb_latin1. exact Q.
    + eexists. reflexivity.
  - exfalso. apply (find_none _ _ F) in Hin.
    assert (M : AuthAPI.matches formData u = true).
    { apply matches_spec. rewrite Pw. auto. }
    rewrite M in Hin. discriminate Hin.
Qed.

Lemma X15_witness :
  exists e,
    Forms.completion
      (Forms.handleLogin
         (fst (Forms.handleRegister AuthAPI.mockUsers cyrillic_form 7 8))
         cyrillic_credentials 1000)
    = Throw e.
Proof.
  apply (proj1 (X15_handleLogin_stays_loading_when_login_raises _ _ _)).
  split; [vm_compute; reflexivity|].
  split; [intros H; discriminate H|].
  split.
  - eexists. split; [right; left; reflexivity|]. split; reflexivity.
  - intros H. vm_compute in H. inversion H as [|? ? B _]. exact (B eq_refl).
Defined.

(** ** The page *)

Section RoutesFacts.
Import Routes.

(** What [handleRegister] does to the store. *)
Lemma handleRegister_store store formData i c :
  fst (Forms.handleRegister store formData i c) = store
  \/ (Forms.well_filled formData
      /\ ~ In (Forms.email formData) (map AuthAPI.email store)
      /\ fst (Forms.handleRegister store formData i c)
         = store ++ [ {| AuthAPI.id := i;
                         AuthAPI.username := Forms.username formData;
                         AuthAPI.email := Forms.email formData;
                         AuthAPI.password := Forms.password formData;
                         AuthAPI.createdAt := Some c |} ]).
Proof.
  destruct (handleRegister_cases store formData i c) as [[W E] | [_ [msg [E _]]]];
    rewrite E; [|left; reflexivity].
  destruct (register_extends store (Forms.as_candidate formData) i c)
    as [R | [F R]];
    destruct (AuthAPI.register store (Forms.as_candidate formData) i c) as [s r];
    cbn [fst] in R; subst s.
  - left. destruct (AuthAPI.success r); reflexivity.
  - right. split; [exact W|]. split; [exact (find_email_absent _ _ F)|].
    destruct (AuthAPI.success r); reflexivity.
Qed.

Lemma handleRegister_keeps store formData i c u :
  In u store -> In u (fst (Forms.handleRegister store formData i c)).
Proof.
  intros H. destruct (handleRegister_store store formData i c) as [E | [_ [_ E]]];
    rewrite E; [exact H | apply in_or_app; left; exact H].
Qed.

(** The only timer [handleRegister] starts is the switch to the login
    screen. *)
Lemma handleRegister_timer store formData i c d cb :
  Forms.timer (snd (Forms.handleRegister store formData i c)) = Some (d, cb) ->
  cb = Forms.OnSwitchToLogin.
Proof.
  destruct (handleRegister_cases store formData i c) as [[_ E] | [_ [msg [E _]]]];
    rewrite E; [|discriminate].
  destruct (AuthAPI.register store (Forms.as_candidate formData) i c) as [s r].
  destruct (AuthAPI.success r); cbn; [|discriminate].
  intros H. injection H as _ <-. reflexivity.
Qed.

Lemma signed_in_keeps store store' user tok :
  (forall u, In u store -> In u store') ->
  signed_in store user tok -> signed_in store' user tok.
Proof.
  intros Hs [u [t [exp [Hin H]]]]. exists u, t, exp. split; [apply Hs; exact Hin | exact H].
Qed.

Lemma consistent_start : consistent start.
Proof.
  unfold consistent. cbn. repeat split; auto.
  intros H. discriminate H.
Qed.

Lemma consistent_step a b : consistent a -> step a b -> consistent b.
Proof.
  intros [L [R [S [D T]]]] St. unfold consistent.
  destruct St as [a formData now | a formData i c | a before cb after E | a | a | a];
    cbn [routes store timers].
  - repeat split; auto.
    unfold schedule.
    destruct (Forms.timer (Forms.handleLogin (store a) formData now))
      as [[d cb]|] eqn:Tm; [|exact T].
    apply Forall_app. split; [exact T|]. constructor; [|constructor].
    destruct (handleLogin_passed (store a) formData now) as [_ [_ E]].
    { left. rewrite Tm. discriminate. }
    rewrite E in Tm. clear E.
    destruct (AuthAPI.login (store a) formData now) as [result| |] eqn:Lg;
      try discriminate Tm.
    destruct (AuthAPI.success result) eqn:Sc; [|discriminate Tm].
    cbn in Tm. injection Tm as _ <-.
    destruct (login_success_inv _ _ _ _ Lg Sc) as [u [tok [F [-> Dc]]]].
    pose proof (find_some _ _ F) as [Hin _].
    exists u, tok, (now + 86400000). cbn. auto.
  - assert (K : forall u, In u (store a) ->
                  In u (fst (Forms.handleRegister (store a) formData i c))).
    { intros u. apply handleRegister_keeps. }
    split; [exact L|]. split; [exact R|].
    split; [destruct S as [S | S]; [left; exact S | right; exact (signed_in_keeps _ _ _ _ K S)]|].
    split; [exact D|].
    assert (T' : Forall (well_formed_callback
                           (fst (Forms.handleRegister (store a) formData i c)))
                        (timers a)).
    { eapply Forall_impl; [|exact T].
      intros cb. destruct cb as [r|]; cbn; [apply signed_in_keeps; exact K | auto]. }
    unfold schedule.
    destruct (Forms.timer (snd (Forms.handleRegister (store a) formData i c)))
      as [[d cb]|] eqn:Tm; [|exact T'].
    apply Forall_app. split; [exact T'|]. constructor; [|constructor].
    rewrite (handleRegister_timer _ _ _ _ _ _ Tm). exact I.
  - rewrite E in T. apply Forall_app in T. destruct T as [T1 T2].
    inversion T2 as [|? ? Hcb T3]; subst.
    assert (T' : Forall (well_formed_callback (store a)) (before ++ after)).
    { apply Forall_app. auto. }
    destruct cb as [r|]; cbn.
    + split; [exact L|]. split; [right; right; left; reflexivity|].
      split; [right; exact Hcb|]. split; [|exact T'].
      intros _. destruct Hcb as [u [t [exp [_ [-> _]]]]]. discriminate.
    + split; [exact L|]. split; [left; reflexivity|].
      split; [exact S|]. split; [|exact T'].
      intros H. discriminate H.
  - cbn. split; [exact L|]. split; [left; reflexivity|].
    split; [left; split; reflexivity|]. split; [|exact T].
    intros H. discriminate H.
  - cbn. split; [exact L|]. split; [left; reflexivity|].
    split; [exact S|]. split; [|exact T].
    intros H. discriminate H.
  - cbn. split; [exact L|]. split; [right; left; reflexivity|].
    split; [exact S|]. split; [|exact T].
    intros H. discriminate H.
Qed.

Lemma consistent_reachable a : reachable a -> consistent a.
Proof.
  induction 1 as [|a b _ IH St]; [exact consistent_start|].
  exact (consistent_step a b IH St).
Qed.

(** The store of the page: every step keeps the addresses distinct and
    the accounts as the registration form wants them. *)
Lemma store_step a b :
  step a b ->
  NoDup (map AuthAPI.email (store a)) /\ Forall Forms.acceptable (store a) ->
  NoDup (map AuthAPI.email (store b)) /\ Forall Forms.acceptable (store b).
Proof.
  intros St [Hn Hf].
  destruct St as [a formData now | a formData i c | a before cb after E | a | a | a];
    cbn [store]; auto.
  destruct (handleRegister_store (store a) formData i c)
    as [E | [[Wu [We [Wp _]]] [Fr E]]]; rewrite E; [auto|].
  split.
  - rewrite map_app. apply NoDup_app; [exact Hn | repeat constructor; intros [] |].
    intros e He [<- | []]. exact (Fr He).
  - apply Forall_app. split; [exact Hf|]. constructor; [|constructor].
    unfold Forms.acceptable. cbn. auto.
Qed.

End RoutesFacts.

(** X16.  Whatever has happened on the page, the accounts in the store
    have distinct addresses, and each has a name of three code units or
    more, an address [validateEmail] accepts and a password of six or
    more: the page lets nothing into the store that the registration
    form would turn away. *)
Theorem X16_page_store_holds_validated_accounts (a : Routes.app) :
  Routes.reachable a ->
  NoDup (map AuthAPI.email (Routes.store a))
  /\ forall u, In u (Routes.store a) ->
       (3 <= List.length (AuthAPI.username u))%nat
       /\ Forms.validateEmail (AuthAPI.email u) = true
       /\ (6 <= List.length (AuthAPI.password u))%nat.
Proof.
  intros H.
  assert (S : NoDup (map AuthAPI.email (Routes.store a))
              /\ Forall Forms.acceptable (Routes.store a)).
  { induction H as [|a b _ IH St].
    - split; [repeat constructor; intros []|].
      constructor; [|constructor].
      unfold Forms.acceptable. cbn. repeat split; try lia.
    - exact (store_step a b St IH). }
  destruct S as [Hn Hf]. split; [exact Hn|].
  intros u Hin. rewrite Forall_forall in Hf. exact (Hf u Hin).
Qed.

Lemma X16_witness :
  NoDup (map AuthAPI.email (Routes.store page_after_registration))
  /\ forall u, In u (Routes.store page_after_registration) ->
       (3 <= List.length (AuthAPI.username u))%nat
       /\ Forms.validateEmail (AuthAPI.email u) = true
       /\ (6 <= List.length (AuthAPI.password u))%nat.
Proof.
  apply (X16_page_store_holds_validated_accounts page_after_registration).
  apply (Routes.reach_step Routes.start); [apply Routes.reach_start|].
  exact (Routes.step_register Routes.start new_form 7 8).
Defined.

(** X17.  Whatever has happened on the page, [Routes] renders without
    raising, and the route is one of login, register and dashboard.
    When it is the dashboard that shows, the name, address and id on it
    are those of an identity in the store, and the token cell holds a
    token that decodes to that id and that address. *)
Theorem X17_dashboard_shows_a_signed_in_account (a : Routes.app) :
  Routes.reachable a ->
  In (Routes.currentRoute (Routes.routes a))
     ["login"; "register"; "dashboard"]%string
  /\ (exists s, Routes.render (Routes.routes a) = Ret s)
  /\ forall name address i,
       Routes.render (Routes.routes a)
       = Ret (Routes.DashboardScreen name address i) ->
       exists u tok exp,
         In u (Routes.store a)
         /\ AuthAPI.username u = name /\ AuthAPI.email u = address
         /\ AuthAPI.id u = i
         /\ Routes.authToken (Routes.routes a) = Some tok
         /\ Token.decode tok = Ret (Token.payload i address exp).
Proof.
  intros H. apply consistent_reachable in H.
  destruct H as [L [R [S [D _]]]].
  split; [exact R|].
  unfold Routes.render. rewrite L.
  destruct R as [E | [E | [E | []]]]; rewrite <- E; cbn.
  - split; [eexists; reflexivity | intros ? ? ? X; discriminate X].
  - split; [eexists; reflexivity | intros ? ? ? X; discriminate X].
  - symmetry in E. specialize (D E).
    destruct S as [[S _] | [u [tok [exp [Hin [Hu [Ht Hd]]]]]]]; [contradiction|].
    rewrite Hu. cbn. split; [eexists; reflexivity|].
    intros name address i X. injection X as <- <- <-.
    exists u, tok, exp. repeat split; auto.
Qed.

Lemma X17_witness :
  In (Routes.currentRoute (Routes.routes page_on_dashboard))
     ["login"; "register"; "dashboard"]%string
  /\ (exists s, Routes.render (Routes.routes page_on_dashboard) = Ret s)
  /\ forall name address i,
       Routes.render (Routes.routes page_on_dashboard)
       = Ret (Routes.DashboardScreen name address i) ->
       exists u tok exp,
         In u (Routes.store page_on_dashboard)
         /\ AuthAPI.username u = name /\ AuthAPI.email u = address
         /\ AuthAPI.id u = i
         /\ Routes.authToken (Routes.routes page_on_dashboard) = Some tok
         /\ Token.decode tok = Ret (Token.payload i address exp).
Proof.
  apply (X17_dashboard_shows_a_signed_in_account page_on_dashboard).
  apply (Routes.reach_step
           {| Routes.routes := Routes.initial; Routes.store := AuthAPI.mockUsers;
              Routes.timers := [Forms.OnLoginSuccess (demo_response 1000)] |}).
  - apply (Routes.reach_step Routes.start); [apply Routes.reach_start|].
    exact (Routes.step_login Routes.start demo_credentials 1000).
  - exact (Routes.step_fire
             {| Routes.routes := Routes.initial;
                Routes.store := AuthAPI.mockUsers;
                Routes.timers := [Forms.OnLoginSuccess (demo_response 1000)] |}
             [] (Forms.OnLoginSuccess (demo_response 1000)) [] eq_refl).
Defined.

(** ** The provider's questions about the user *)

Section ProviderFacts.

Lemma starts_with_prefix p s :
  starts_with p s = true <-> exists rest, s = p ++ rest.
Proof.
  revert s. induction p as [|a p IH]; intros s; simpl.
  - split; [intros _; exists s; reflexivity | reflexivity].
  - destruct s as [|b s].
    + split; [discriminate | intros [rest E]; discriminate E].
    + rewrite andb_true_iff, N.eqb_eq, IH. split.
      * intros [-> [rest ->]]. exists rest. reflexivity.
      * intros [rest E]. injection E as -> ->. split; [reflexivity | eauto].
Qed.

Lemma string_includes_infix s p :
  string_includes s p = true <-> exists before rest, s = before ++ p ++ rest.
Proof.
  induction s as [|c s IH].
  - simpl. rewrite orb_false_r, starts_with_prefix. split.
    + intros [rest E]. exists [], rest. exact E.
    + intros [before [rest E]]. destruct before; [|discriminate E].
      exists rest. exact E.
  - cbn [string_includes]. rewrite orb_true_iff, starts_with_prefix, IH. split.
    + intros [[rest E] | [before [rest E]]].
      * exists [], rest. exact E.
      * exists (c :: before), rest. rewrite E. reflexivity.
    + intros [[|b before] [rest E]].
      * left. exists rest. exact E.
      * right. injection E as _ E. exists before, rest. exact E.
Qed.

Lemma array_includes_In items p :
  array_includes items p = true <-> In (VStr p) items.
Proof.
  unfold array_includes. rewrite existsb_exists. split.
  - intros [v [Hin H]]. destruct v; try discriminate H.
    apply jsstring_eqb_eq in H. subst. exact Hin.
  - intros H. exists (VStr p). split; [exact H | apply jsstring_eqb_refl].
Qed.

End ProviderFacts.

(** X18.  [hasPermission] with a user: when [user.permissions] is an
    array the answer is whether the permission is one of its elements;
    when it is a string the answer is whether the permission occurs
    anywhere inside it, so that a part of a permission name, and the
    empty string, are granted; when it is [true], a number other than
    zero or an object, the call raises a TypeError. *)
Theorem X18_hasPermission_by_kind_of_permissions
    (st : SessionProvider.state) (u : object) (permission : jsstring) :
  SessionProvider.user st = Some u ->
  (forall items,
      lookup (js "permissions") u = Some (VArr items) ->
      exists b, SessionProvider.hasPermission permission st = Ret b
                /\ (b = true <-> In (VStr permission) items))
  /\ (forall s,
        lookup (js "permissions") u = Some (VStr s) ->
        exists b, SessionProvider.hasPermission permission st = Ret b
                  /\ (b = true <->
                      s <> [] /\ exists before rest,
                                   s = before ++ permission ++ rest))
  /\ (forall v,
        lookup (js "permissions") u = Some v ->
        v = VBool true \/ (exists z, v = VNum z /\ z <> 0)
        \/ (exists o, v = VObj o) ->
        SessionProvider.hasPermission permission st = Throw TypeError).
Proof.
  intros Hu. unfold SessionProvider.hasPermission. rewrite Hu.
  cbn [get_field bind]. split; [|split].
  - intros items L. rewrite L. cbn. eexists. split; [reflexivity|].
    apply array_includes_In.
  - intros s L. rewrite L. destruct s as [|c s]; cbn.
    + exists false. split; [reflexivity|].
      split; [discriminate | intros [N _]; contradiction N; reflexivity].
    + eexists. split; [reflexivity|].
      rewrite (string_includes_infix (c :: s) permission).
      split; [intros H; split; [discriminate | exact H] | intros [_ H]; exact H].
  - intros v L [-> | [[z [-> Z]] | [o ->]]]; rewrite L; cbn; try reflexivity.
    destruct (Z.eqb_spec z 0); [contradiction | reflexivity].
Qed.

Lemma X18_witness :
  (forall items,
      lookup (js "permissions")
             [(js "id", VNum 1); (js "permissions", VStr (js "administrator"))]
      = Some (VArr items) ->
      exists b,
        SessionProvider.hasPermission (js "admin")
          {| SessionProvider.user :=
               Some [(js "id", VNum 1);
                     (js "permissions", VStr (js "administrator"))];
             SessionProvider.token := None; SessionProvider.loading := false;
             SessionProvider.isAuthenticated := false |} = Ret b
        /\ (b = true <-> In (VStr (js "admin")) items))
  /\ (forall s,
        lookup (js "permissions")
               [(js "id", VNum 1); (js "permissions", VStr (js "administrator"))]
        = Some (VStr s) ->
        exists b,
          SessionProvider.hasPermission (js "admin")
            {| SessionProvider.user :=
                 Some [(js "id", VNum 1);
                       (js "permissions", VStr (js "administrator"))];
               SessionProvider.token := None; SessionProvider.loading := false;
               SessionProvider.isAuthenticated := false |} = Ret b
          /\ (b = true <->
              s <> [] /\ exists before rest, s = before ++ js "admin" ++ rest))
  /\ (forall v,
        lookup (js "permissions")
               [(js "id", VNum 1); (js "permissions", VStr (js "administrator"))]
        = Some v ->
        v = VBool true \/ (exists z, v = VNum z /\ z <> 0)
        \/ (exists o, v = VObj o) ->
        SessionProvider.hasPermission (js "admin")
          {| SessionProvider.user :=
               Some [(js "id", VNum 1);
                     (js "permissions", VStr (js "administrator"))];
             SessionProvider.token := None; SessionProvider.loading := false;
             SessionProvider.isAuthenticated := false |} = Throw TypeError).
Proof.
  apply (X18_hasPermission_by_kind_of_permissions
           {| SessionProvider.user :=
                Some [(js "id", VNum 1);
                      (js "permissions", VStr (js "administrator"))];
              SessionProvider.token := None; SessionProvider.loading := false;
              SessionProvider.isAuthenticated := false |}).
  reflexivity.
Defined.

(** X19.  [hasRole] never raises, and answers true exactly when there
    is a user whose [role] is that very string and the string is not
    empty: it is false without a user, without a role, and for a role
    that is a number, an array or an object. *)
Theorem X19_hasRole_true_exactly_for_the_stored_role
    (st : SessionProvider.state) (role : jsstring) :
  (SessionProvider.hasRole role st = Ret true
   <-> exists u, SessionProvider.user st = Some u
                 /\ lookup (js "role") u = Some (VStr role)
                 /\ role <> [])
  /\ forall e, SessionProvider.hasRole role st <> Throw e.
Proof.
  unfold SessionProvider.hasRole. set (k := js "role").
  destruct (SessionProvider.user st) as [u|].
  2:{ split; [|discriminate].
      split; [discriminate | intros [u [H _]]; discriminate H]. }
  cbn [get_field bind].
  destruct (lookup k u) as [v|] eqn:L.
  2:{ cbn [bind truthy]. split; [|discriminate].
      split; [discriminate | intros [u' [H [H' _]]]].
      assert (E : u' = u) by congruence. subst u'.
      rewrite L in H'. discriminate H'. }
  split.
  - split.
    + intros H. exists u. split; [reflexivity|].
      destruct v as [| |b|z|lit|s|items|o]; cbn in H; try discriminate H.
      * destruct b; discriminate H.
      * destruct (negb (z =? 0)); discriminate H.
      * destruct s as [|c s]; [discriminate H|]. cbn in H.
        injection H as H. apply jsstring_eqb_eq in H. subst role.
        split; [exact L | discriminate].
    + intros [u' [H [H' N]]]. assert (E : u' = u) by congruence. subst u'.
      rewrite L in H'. injection H' as ->. destruct role as [|c r]; [contradiction N; reflexivity|].
      cbn. rewrite jsstring_eqb_refl. reflexivity.
  - intros e. destruct v as [| |b|z|lit|s|items|o]; cbn; try discriminate.
    + destruct b; discriminate.
    + destruct (negb (z =? 0)); discriminate.
    + destruct s; discriminate.
Qed.

(** ** The page for a route that does not exist *)

Section Render404Facts.
Import Render404.

Lemma bind_Ret_inv {A B} (m : outcome A) (k : A -> outcome B) (b : B) :
  bind m k = Ret b -> exists a, m = Ret a /\ k a = Ret b.
Proof. destruct m as [a| |]; simpl; intros H; try discriminate H. eauto. Qed.

Lemma bind_Throw_inv {A B} (m : outcome A) (k : A -> outcome B) (e : error) :
  bind m k = Throw e -> m = Throw e \/ exists a, m = Ret a /\ k a = Throw e.
Proof.
  destruct m as [a| |]; simpl; intros H; try discriminate H; [eauto|].
  injection H as ->. left. reflexivity.
Qed.

Lemma truthy_no_throw v e : truthy v <> Throw e.
Proof. destruct v; discriminate. Qed.

Lemma get_field_read v k :
  v <> VNull -> v <> VUndefined -> get_field v k = Ret (read v k).
Proof.
  intros N U. unfold read. destruct v; try reflexivity; contradiction.
Qed.

Lemma truthy_defined v : truthy v = Ret true -> v <> VNull /\ v <> VUndefined.
Proof. destruct v; simpl; intros H; try discriminate H; split; discriminate. Qed.

Lemma truthy_false_plain v : truthy v = Ret false -> conversion_raises v = false.
Proof. destruct v; simpl; intros H; try discriminate H; reflexivity. Qed.

(** A value that is not truthy has no properties worth converting. *)
Lemma read_falsy v k :
  truthy v = Ret false -> conversion_raises (read v k) = false.
Proof.
  unfold read. destruct v; simpl; intros H; try discriminate H; reflexivity.
Qed.

(** ToString raises exactly on the values whose conversion does. *)
Lemma to_string_cases v :
  match to_string v with
  | Ret _ => conversion_raises v = false
  | Throw e => conversion_raises v = true /\ e = TypeError
  | Unmodelled => True
  end.
Proof.
  destruct v as [ | | [ | ] | z | lit | s | items | o]; cbn [to_string];
    try reflexivity; try exact I.
  - destruct (Z.abs z <=? 2 ^ 53); [reflexivity | exact I].
  - destruct (conversion_raises (VArr items)); [auto | exact I].
  - destruct (conversion_raises (VObj o)); [auto | reflexivity].
Qed.

Lemma or_else_cases v d :
  match or_else v d with
  | Ret _ => conversion_raises v = false
  | Throw e => conversion_raises v = true /\ e = TypeError
  | Unmodelled => True
  end.
Proof.
  unfold or_else. destruct (truthy v) as [[ | ] | e | ] eqn:T; cbn [bind].
  - apply to_string_cases.
  - apply truthy_false_plain. exact T.
  - exfalso. exact (truthy_no_throw _ _ T).
  - exact I.
Qed.

Lemma button_markup_cases data :
  data <> VNull -> data <> VUndefined ->
  match button_markup data with
  | Ret _ =>
      conversion_raises (read (read data (js "button")) (js "href")) = false
      /\ conversion_raises (read (read data (js "button")) (js "label")) = false
  | Throw e =>
      conversion_raises (read (read data (js "button")) (js "href"))
      || conversion_raises (read (read data (js "button")) (js "label")) = true
      /\ e = TypeError
  | Unmodelled => True
  end.
Proof.
  intros N U. unfold button_markup.
  rewrite (get_field_read data (js "button") N U). cbn [bind].
  set (button := read data (js "button")).
  destruct (truthy button) as [[ | ] | e | ] eqn:T; cbn [bind].
  - destruct (truthy_defined _ T) as [N' U'].
    rewrite (get_field_read button (js "href") N' U'). cbn [bind].
    pose proof (to_string_cases (read button (js "href"))) as Ch.
    destruct (to_string (read button (js "href"))) as [ht | e | ]; cbn [bind].
    + rewrite (get_field_read button (js "label") N' U'). cbn [bind].
      pose proof (to_string_cases (read button (js "label"))) as Cl.
      destruct (to_string (read button (js "label"))) as [lt | e | ]; cbn [bind].
      * auto.
      * destruct Cl as [Cl ->]. rewrite Ch, Cl. auto.
      * exact I.
    + destruct Ch as [Ch ->]. rewrite Ch. auto.
    + exact I.
  - split; apply read_falsy; exact T.
  - exfalso. exact (truthy_no_throw _ _ T).
  - exact I.
Qed.

(** With data that is not [null], the template is written out exactly
    when no substitution raises, and the [try] block is left exactly
    when one does; the outcome is not modelled when a conversion that
    comes before is not. *)
Lemma page_markup_cases data pageName :
  data <> VNull -> data <> VUndefined ->
  match page_markup data pageName with
  | Ret markup =>
      (exists c t s d b, markup = template c t s d b)
      /\ existsb conversion_raises (substituted data) = false
  | Throw e => existsb conversion_raises (substituted data) = true
  | Unmodelled => True
  end.
Proof.
  intros N U. unfold page_markup, substituted. cbn [existsb].
  rewrite (get_field_read data (js "code") N U). cbn [bind].
  pose proof (or_else_cases (read data (js "code")) (js "404")) as C1.
  destruct (or_else (read data (js "code")) (js "404")) as [c | e | ];
    cbn [bind]; [ | destruct C1 as [-> _]; reflexivity | exact I].
  rewrite C1. cbn [orb].
  rewrite (get_field_read data (js "title") N U). cbn [bind].
  pose proof (or_else_cases (read data (js "title")) (js "Page not found")) as C2.
  destruct (or_else (read data (js "title")) (js "Page not found")) as [t | e | ];
    cbn [bind]; [ | destruct C2 as [-> _]; reflexivity | exact I].
  rewrite C2. cbn [orb].
  rewrite (get_field_read data (js "subtitle") N U). cbn [bind].
  pose proof (or_else_cases (read data (js "subtitle")) (missing_page pageName))
    as C3.
  destruct (or_else (read data (js "subtitle")) (missing_page pageName))
    as [s | e | ]; cbn [bind]; [ | destruct C3 as [-> _]; reflexivity | exact I].
  rewrite C3. cbn [orb].
  rewrite (get_field_read data (js "description") N U). cbn [bind].
  pose proof (or_else_cases (read data (js "description")) []) as C4.
  destruct (or_else (read data (js "description")) []) as [d | e | ];
    cbn [bind]; [ | destruct C4 as [-> _]; reflexivity | exact I].
  rewrite C4. cbn [orb].
  pose proof (button_markup_cases data N U) as C5.
  destruct (button_markup data) as [b | e | ]; cbn [bind].
  - destruct C5 as [-> ->]. split; [eauto 6 | reflexivity].
  - destruct C5 as [C5 _]. rewrite orb_false_r. exact C5.
  - exact I.
Qed.

Lemma template_not_fallback c t s d b : template c t s d b <> fallback_markup.
Proof. intros H. vm_compute in H. discriminate H. Qed.

End Render404Facts.

(** X20.  [render404] never raises, and without a container it writes
    nothing.  What it writes is either the two-line fallback or the
    page template with its five places filled.  Whenever the model says
    what it writes, it is the fallback exactly when the fetch was
    rejected, the response was not [ok], the body was not JSON text,
    the body was the JSON text [null], or one of the values the
    template converts to a string is an object with an own property
    [toString] (or an array that holds one), on which the conversion
    raises a TypeError inside [try]. *)
Theorem X20_render404_falls_back_exactly_on_failure
    (pageName : jsstring) (res : Render404.fetched) :
  (forall container e,
      Render404.render404 container pageName res <> Throw e)
  /\ Render404.render404 false pageName res = Ret None
  /\ (forall markup,
        Render404.render404 true pageName res = Ret (Some markup) ->
        markup = Render404.fallback_markup
        \/ exists c t s d b, markup = Render404.template c t s d b)
  /\ (Render404.render404 true pageName res <> Unmodelled ->
      (Render404.render404 true pageName res
       = Ret (Some Render404.fallback_markup)
       <-> res = Render404.NetworkError
           \/ (exists body, res = Render404.Response false body)
           \/ (exists body,
                 res = Render404.Response true body
                 /\ ((exists e, Json.JSON_parse body = Throw e)
                     \/ Json.JSON_parse body = Ret VNull
                     \/ exists data,
                          Json.JSON_parse body = Ret data
                          /\ existsb conversion_raises
                               (Render404.substituted data) = true)))).
Proof.
  assert (Null : forall body,
             Json.JSON_parse body = Ret VNull ->
             Render404.render404 true pageName (Render404.Response true body)
             = Ret (Some Render404.fallback_markup)).
  { intros body P. unfold Render404.render404. rewrite P. reflexivity. }
  assert (Bad : forall body e,
             Json.JSON_parse body = Throw e ->
             Render404.render404 true pageName (Render404.Response true body)
             = Ret (Some Render404.fallback_markup)).
  { intros body e P. unfold Render404.render404. rewrite P. reflexivity. }
  assert (Full : forall body data,
             Json.JSON_parse body = Ret data -> data <> VNull ->
             match Render404.render404 true pageName
                     (Render404.Response true body) with
             | Ret (Some markup) =>
                 (markup = Render404.fallback_markup
                  /\ existsb conversion_raises (Render404.substituted data) = true)
                 \/ ((exists c t s d b, markup = Render404.template c t s d b)
                     /\ existsb conversion_raises (Render404.substituted data)
                        = false)
             | Unmodelled => True
             | _ => False
             end).
  { intros body data P N.
    assert (U : data <> VUndefined).
    { intros ->. exact (JSON_parse_defined _ P). }
    unfold Render404.render404. rewrite P. cbn [bind].
    pose proof (page_markup_cases data pageName N U) as C.
    destruct (Render404.page_markup data pageName) as [markup | e | ];
      cbn [bind try_catch]; auto. }
  assert (D : forall data : value, data = VNull \/ data <> VNull).
  { intros data. destruct data; (left; reflexivity) || (right; discriminate). }
  split; [ | split; [reflexivity | split]].
  - intros [ | ] e; [ | discriminate].
    destruct res as [ | [ | ] body]; try discriminate.
    destruct (Json.JSON_parse body) as [data | e' | ] eqn:P.
    + destruct (D data) as [-> | N].
      * rewrite (Null body P). discriminate.
      * pose proof (Full body data P N) as F.
        destruct (Render404.render404 true pageName (Render404.Response true body))
          as [[m | ] | e'' | ]; try discriminate; contradiction.
    + rewrite (Bad body e' P). discriminate.
    + unfold Render404.render404. rewrite P. discriminate.
  - intros markup H.
    destruct res as [ | [ | ] body];
      try (injection H as <-; left; reflexivity).
    destruct (Json.JSON_parse body) as [data | e' | ] eqn:P.
    + destruct (D data) as [-> | N].
      * rewrite (Null body P) in H. injection H as <-. left. reflexivity.
      * pose proof (Full body data P N) as F. rewrite H in F.
        destruct F as [[F _] | [F _]]; [left | right]; exact F.
    + rewrite (Bad body e' P) in H. injection H as <-. left. reflexivity.
    + unfold Render404.render404 in H. rewrite P in H. discriminate H.
  - intros M. destruct res as [ | [ | ] body].
    + split; [auto | reflexivity].
    + destruct (Json.JSON_parse body) as [data | e' | ] eqn:P.
      * destruct (D data) as [-> | N].
        -- split; [ | intros _; exact (Null body P)].
           intros _. right. right. exists body. auto.
        -- pose proof (Full body data P N) as F.
           destruct (Render404.render404 true pageName
                       (Render404.Response true body))
             as [[m | ] | e'' | ]; try contradiction.
           destruct F as [[-> R] | [[c [t [s [d [b ->]]]]] R]].
           ++ split; [ | reflexivity].
              intros _. right. right. exists body. split; [reflexivity | ].
              right. right. exists data. auto.
           ++ split.
              ** intros H. exfalso.
                 apply (template_not_fallback c t s d b).
                 apply (f_equal (fun o => match o with
                                          | Ret (Some m) => m
                                          | _ => []
                                          end)) in H.
                 exact H.
              ** intros [H | [[b' H] | [b' [H [[e H'] | [H' | [data' [H' R']]]]]]]];
                   try discriminate H; injection H as <-; rewrite P in H';
                   try discriminate H'.
                 --- injection H' as ->. contradiction N. reflexivity.
                 --- injection H' as <-. rewrite R in R'. discriminate R'.
      * split; [ | intros _; exact (Bad body e' P)].
        intros _. right. right. exists body. eauto.
      * exfalso. apply M. unfold Render404.render404. rewrite P. reflexivity.
    + split; [intros _; right; left; eauto | reflexivity].
Qed.

Lemma X20_witness :
  Render404.render404 true (js "lost")
    (Render404.Response true unconvertible_code_body)
  = Ret (Some Render404.fallback_markup).
Proof.
  apply (proj2 (proj2 (proj2 (proj2 (X20_render404_falls_back_exactly_on_failure
                                       (js "lost")
                                       (Render404.Response true
                                          unconvertible_code_body))))
                 ltac:(vm_compute; discriminate))).
  right. right. exists unconvertible_code_body. split; [reflexivity | ].
  right. right. exists (VObj [(js "code", VObj [(js "toString", VNum 0)])]).
  split; vm_compute; reflexivity.
Defined.

(** X21.  When the JSON has no subtitle, or an empty one, the page name
    reaches the markup exactly as it was passed, between [Page "] and
    [" does not exist.]: whatever surrounds it is the same for every
    page name, and nothing in the name is escaped or left out. *)
Theorem X21_render404_inserts_the_page_name_verbatim
    (body : jsstring) (data subtitle : value) (markup : jsstring) :
  Json.JSON_parse body = Ret data ->
  get_field data (js "subtitle") = Ret subtitle ->
  truthy subtitle = Ret false ->
  Render404.page_markup data [] = Ret markup ->
  exists before rest,
    forall pageName,
      Render404.render404 true pageName (Render404.Response true body)
      = Ret (Some (before ++ js "Page " ++ 34%N :: pageName
                   ++ 34%N :: js " does not exist." ++ rest)).
Proof.
  intros P S T M.
  assert (O : forall d, Render404.or_else subtitle d = Ret d).
  { intros d. unfold Render404.or_else. rewrite T. reflexivity. }
  unfold Render404.render404. rewrite P. cbn [bind].
  unfold Render404.page_markup in *. rewrite S in *.
  destruct (get_field data (js "code")) as [code| |]; cbn [bind] in *;
    try discriminate M.
  destruct (Render404.or_else code (js "404")) as [c| |]; cbn [bind] in *;
    try discriminate M.
  destruct (get_field data (js "title")) as [title| |]; cbn [bind] in *;
    try discriminate M.
  destruct (Render404.or_else title (js "Page not found")) as [t| |];
    cbn [bind] in *; try discriminate M.
  rewrite O in M. cbn [bind] in M.
  destruct (get_field data (js "description")) as [description| |];
    cbn [bind] in *; try discriminate M.
  destruct (Render404.or_else description []) as [d| |]; cbn [bind] in *;
    try discriminate M.
  destruct (Render404.button_markup data) as [b| |]; cbn [bind] in *;
    try discriminate M.
  exists (Render404.line 6 (js "<div class=" ++ Render404.quoted "page-404" ++ js ">")
          ++ Render404.line 8 (js "<div class=" ++ Render404.quoted "page-404-inner"
                               ++ js ">")
          ++ Render404.line 10 (js "<div class=" ++ Render404.quoted "page-404-code"
                                ++ js ">" ++ c ++ js "</div>")
          ++ Render404.line 0 []
          ++ Render404.line 10 (js "<h1 class=" ++ Render404.quoted "page-404-title"
                                ++ js ">")
          ++ Render404.line 12 t
          ++ Render404.line 10 (js "</h1>")
          ++ Render404.line 0 []
          ++ Render404.line 10 (js "<p class="
                                ++ Render404.quoted "page-404-subtitle" ++ js ">")
          ++ Render404.line 12 []).
  exists (Render404.line 10 (js "</p>")
          ++ Render404.line 0 []
          ++ Render404.line 10 (js "<p class="
                                ++ Render404.quoted "page-404-description" ++ js ">")
          ++ Render404.line 12 d
          ++ Render404.line 10 (js "</p>")
          ++ Render404.line 0 []
          ++ Render404.line 10 b
          ++ Render404.line 8 (js "</div>")
          ++ Render404.line 6 (js "</div>")
          ++ Render404.line 4 []).
  intros pageName. rewrite O. cbn [bind try_catch]. do 2 f_equal.
  unfold Render404.template, Render404.missing_page, Render404.line.
  repeat (rewrite <- List.app_assoc || rewrite <- List.app_comm_cons).
  rewrite List.app_nil_r.
  reflexivity.
Qed.

Lemma X21_witness :
  exists before rest,
    forall pageName,
      Render404.render404 true pageName (Render404.Response true (js "{}"))
      = Ret (Some (before ++ js "Page " ++ 34%N :: pageName
                   ++ 34%N :: js " does not exist." ++ rest)).
Proof.
  apply (X21_render404_inserts_the_page_name_verbatim
           (js "{}") (VObj []) VUndefined
           (Render404.template (js "404") (js "Page not found")
              (Render404.missing_page []) [] [])).
  - vm_compute. reflexivity.
  - reflexivity.
  - reflexivity.
  - vm_compute. reflexivity.
Defined.

(** ** Time, ids and the way from the form to the dashboard *)

Section MoreFacts.

Lemma js_lt_later v now later :
  now <= later -> js_lt v now = Ret true -> js_lt v later = Ret true.
Proof.
  intros L. unfold js_lt. destruct (to_number v) as [[z|]| |]; cbn [bind];
    try discriminate.
  intros H. injection H as H. apply Z.ltb_lt in H. f_equal. apply Z.ltb_lt. lia.
Qed.

Lemma js_gt_later v now later :
  now <= later -> js_gt v now = Ret false -> js_gt v later = Ret false.
Proof.
  intros L. unfold js_gt. destruct (to_number v) as [[z|]| |]; cbn [bind];
    try discriminate; [|reflexivity].
  intros H. injection H as H. apply Z.ltb_ge in H. f_equal. apply Z.ltb_ge. lia.
Qed.

End MoreFacts.

(** X22.  An expired token stays expired.  If at some instant
    [sessionManager.verifyToken] answers false, [authAPI.verifyToken]
    answers "Token expired" or the provider's [verifyStoredToken]
    answers false, each gives that same answer for the same token at
    every later instant. *)
Theorem X22_expired_token_stays_expired
    (st : SessionManager.state) (store : list AuthAPI.identity)
    (tok : jsstring) (now later : Z) :
  now <= later ->
  (snd (SessionManager.verifyToken now st) = Ret false ->
   snd (SessionManager.verifyToken later st) = Ret false)
  /\ (AuthAPI.verifyToken store tok now = Ret AuthAPI.TokenExpired ->
      AuthAPI.verifyToken store tok later = Ret AuthAPI.TokenExpired)
  /\ (SessionProvider.verifyStoredToken tok now = Ret false ->
      SessionProvider.verifyStoredToken tok later = Ret false).
Proof.
  intros L. split; [|split].
  - unfold SessionManager.verifyToken.
    destruct (SessionManager.token (SessionManager.currentSession st))
      as [[|c t]|]; try reflexivity.
    unfold SessionManager.expiry_test.
    destruct (Token.decode (c :: t)) as [d| |]; cbn [bind]; try reflexivity;
      try discriminate.
    destruct (get_field d (js "exp")) as [x| |]; cbn [bind]; try reflexivity;
      try discriminate.
    destruct (js_lt x now) as [[|]|e|] eqn:J; cbn [snd]; try discriminate.
    + intros _. rewrite (js_lt_later _ _ _ L J). reflexivity.
    + intros _. apply js_lt_Throw in J.
      rewrite (proj2 (js_lt_Throw x later e) J). reflexivity.
  - unfold AuthAPI.verifyToken.
    destruct (Token.decode tok) as [d| |]; cbn [bind try_catch];
      try discriminate.
    destruct (get_field d (js "exp")) as [x| |]; cbn [bind try_catch];
      try discriminate.
    destruct (js_lt x now) as [[|]| |] eqn:J; cbn [bind try_catch];
      try discriminate.
    + intros _. rewrite (js_lt_later _ _ _ L J). reflexivity.
    + intros H. exfalso.
      destruct (get_field d (js "userId")) as [uid| |]; cbn in H;
        try discriminate H.
      destruct (AuthAPI.find_by_id uid store) as [[u|]| |]; cbn in H;
        discriminate H.
  - unfold SessionProvider.verifyStoredToken.
    destruct (Token.decode tok) as [d| |]; cbn [bind try_catch];
      try reflexivity; try discriminate.
    destruct (get_field d (js "exp")) as [x| |]; cbn [bind try_catch];
      try reflexivity; try discriminate.
    destruct (js_gt x now) as [[|]|e|] eqn:J; cbn [try_catch]; try discriminate.
    + intros _. rewrite (js_gt_later _ _ _ L J). reflexivity.
    + intros _. apply js_gt_Throw in J.
      rewrite (proj2 (js_gt_Throw x later e) J). reflexivity.
Qed.

Lemma X22_witness :
  (snd (SessionManager.verifyToken 4000 (demo_session (demo_token 3000)))
   = Ret false ->
   snd (SessionManager.verifyToken 5000 (demo_session (demo_token 3000)))
   = Ret false)
  /\ (AuthAPI.verifyToken AuthAPI.mockUsers (demo_token 3000) 4000
      = Ret AuthAPI.TokenExpired ->
      AuthAPI.verifyToken AuthAPI.mockUsers (demo_token 3000) 5000
      = Ret AuthAPI.TokenExpired)
  /\ (SessionProvider.verifyStoredToken (demo_token 3000) 4000 = Ret false ->
      SessionProvider.verifyStoredToken (demo_token 3000) 5000 = Ret false).
Proof.
  apply (X22_expired_token_stays_expired (demo_session (demo_token 3000))
           AuthAPI.mockUsers (demo_token 3000) 4000 5000).
  lia.
Defined.

(** X23.  Two registrations in the same millisecond get the same id,
    and [verifyToken] then answers the second account's token with the
    first account: signing in as the second gives a token that, while
    it is fresh, is verified as the first. *)
Theorem X23_same_millisecond_registrations_share_an_id
    (store : list AuthAPI.identity) (first second : AuthAPI.candidate)
    (i c1 c2 now later : Z) :
  (forall u, In u store ->
     AuthAPI.id u <> i
     /\ AuthAPI.email u <> AuthAPI.cand_email first
     /\ AuthAPI.email u <> AuthAPI.cand_email second) ->
  AuthAPI.cand_email first <> AuthAPI.cand_email second ->
  Forall (fun ch => (ch <= 255)%N) (AuthAPI.cand_email second) ->
  later <= now + 86400000 ->
  exists tok,
    AuthAPI.login
      (fst (AuthAPI.register (fst (AuthAPI.register store first i c1)) second i c2))
      {| AuthAPI.cred_email := AuthAPI.cand_email second;
         AuthAPI.cred_password := AuthAPI.cand_password second |} now
    = Ret {| AuthAPI.success := true;
             AuthAPI.message := Some "Login successful"%string;
             AuthAPI.token := Some tok;
             AuthAPI.user :=
               Some {| AuthAPI.pub_id := i;
                       AuthAPI.pub_username := AuthAPI.cand_username second;
                       AuthAPI.pub_email := AuthAPI.cand_email second;
                       AuthAPI.pub_createdAt := Some c2 |} |}
    /\ AuthAPI.verifyToken
         (fst (AuthAPI.register (fst (AuthAPI.register store first i c1))
                 second i c2))
         tok later
       = Ret {| AuthAPI.success := true; AuthAPI.message := None;
                AuthAPI.token := None;
                AuthAPI.user :=
                  Some {| AuthAPI.pub_id := i;
                          AuthAPI.pub_username := AuthAPI.cand_username first;
                          AuthAPI.pub_email := AuthAPI.cand_email first;
                          AuthAPI.pub_createdAt := Some c1 |} |}.
Proof.
  intros Hs Hd Hb Hl.
  assert (F1 : ~ (exists u, In u store
                            /\ AuthAPI.email u = AuthAPI.cand_email first)).
  { intros [u [Hin E]]. destruct (Hs u Hin) as [_ [N _]]. exact (N E). }
  rewrite (register_fresh _ _ i c1 F1). cbn [fst].
  set (A := {| AuthAPI.id := i; AuthAPI.username := AuthAPI.cand_username first;
               AuthAPI.email := AuthAPI.cand_email first;
               AuthAPI.password := AuthAPI.cand_password first;
               AuthAPI.createdAt := Some c1 |}).
  assert (F2 : ~ (exists u, In u (store ++ [A])
                            /\ AuthAPI.email u = AuthAPI.cand_email second)).
  { intros [u [Hin E]]. apply in_app_or in Hin. destruct Hin as [Hin | [<- | []]].
    - destruct (Hs u Hin) as [_ [_ N]]. exact (N E).
    - exact (Hd E). }
  rewrite (register_fresh _ _ i c2 F2). cbn [fst].
  set (B := {| AuthAPI.id := i; AuthAPI.username := AuthAPI.cand_username second;
               AuthAPI.email := AuthAPI.cand_email second;
               AuthAPI.password := AuthAPI.cand_password second;
               AuthAPI.createdAt := Some c2 |}).
  set (creds := {| AuthAPI.cred_email := AuthAPI.cand_email second;
                   AuthAPI.cred_password := AuthAPI.cand_password second |}).
  assert (M : find (AuthAPI.matches creds) ((store ++ [A]) ++ [B]) = Some B).
  { rewrite find_app_none.
    - simpl. unfold AuthAPI.matches. simpl. rewrite !jsstring_eqb_refl. reflexivity.
    - destruct (find (AuthAPI.matches creds) (store ++ [A])) as [w|] eqn:G;
        [|reflexivity].
      apply find_some in G. destruct G as [Hin Hm].
      apply matches_spec in Hm. destruct Hm as [He _].
      exfalso. apply F2. exists w. auto. }
  pose proof (encode_latin1 i (AuthAPI.cand_email second) (now + AuthAPI.ttl) Hb)
    as E.
  exists (Base64.encode
            (Token.payload_text i (AuthAPI.cand_email second) (now + AuthAPI.ttl))).
  split.
  - unfold AuthAPI.login. rewrite M. cbn [AuthAPI.id AuthAPI.email B].
    rewrite E. reflexivity.
  - rewrite (verifyToken_encoded _ _ _ _ _ later E).
    destruct (Z.ltb_spec (now + AuthAPI.ttl) later) as [X | _];
      [unfold AuthAPI.ttl in X; lia|].
    rewrite <- List.app_assoc. rewrite find_app_none.
    + simpl. rewrite Z.eqb_refl. reflexivity.
    + destruct (find (fun u => AuthAPI.id u =? i) store) as [w|] eqn:G;
        [|reflexivity].
      apply find_some in G. destruct G as [Hin Hi]. apply Z.eqb_eq in Hi.
      destruct (Hs w Hin) as [N _]. contradiction.
Qed.

Lemma X23_witness :
  exists tok,
    AuthAPI.login
      (fst (AuthAPI.register (fst (AuthAPI.register AuthAPI.mockUsers
                                     cyrillic_candidate 7 8))
              new_candidate 7 9))
      {| AuthAPI.cred_email := AuthAPI.cand_email new_candidate;
         AuthAPI.cred_password := AuthAPI.cand_password new_candidate |} 1000
    = Ret {| AuthAPI.success := true;
             AuthAPI.message := Some "Login successful"%string;
             AuthAPI.token := Some tok;
             AuthAPI.user :=
               Some {| AuthAPI.pub_id := 7;
                       AuthAPI.pub_username := AuthAPI.cand_username new_candidate;
                       AuthAPI.pub_email := AuthAPI.cand_email new_candidate;
                       AuthAPI.pub_createdAt := Some 9 |} |}
    /\ AuthAPI.verifyToken
         (fst (AuthAPI.register (fst (AuthAPI.register AuthAPI.mockUsers
                                        cyrillic_candidate 7 8))
                 new_candidate 7 9))
         tok 2000
       = Ret {| AuthAPI.success := true; AuthAPI.message := None;
                AuthAPI.token := None;
                AuthAPI.user :=
                  Some {| AuthAPI.pub_id := 7;
                          AuthAPI.pub_username :=
                            AuthAPI.cand_username cyrillic_candidate;
                          AuthAPI.pub_email := AuthAPI.cand_email cyrillic_candidate;
                          AuthAPI.pub_createdAt := Some 8 |} |}.
Proof.
  apply (X23_same_millisecond_registrations_share_an_id AuthAPI.mockUsers
           cyrillic_candidate new_candidate 7 8 9 1000 2000).
  - intros u [<- | []]. repeat split; intros H; vm_compute in H; discriminate H.
  - intros H. vm_compute in H. discriminate H.
  - vm_compute. repeat constructor; discriminate.
  - lia.
Defined.

(** X24.  From the registration form to the dashboard: after a form
    that passes the tests, with an address that is new and fits in
    bytes, has been sent, sending the login form with the same address
    and password starts the redirect, and when its timer fires the
    dashboard shows the name and address of the form and the id taken
    at registration. *)
Theorem X24_register_then_login_reaches_the_dashboard
    (store : list AuthAPI.identity) (formData : Forms.registration)
    (now_id now_created now : Z) (st : Routes.state) :
  Forms.well_filled formData ->
  ~ In (Forms.email formData) (map AuthAPI.email store) ->
  Forall (fun ch => (ch <= 255)%N) (Forms.email formData) ->
  Routes.loading st = false ->
  exists result,
    Forms.timer
      (Forms.handleLogin
         (fst (Forms.handleRegister store formData now_id now_created))
         {| AuthAPI.cred_email := Forms.email formData;
            AuthAPI.cred_password := Forms.password formData |} now)
    = Some (500, Forms.OnLoginSuccess result)
    /\ Routes.render (Routes.fire (Forms.OnLoginSuccess result) st)
       = Ret (Routes.DashboardScreen (Forms.username formData)
                (Forms.email formData) now_id).
Proof.
  intros W Hfresh Hb Hl.
  assert (Fr : ~ (exists u, In u store
                            /\ AuthAPI.email u
                               = AuthAPI.cand_email (Forms.as_candidate formData))).
  { intros [u [Hin E]]. apply Hfresh. cbn in E. rewrite <- E.
    apply in_map. exact Hin. }
  assert (S : fst (Forms.handleRegister store formData now_id now_created)
              = fst (AuthAPI.register store (Forms.as_candidate formData)
                       now_id now_created)).
  { destruct (handleRegister_cases store formData now_id now_created)
      as [[_ E] | [N _]]; [|contradiction].
    rewrite E.
    destruct (AuthAPI.register store (Forms.as_candidate formData)
                now_id now_created) as [s r].
    destruct (AuthAPI.success r); reflexivity. }
  rewrite S.
  destruct (login_after_register store (Forms.as_candidate formData)
              now_id now_created now Fr Hb) as [tok [L _]].
  cbn [Forms.as_candidate AuthAPI.cand_email AuthAPI.cand_password
       AuthAPI.cand_username] in L.
  destruct W as [Wu [We [Wp Wc]]].
  eexists. split.
  - unfold Forms.handleLogin. cbn [AuthAPI.cred_email AuthAPI.cred_password].
    rewrite (validateEmail_not_blank _ We), We.
    rewrite (blank_false (Forms.password formData)) by lia.
    cbn [orb negb]. rewrite L. reflexivity.
  - unfold Routes.render. cbn. rewrite Hl. reflexivity.
Qed.

Lemma X24_witness :
  exists result,
    Forms.timer
      (Forms.handleLogin
         (fst (Forms.handleRegister AuthAPI.mockUsers new_form 7 8))
         {| AuthAPI.cred_email := Forms.email new_form;
            AuthAPI.cred_password := Forms.password new_form |} 1000)
    = Some (500, Forms.OnLoginSuccess result)
    /\ Routes.render (Routes.fire (Forms.OnLoginSuccess result) Routes.initial)
       = Ret (Routes.DashboardScreen (Forms.username new_form)
                (Forms.email new_form) 7).
Proof.
  apply (X24_register_then_login_reaches_the_dashboard AuthAPI.mockUsers
           new_form 7 8 1000 Routes.initial).
  - unfold Forms.well_filled. repeat split; try (cbn; lia); vm_compute; reflexivity.
  - intros [H | []]. vm_compute in H. discriminate H.
  - vm_compute. repeat constructor; discriminate.
  - reflexivity.
Defined.
